(** * The STM32 package discovery engine (PackageManager)

    A shallow embedding of the [PackageManager] class: package
    identification, board enumeration, project enumeration and project
    import, together with the string utilities and the regular expressions
    the class relies on.

    Strings are modelled as [string] over 8-bit characters: names and file
    contents are taken to be ASCII; a character above 127 is never a letter,
    a digit or white space.  The file system, the folder dialog and the XML
    and JSON parsers are the environment of the class and are passed as
    oracles. *)

From Stdlib Require Import String Ascii List Bool Arith Lia.
Import ListNotations.
Open Scope string_scope.

(* ================================================================== *)
(** ** Characters and JavaScript string methods *)

Module Js.

Definition code (c : ascii) : nat := nat_of_ascii c.

Definition between (lo hi : nat) (c : ascii) : bool :=
  ((lo <=? code c) && (code c <=? hi))%nat.

(** [[A-Z]], [[a-z]], [\d], [\w], [\s] on ASCII. *)
Definition isUpper : ascii -> bool := between 65 90.
Definition isLower : ascii -> bool := between 97 122.
Definition isDigit : ascii -> bool := between 48 57.
Definition isWord (c : ascii) : bool :=
  isUpper c || isLower c || isDigit c || Ascii.eqb c "_".
Definition isSpace (c : ascii) : bool :=
  between 9 13 c || Ascii.eqb c " ".
Definition isLineTerminator (c : ascii) : bool :=
  ((code c =? 10) || (code c =? 13))%nat.

Definition lowerChar (c : ascii) : ascii :=
  if isUpper c then ascii_of_nat (code c + 32) else c.
Definition upperChar (c : ascii) : ascii :=
  if isLower c then ascii_of_nat (code c - 32) else c.

Fixpoint map (f : ascii -> ascii) (s : string) : string :=
  match s with
  | EmptyString => EmptyString
  | String c r => String (f c) (map f r)
  end.

(** [s.toLowerCase()] and [s.toUpperCase()]. *)
Definition toLowerCase : string -> string := map lowerChar.
Definition toUpperCase : string -> string := map upperChar.

(** [s.startsWith(t)]. *)
Fixpoint startsWith (s t : string) {struct t} : bool :=
  match t with
  | EmptyString => true
  | String b t' =>
      match s with
      | EmptyString => false
      | String a s' => Ascii.eqb a b && startsWith s' t'
      end
  end.

(** [s.includes(t)]: [t] occurs at some offset of [s]. *)
Fixpoint includes (s t : string) : bool :=
  startsWith s t ||
  match s with
  | EmptyString => false
  | String _ s' => includes s' t
  end.

(** [s.endsWith(t)]: some tail of [s] is [t]. *)
Fixpoint endsWith (s t : string) : bool :=
  String.eqb s t ||
  match s with
  | EmptyString => false
  | String _ s' => endsWith s' t
  end.

Fixpoint drop (n : nat) (s : string) : string :=
  match n, s with
  | O, _ => s
  | S _, EmptyString => EmptyString
  | S k, String _ r => drop k r
  end.

Fixpoint take (n : nat) (s : string) : string :=
  match n, s with
  | O, _ => EmptyString
  | S _, EmptyString => EmptyString
  | S k, String c r => String c (take k r)
  end.

(** [s.replace(pat, rep)] with a string pattern: only the first
    occurrence is replaced ([rep] holds no [$] pattern here). *)
Fixpoint replaceFirst (s pat rep : string) : string :=
  if startsWith s pat then rep ++ drop (String.length pat) s
  else match s with
       | EmptyString => EmptyString
       | String c r => String c (replaceFirst r pat rep)
       end.

Fixpoint trimStart (s : string) : string :=
  match s with
  | EmptyString => EmptyString
  | String c r => if isSpace c then trimStart r else s
  end.

(** The string without its trailing white space. *)
Fixpoint trimEnd (s : string) : string :=
  match s with
  | EmptyString => EmptyString
  | String c r =>
      match trimEnd r with
      | EmptyString => if isSpace c then EmptyString else String c EmptyString
      | t => String c t
      end
  end.

(** [s.trim()]. *)
Definition trim (s : string) : string := trimEnd (trimStart s).

(** Every character of the string is of the class. *)
Fixpoint all (p : ascii -> bool) (s : string) : bool :=
  match s with
  | EmptyString => true
  | String c r => p c && all p r
  end.

(** [arr.includes(x)] on an array of strings. *)
Definition arrayIncludes (l : list string) (x : string) : bool :=
  existsb (String.eqb x) l.

(** JavaScript truthiness of an optional string: [undefined] and the
    empty string are falsy. *)
Definition truthy (o : option string) : bool :=
  match o with
  | Some (String _ _) => true
  | _ => false
  end.

(** [o || d] for an optional string [o] and a string [d]. *)
Definition orElse (o : option string) (d : string) : string :=
  match o with
  | Some (String c r) => String c r
  | _ => d
  end.

End Js.

(* ================================================================== *)
(** ** Regular expressions

    The expressions of the class are sequences of character classes, each
    possibly under [*] or [+], and the assertion [\b].  Matching is
    leftmost, the quantifiers are greedy and backtrack. *)

Module RegExp.

Inductive atom : Type :=
| One (p : ascii -> bool)                 (* a character of the class *)
| Many (p : ascii -> bool) (plus : bool)  (* class* (false) or class+ (true) *)
| WordBoundary.                           (* \b *)

Definition regex : Type := list atom.

(** [\b] between the character before the position ([prev]) and the one
    at it. *)
Definition atBoundary (prev : option ascii) (s : string) : bool :=
  let w o := match o with Some c => Js.isWord c | None => false end in
  xorb (w prev) (w (match s with String c _ => Some c | EmptyString => None end)).

(** The length of the match of [re] that starts at the head of [s], if
    there is one. *)
Fixpoint matchHere (re : regex) : option ascii -> string -> option nat :=
  match re with
  | [] => fun _ _ => Some 0
  | One p :: re' => fun _ s =>
      match s with
      | String c r => if p c then option_map S (matchHere re' (Some c) r) else None
      | EmptyString => None
      end
  | Many p plus :: re' =>
      let star :=
        fix star (prev : option ascii) (s : string) {struct s} : option nat :=
          match s with
          | String c r =>
              if p c then
                match star (Some c) r with
                | Some n => Some (S n)
                | None => matchHere re' prev s
                end
              else matchHere re' prev s
          | EmptyString => matchHere re' prev s
          end in
      if plus then
        fun _ s =>
          match s with
          | String c r => if p c then option_map S (star (Some c) r) else None
          | EmptyString => None
          end
      else star
  | WordBoundary :: re' => fun prev s =>
      if atBoundary prev s then matchHere re' prev s else None
  end.

(** [re.exec(s)] without the [g] flag: offset and text of the leftmost
    match. *)
Fixpoint execFrom (re : regex) (prev : option ascii) (s : string)
  : option (nat * string) :=
  match matchHere re prev s with
  | Some n => Some (0, Js.take n s)
  | None =>
      match s with
      | EmptyString => None
      | String c r =>
          match execFrom re (Some c) r with
          | Some (i, m) => Some (S i, m)
          | None => None
          end
      end
  end.

Definition exec (re : regex) (s : string) : option (nat * string) :=
  execFrom re None s.

(** [s.match(re)] without the [g] flag, element [0]. *)
Definition match0 (re : regex) (s : string) : option string :=
  option_map snd (exec re s).

(** [re.test(s)]. *)
Definition test (re : regex) (s : string) : bool :=
  match exec re s with Some _ => true | None => false end.

(** [s.replace(re, f)] with the [g] flag: the matches are taken from left
    to right without overlap, [skip] counts the characters of the current
    match that are still to be passed.  After an empty match the scan
    moves on by one character. *)
Fixpoint replaceGo (re : regex) (f : string -> string)
    (prev : option ascii) (skip : nat) (s : string) : string :=
  match s with
  | EmptyString =>
      match skip, matchHere re prev EmptyString with
      | O, Some _ => f EmptyString
      | _, _ => EmptyString
      end
  | String c r =>
      match skip with
      | S k => replaceGo re f (Some c) k r
      | O =>
          match matchHere re prev s with
          | Some (S n) => f (Js.take (S n) s) ++ replaceGo re f (Some c) n r
          | Some O => f EmptyString ++ String c (replaceGo re f (Some c) 0 r)
          | None => String c (replaceGo re f (Some c) 0 r)
          end
      end
  end.

Definition replaceAll (re : regex) (f : string -> string) (s : string) : string :=
  replaceGo re f None 0 s.

(** Character classes. *)
Definition dot (c : ascii) : bool := negb (Js.isLineTerminator c).
Definition lit (a : ascii) (c : ascii) : bool := Ascii.eqb c a.
(** A literal under the [i] flag. *)
Definition litI (a : ascii) (c : ascii) : bool :=
  Ascii.eqb (Js.lowerChar c) (Js.lowerChar a).
(** [[A-Z]] under the [i] flag. *)
Definition letterI (c : ascii) : bool := Js.isUpper c || Js.isLower c.

(** [new RegExp(src, 'i')] for a source made of literal characters, [.]
    and a postfix [*], which is what [hasMatchingFile] builds from its
    patterns. *)
Fixpoint compileI (src : string) : regex :=
  match src with
  | EmptyString => []
  | String c rest =>
      let cls := if Ascii.eqb c "." then dot else litI c in
      match rest with
      | String "*" rest' => Many cls false :: compileI rest'
      | _ => One cls :: compileI rest
      end
  end.

End RegExp.

(* ================================================================== *)
(** ** The [path] module (POSIX flavour) *)

Module path.

(** The segments of a path between its [/] separators. *)
Fixpoint split (s : string) : list string :=
  match s with
  | EmptyString => [EmptyString]
  | String c r =>
      if Ascii.eqb c "/" then EmptyString :: split r
      else match split r with
           | h :: t => String c h :: t
           | [] => [String c EmptyString]
           end
  end.

Fixpoint concatWith (sep : string) (l : list string) : string :=
  match l with
  | [] => EmptyString
  | [x] => x
  | x :: r => x ++ sep ++ concatWith sep r
  end.

(** [normalizeString]: the segments are pushed on a stack (held in
    reverse); empty segments and [.] are dropped, [..] pops a segment
    that is not itself [..], and is kept only above the root of a
    relative path. *)
Fixpoint normalizeSegments (allowAboveRoot : bool) (stack : list string)
    (segs : list string) : list string :=
  match segs with
  | [] => rev stack
  | seg :: rest =>
      if String.eqb seg "" || String.eqb seg "." then
        normalizeSegments allowAboveRoot stack rest
      else if String.eqb seg ".." then
        match stack with
        | top :: below =>
            if String.eqb top ".." then
              normalizeSegments allowAboveRoot
                (if allowAboveRoot then seg :: stack else stack) rest
            else normalizeSegments allowAboveRoot below rest
        | [] =>
            normalizeSegments allowAboveRoot
              (if allowAboveRoot then [seg] else []) rest
        end
      else normalizeSegments allowAboveRoot (seg :: stack) rest
  end.

(** [path.normalize(p)]. *)
Definition normalize (p : string) : string :=
  match p with
  | EmptyString => "."
  | _ =>
      let isAbsolute := Js.startsWith p "/" in
      let trailingSeparator := Js.endsWith p "/" in
      let body :=
        concatWith "/" (normalizeSegments (negb isAbsolute) [] (split p)) in
      match body with
      | EmptyString =>
          if isAbsolute then "/" else if trailingSeparator then "./" else "."
      | _ =>
          let body' := if trailingSeparator then body ++ "/" else body in
          if isAbsolute then "/" ++ body' else body'
      end
  end.

(** [path.join(...args)]: the non-empty arguments joined by [/], then
    normalized. *)
Definition join (args : list string) : string :=
  match filter (fun a => negb (String.eqb a "")) args with
  | [] => "."
  | parts => normalize (concatWith "/" parts)
  end.

(** The scan of [path.dirname] from the end of the path (the characters
    after the first, reversed): the number of characters before the last
    separator that is followed by a segment. *)
Fixpoint dirnameEnd (revChars : list ascii) (matchedSlash : bool) : option nat :=
  match revChars with
  | [] => None
  | c :: before =>
      if Ascii.eqb c "/" then
        if matchedSlash then dirnameEnd before true
        else Some (List.length before)
      else dirnameEnd before false
  end.

(** [path.dirname(p)]. *)
Definition dirname (p : string) : string :=
  match p with
  | EmptyString => "."
  | String c0 rest =>
      let hasRoot := Ascii.eqb c0 "/" in
      match dirnameEnd (rev (list_ascii_of_string rest)) true with
      | None => if hasRoot then "/" else "."
      | Some k =>
          if hasRoot && (k =? 0)%nat then "//"
          else String c0 (Js.take k rest)
      end
  end.

(** [path.basename(p)]: the last segment, trailing separators apart. *)
Definition basename (p : string) : string :=
  last (filter (fun a => negb (String.eqb a "")) (split p)) EmptyString.

(** [path.basename(file, suffix)] for a name without separator. *)
Definition basenameWithout (file suffix : string) : string :=
  if String.eqb suffix "" then file
  else if String.eqb file suffix then EmptyString
  else if Js.endsWith file suffix
       then Js.take (String.length file - String.length suffix) file
       else file.

(** The scan of [path.extname] over a name without separator: the text
    from its last dot on, when that dot is not the first character. *)
Fixpoint lastDotSuffix (s : string) : option string :=
  match s with
  | EmptyString => None
  | String c r =>
      match lastDotSuffix r with
      | Some e => Some e
      | None => if Ascii.eqb c "." then Some s else None
      end
  end.

(** [path.extname(file)] for a name without separator. *)
Definition extname (file : string) : string :=
  match file with
  | EmptyString => EmptyString
  | String c r =>
      if String.eqb file ".." then EmptyString
      else match lastDotSuffix r with
           | Some e => e
           | None => EmptyString
           end
  end.

End path.

(* ================================================================== *)
(** ** Results, records and the environment *)

(** The outcome of a call that may throw; [Err] carries the thrown value
    as [String(error)] renders it. *)
Inductive result (A : Type) : Type :=
| Ok (a : A)
| Err (e : string).
Arguments Ok {A} a.
Arguments Err {A} e.

Definition bind {A B : Type} (r : result A) (k : A -> result B) : result B :=
  match r with
  | Ok a => k a
  | Err e => Err e
  end.

Notation "x <- e ;; k" := (bind e (fun x => k))
  (at level 61, e at next level, right associativity).

(** [try { body } catch (error) { handler(error) }]. *)
Definition tryCatch {A : Type} (body : result A) (handler : string -> result A)
  : result A :=
  match body with
  | Ok a => Ok a
  | Err e => handler e
  end.

(** A [try] whose handler returns a value. *)
Definition orOnError {A : Type} (body : result A) (fallback : A) : A :=
  match body with
  | Ok a => a
  | Err _ => fallback
  end.

(** [String(new Error(msg))]. *)
Definition newError (msg : string) : string := "Error: " ++ msg.

Module Dirent.
Record t : Type := mk { name : string; isDirectory : bool }.
End Dirent.

Module PackageInfo.
Record t : Type := mk {
  name : string;
  version : string;
  path : string;
  description : option string
}.
End PackageInfo.

Module BoardInfo.
Record t : Type := mk {
  id : string;
  name : string;
  description : string;
  imagePath : option string;
  mcu : string
}.
End BoardInfo.

Module ProjectInfo.
Record t : Type := mk {
  name : string;
  description : string;
  path : string;
  toolchain : list string
}.
End ProjectInfo.

(** The file-system calls of [fs-extra] the class makes.  [readdir] is
    the listing with file types; the plain listing is its names. *)
Record FileSystem : Type := {
  pathExists : string -> bool;
  readdir : string -> result (list Dirent.t);
  statIsFile : string -> result bool;
  readFile : string -> result string;
  copy : string -> string -> result unit
}.

Definition readdirNames (fs : FileSystem) (p : string) : result (list string) :=
  entries <- readdir fs p ;; Ok (List.map Dirent.name entries).

(** What [xml2js] hands to the callback of [parseString]: an error, or
    the document as an object keyed by the root element's name.  An
    element is a text, or an object with its attributes under [$] (absent
    when it has none) and its [description] children. *)
Inductive XmlValue : Type :=
| XmlText (text : string)
| XmlElem (attrs : option (list (string * string)))
          (descriptions : option (list string)).

Inductive XmlDoc : Type :=
| XmlNull
| XmlRoot (rootName : string) (root : XmlValue).

(** The object [JSON.parse] returns for a package descriptor ([None] for
    [null]), with the three members the class reads. *)
Record JsonPackage : Type := {
  jsonName : option string;
  jsonVersion : option string;
  jsonDescription : option string
}.

Record Parsers : Type := {
  parseString : string -> result XmlDoc;
  JSONparse : string -> result (option JsonPackage)
}.

Fixpoint assoc (k : string) (l : list (string * string)) : option string :=
  match l with
  | [] => None
  | (k', v) :: r => if String.eqb k k' then Some v else assoc k r
  end.

(* ================================================================== *)
(** ** The class [PackageManager]

    [console.log] and [console.error] calls have no effect on the results
    and are left out. *)

Section PackageManager.

Variable fs : FileSystem.
Variable parsers : Parsers.
(** The folder picked in [vscode.window.showOpenDialog], if any. *)
Variable showOpenDialog : option string.

(** *** Name formatting *)

Definition dashOrUnderscore (c : ascii) : bool :=
  Ascii.eqb c "-" || Ascii.eqb c "_".

(** The replacement ['$1 $2'] of a match whose first group is one
    character. *)
Definition group1SpaceGroup2 (m : string) : string :=
  match m with
  | EmptyString => " "
  | String a r => String a (String " " r)
  end.

Definition formatBoardName (name : string) : string :=
  let formatted := name in
  let formatted :=
    Js.trim
      (RegExp.replaceAll [RegExp.Many Js.isSpace true] (fun _ => " ")
      (RegExp.replaceAll [RegExp.WordBoundary; RegExp.One Js.isWord] Js.toUpperCase
      (RegExp.replaceAll [RegExp.One Js.isLower; RegExp.One Js.isUpper] group1SpaceGroup2
      (RegExp.replaceAll [RegExp.One Js.isUpper; RegExp.One Js.isUpper; RegExp.One Js.isLower]
                         group1SpaceGroup2
      (RegExp.replaceAll [RegExp.One dashOrUnderscore] (fun _ => " ") formatted))))) in
  let formatted :=
    if Js.includes formatted "NUCLEO"
    then Js.replaceFirst formatted "NUCLEO" "NUCLEO-" else formatted in
  let formatted :=
    if Js.includes formatted "DISCO"
    then Js.replaceFirst formatted "DISCO" "DISCOVERY" else formatted in
  let formatted :=
    if Js.includes formatted "EVAL"
    then Js.replaceFirst formatted "EVAL" "EVALUATION" else formatted in
  formatted.

Definition formatProjectName (name : string) : string :=
  RegExp.replaceAll [RegExp.WordBoundary; RegExp.One Js.isWord] Js.toUpperCase
    (RegExp.replaceAll [RegExp.One dashOrUnderscore] (fun _ => " ") name).

(** *** Board enumeration *)

Definition projectIndicators : list string :=
  [ ".uvprojx"; ".eww"; ".ewp"; ".cproject"; "Makefile"; ".ioc";
    "main.c"; "main.cpp"; "Inc/"; "Src/"; "Core/" ].

Definition indicatorMatches (file indicator : string) : bool :=
  Js.includes file indicator
  || Js.endsWith file indicator
  || Js.includes (Js.toLowerCase file) (Js.toLowerCase indicator).

Definition hasProjectFiles (projectPath : string) : bool :=
  orOnError
    (files <- readdirNames fs projectPath ;;
     Ok (existsb (fun file => existsb (indicatorMatches file) projectIndicators)
                 files))
    false.

(** The loop of [hasProjectsInCategory] over the project directories it
    checks, leaving at the first hit. *)
Fixpoint hasProjectsInCategoryLoop (categoryPath : string)
    (projectDirs : list Dirent.t) : bool :=
  match projectDirs with
  | [] => false
  | projectDir :: rest =>
      let projectPath := path.join [categoryPath; Dirent.name projectDir] in
      if hasProjectFiles projectPath then true
      else hasProjectsInCategoryLoop categoryPath rest
  end.

Definition hasProjectsInCategory (categoryPath : string) : bool :=
  orOnError
    (entries <- readdir fs categoryPath ;;
     let projectDirs := filter Dirent.isDirectory entries in
     if (List.length projectDirs =? 0)%nat then Ok false
     else Ok (hasProjectsInCategoryLoop categoryPath (firstn 3 projectDirs)))
    false.

Definition categoryNames : list string :=
  [ "Examples"; "Applications"; "Demonstrations"; "Templates" ].

Fixpoint hasProjectsInDirectoryLoop (boardDir : string)
    (categoryDirs : list Dirent.t) : bool :=
  match categoryDirs with
  | [] => false
  | categoryDir :: rest =>
      let categoryPath := path.join [boardDir; Dirent.name categoryDir] in
      if hasProjectsInCategory categoryPath then true
      else hasProjectsInDirectoryLoop boardDir rest
  end.

Definition hasProjectsInDirectory (boardDir : string) : bool :=
  orOnError
    (entries <- readdir fs boardDir ;;
     let categoryDirs :=
       filter (fun entry => Dirent.isDirectory entry
                            && Js.arrayIncludes categoryNames (Dirent.name entry))
              entries in
     if (List.length categoryDirs =? 0)%nat then Ok false
     else Ok (hasProjectsInDirectoryLoop boardDir (firstn 2 categoryDirs)))
    false.

Definition imageExtensions : list string :=
  [ ".png"; ".jpg"; ".jpeg"; ".gif"; ".bmp" ].
Definition commonNames : list string :=
  [ "board"; "image"; "picture"; "photo" ].

Fixpoint findBoardImageLoop (boardDir : string) (files : list string)
  : option string :=
  match files with
  | [] => None
  | file :: rest =>
      let ext := Js.toLowerCase (path.extname file) in
      let name := Js.toLowerCase (path.basenameWithout file ext) in
      if Js.arrayIncludes imageExtensions ext
         && (existsb (fun n => Js.includes name n) commonNames
             || Js.includes name "board")
      then Some (path.join [boardDir; file])
      else findBoardImageLoop boardDir rest
  end.

Definition findBoardImage (boardDir : string) : option string :=
  orOnError
    (files <- readdirNames fs boardDir ;; Ok (findBoardImageLoop boardDir files))
    None.

(** [/STM32[A-Z]\d+/i]. *)
Definition mcuRegex : RegExp.regex :=
  [ RegExp.One (RegExp.litI "S"); RegExp.One (RegExp.litI "T");
    RegExp.One (RegExp.litI "M"); RegExp.One (RegExp.litI "3");
    RegExp.One (RegExp.litI "2"); RegExp.One RegExp.letterI;
    RegExp.Many Js.isDigit true ].

(** The body of the inner [try] of [extractMcuInfo] for one file: the
    value it returns from the function, if it does. *)
Definition extractMcuFromFile (boardDir file : string) : result (option string) :=
  let filePath := path.join [boardDir; file] in
  isFile <- statIsFile fs filePath ;;
  if isFile && (Js.endsWith file ".h" || Js.endsWith file ".ioc") then
    content <- readFile fs filePath ;;
    Ok (option_map Js.toUpperCase (RegExp.match0 mcuRegex content))
  else Ok None.

Fixpoint extractMcuInfoLoop (boardDir : string) (files : list string)
  : option string :=
  match files with
  | [] => None
  | file :: rest =>
      match extractMcuFromFile boardDir file with
      | Ok (Some mcu) => Some mcu
      | Ok None => extractMcuInfoLoop boardDir rest
      | Err _ => extractMcuInfoLoop boardDir rest   (* continue *)
      end
  end.

Definition extractMcuInfo (boardDir : string) : option string :=
  orOnError
    (files <- readdirNames fs boardDir ;; Ok (extractMcuInfoLoop boardDir files))
    None.

(** [None] for [null].  The helpers catch their own errors, so the
    [catch] of [analyzeBoardDirectory] is never entered. *)
Definition analyzeBoardDirectory (boardDir boardName : string)
  : option BoardInfo.t :=
  let hasProjects := hasProjectsInDirectory boardDir in
  if negb hasProjects then None
  else
    let imagePath := findBoardImage boardDir in
    let mcu := extractMcuInfo boardDir in
    let formattedName := formatBoardName boardName in
    Some {| BoardInfo.id := boardName;
            BoardInfo.name := formattedName;
            BoardInfo.description :=
              "STM32 Development Board: " ++ formattedName ++
              (if Js.truthy mcu then " (" ++ Js.orElse mcu "" ++ ")" else "");
            BoardInfo.imagePath := imagePath;
            BoardInfo.mcu := Js.orElse mcu "STM32" |}.

Fixpoint scanForBoardsLoop (boardPath : string) (entries : list Dirent.t)
  : list BoardInfo.t :=
  match entries with
  | [] => []
  | entry :: rest =>
      if Dirent.isDirectory entry then
        let boardDir := path.join [boardPath; Dirent.name entry] in
        match analyzeBoardDirectory boardDir (Dirent.name entry) with
        | Some board => board :: scanForBoardsLoop boardPath rest
        | None => scanForBoardsLoop boardPath rest
        end
      else scanForBoardsLoop boardPath rest
  end.

Definition scanForBoards (boardPath : string) : list BoardInfo.t :=
  orOnError
    (entries <- readdir fs boardPath ;; Ok (scanForBoardsLoop boardPath entries))
    [].

(** [arr.findIndex(p)], [None] for [-1]. *)
Fixpoint findIndex {A : Type} (p : A -> bool) (l : list A) : option nat :=
  match l with
  | [] => None
  | x :: r => if p x then Some 0 else option_map S (findIndex p r)
  end.

(** [arr.filter((x, index) => p x index)], the indices counted from
    [start]. *)
Fixpoint filterIndexed {A : Type} (p : A -> nat -> bool) (start : nat)
    (l : list A) : list A :=
  match l with
  | [] => []
  | x :: r =>
      if p x start then x :: filterIndexed p (S start) r
      else filterIndexed p (S start) r
  end.

Definition optNatEqb (o : option nat) (n : nat) : bool :=
  match o with Some m => (m =? n)%nat | None => false end.

Fixpoint scanFallbackPaths (fallbackPaths : list string) : list BoardInfo.t :=
  match fallbackPaths with
  | [] => []
  | fallbackPath :: rest =>
      if pathExists fs fallbackPath
      then scanForBoards fallbackPath ++ scanFallbackPaths rest
      else scanFallbackPaths rest
  end.

(** [boards.filter((board, index, self) =>
      index === self.findIndex(b => b.id === board.id))]. *)
Definition uniqueBoards (boards : list BoardInfo.t) : list BoardInfo.t :=
  filterIndexed
    (fun board index =>
       optNatEqb
         (findIndex (fun b => String.eqb (BoardInfo.id b) (BoardInfo.id board)) boards)
         index)
    0 boards.

(** Nothing in the body of [getAvailableBoards] throws, its [catch] is
    never entered. *)
Definition getAvailableBoards (packagePath : string) : list BoardInfo.t :=
  let projectsPath := path.join [packagePath; "Projects"] in
  let boards :=
    if pathExists fs projectsPath then scanForBoards projectsPath
    else
      scanFallbackPaths
        [ path.join [packagePath; "Examples"];
          path.join [packagePath; "Applications"];
          path.join [packagePath; "Demonstrations"] ] in
  uniqueBoards boards.

(** *** Project enumeration *)

Definition hasMatchingFile (dir pattern : string) : bool :=
  orOnError
    (files <- readdirNames fs dir ;;
     Ok (existsb
           (fun file =>
              if Js.includes pattern "*" then
                let regex :=
                  RegExp.compileI
                    (RegExp.replaceAll [RegExp.One (RegExp.lit "*")]
                                       (fun _ => ".*") pattern) in
                RegExp.test regex file
              else String.eqb file pattern)
           files))
    false.

Definition toolchainFiles : list (string * string) :=
  [ ("*.uvprojx", "Keil");
    ("*.eww", "IAR");
    ("STM32*", "STM32CubeIDE");
    ("Makefile", "GCC");
    ("*.cproject", "Eclipse") ].

Fixpoint detectToolchains (projectDir : string) (tcs : list (string * string))
  : list string :=
  match tcs with
  | [] => []
  | (file, name) :: rest =>
      if hasMatchingFile projectDir file
      then name :: detectToolchains projectDir rest
      else detectToolchains projectDir rest
  end.

(** [None] for [null], which only the [catch] returns;
    [hasMatchingFile] catches its own errors. *)
Definition analyzeProjectDirectory (projectDir projectName : string)
  : option ProjectInfo.t :=
  let toolchains := detectToolchains projectDir toolchainFiles in
  let toolchains :=
    if (List.length toolchains =? 0)%nat then (toolchains ++ ["Generic"])%list
    else toolchains in
  Some {| ProjectInfo.name := formatProjectName projectName;
          ProjectInfo.description :=
            "STM32 Project: " ++ formatProjectName projectName;
          ProjectInfo.path := projectDir;
          ProjectInfo.toolchain := toolchains |}.

Fixpoint scanForProjectsLoop (projectPath : string) (entries : list Dirent.t)
  : list ProjectInfo.t :=
  match entries with
  | [] => []
  | entry :: rest =>
      if Dirent.isDirectory entry then
        let projectDir := path.join [projectPath; Dirent.name entry] in
        match analyzeProjectDirectory projectDir (Dirent.name entry) with
        | Some project => project :: scanForProjectsLoop projectPath rest
        | None => scanForProjectsLoop projectPath rest
        end
      else scanForProjectsLoop projectPath rest
  end.

Definition scanForProjects (projectPath : string) : list ProjectInfo.t :=
  orOnError
    (entries <- readdir fs projectPath ;;
     Ok (scanForProjectsLoop projectPath entries))
    [].

(** The category prefix [getProjectsForBoard] writes into a project. *)
Definition addCategoryPrefix (category : string) (project : ProjectInfo.t)
  : ProjectInfo.t :=
  {| ProjectInfo.name := category ++ "/" ++ ProjectInfo.name project;
     ProjectInfo.description :=
       category ++ ": " ++ ProjectInfo.description project;
     ProjectInfo.path := ProjectInfo.path project;
     ProjectInfo.toolchain := ProjectInfo.toolchain project |}.

Fixpoint getProjectsForBoardLoop (boardPath : string) (categories : list string)
  : list ProjectInfo.t :=
  match categories with
  | [] => []
  | category :: rest =>
      let categoryPath := path.join [boardPath; category] in
      if pathExists fs categoryPath then
        let categoryProjects := scanForProjects categoryPath in
        List.map (addCategoryPrefix category) categoryProjects
        ++ getProjectsForBoardLoop boardPath rest
      else getProjectsForBoardLoop boardPath rest
  end.

(** The board directory [getProjectsForBoard] looks into. *)
Definition boardPathOf (packagePath boardId : string) : string :=
  path.join [packagePath; "Projects"; boardId].

(** The body of [getProjectsForBoard] throws nothing ([pathExists] and
    [scanForProjects] catch their errors), so the [catch] that returns
    the empty list is never entered and the result is always [Ok]. *)
Definition getProjectsForBoard (packagePath boardId : string)
  : result (list ProjectInfo.t) :=
  let boardPath := boardPathOf packagePath boardId in
  if pathExists fs boardPath then
    Ok (getProjectsForBoardLoop boardPath categoryNames)
  else Ok [].

(** *** Project import *)

Fixpoint findProjectSourceLoop (possiblePaths : list string) : option string :=
  match possiblePaths with
  | [] => None
  | projectPath :: rest =>
      if pathExists fs projectPath then Some projectPath
      else findProjectSourceLoop rest
  end.

Definition possiblePaths (packagePath boardId projectName : string)
  : list string :=
  [ path.join [packagePath; "Projects"; boardId; projectName];
    path.join [packagePath; "Examples"; boardId; projectName];
    path.join [packagePath; "Applications"; boardId; projectName] ].

Definition findProjectSource (packagePath boardId projectName : string)
  : option string :=
  findProjectSourceLoop (possiblePaths packagePath boardId projectName).

(** What a call of [importProject] leaves behind: the copy it asked the
    file system for, if it got that far, and the value it returns or the
    error it throws. *)
Record ImportOutcome : Type := {
  copyRequested : option (string * string);
  returned : result string
}.

Definition importFailure (error : string) : string :=
  newError ("Failed to import project: " ++ error).

Definition importProject (packagePath boardId projectName : string)
  : ImportOutcome :=
  let prepared :=
    folder <- match showOpenDialog with
              | Some fsPath => Ok fsPath
              | None => Err (newError "No import location selected")
              end ;;
    let targetPath := path.join [folder; projectName] in
    match findProjectSource packagePath boardId projectName with
    | None =>
        Err (newError ("Project " ++ projectName ++ " not found for board "
                       ++ boardId))
    | Some projectSource => Ok (projectSource, targetPath)
    end in
  match prepared with
  | Err error =>
      {| copyRequested := None; returned := Err (importFailure error) |}
  | Ok (projectSource, targetPath) =>
      {| copyRequested := Some (projectSource, targetPath);
         returned :=
           match copy fs projectSource targetPath with
           | Ok _ => Ok targetPath
           | Err error => Err (importFailure error)
           end |}
  end.

(** The call [this._packageManager.importProject(packagePath, boardId,
    projectName, location, targetName, projectPath)] that [_importProject]
    of the import panel makes: six arguments are passed, [importProject]
    declares three parameters, so [location], [targetName] and
    [projectPath] are bound to nothing. *)
Definition importProjectCall (packagePath boardId projectName : string)
    (location targetName projectPath : option string) : ImportOutcome :=
  importProject packagePath boardId projectName.

(** *** Package identification *)

Definition possibleFiles : list string :=
  [ "package.xml"; "package.pdsc"; ".pdsc"; "package.json" ].

Fixpoint findDescriptorByName (packagePath : string) (names : list string)
  : option string :=
  match names with
  | [] => None
  | file :: rest =>
      let filePath := path.join [packagePath; file] in
      if pathExists fs filePath then Some filePath
      else findDescriptorByName packagePath rest
  end.

Fixpoint findPdscInRoot (packagePath : string) (files : list string)
  : option string :=
  match files with
  | [] => None
  | file :: rest =>
      if Js.endsWith file ".pdsc" then Some (path.join [packagePath; file])
      else findPdscInRoot packagePath rest
  end.

Definition findPackageDescriptor (packagePath : string)
  : result (option string) :=
  match findDescriptorByName packagePath possibleFiles with
  | Some filePath => Ok (Some filePath)
  | None =>
      files <- readdirNames fs packagePath ;;
      Ok (findPdscInRoot packagePath files)
  end.

(** [result.package || result], then the members read under [$]: the
    attributes and the [description] children when the document has a
    [package] element that carries attributes; [None] stands for the
    [TypeError] of reading a member of [undefined] or [null]. *)
Definition packageElement (doc : XmlDoc)
  : option (list (string * string) * option (list string)) :=
  match doc with
  | XmlNull => None
  | XmlRoot rootName root =>
      if String.eqb rootName "package" then
        match root with
        | XmlElem (Some attrs) descriptions => Some (attrs, descriptions)
        | XmlElem None _ => None
        | XmlText _ => None
        end
      else None
  end.

(** [packageInfo.description?.[0] || undefined]. *)
Definition firstDescription (descriptions : option (list string))
  : option string :=
  match descriptions with
  | Some (String c r :: _) => Some (String c r)
  | _ => None
  end.

Definition directoryNamePackage (packagePath : string) : PackageInfo.t :=
  {| PackageInfo.name := path.basename packagePath;
     PackageInfo.version := "1.0.0";
     PackageInfo.path := packagePath;
     PackageInfo.description := None |}.

Definition parsePackageDescriptor (filePath : string) : result PackageInfo.t :=
  content <- readFile fs filePath ;;
  let packagePath := path.dirname filePath in
  if Js.endsWith filePath ".json" then
    packageJson <- JSONparse parsers content ;;
    match packageJson with
    | None => Err "TypeError: Cannot read properties of null (reading 'name')"
    | Some json =>
        Ok {| PackageInfo.name := Js.orElse (jsonName json) "Unknown Package";
              PackageInfo.version := Js.orElse (jsonVersion json) "1.0.0";
              PackageInfo.path := packagePath;
              PackageInfo.description := jsonDescription json |}
    end
  else if Js.endsWith filePath ".pdsc" || Js.endsWith filePath ".xml" then
    match parseString parsers content with
    | Err err => Err err                            (* reject(err) *)
    | Ok doc =>
        match packageElement doc with
        | Some (attrs, descriptions) =>
            Ok {| PackageInfo.name :=
                    Js.orElse (assoc "name" attrs) "Unknown Package";
                  PackageInfo.version :=
                    Js.orElse (assoc "version" attrs) "1.0.0";
                  PackageInfo.path := packagePath;
                  PackageInfo.description := firstDescription descriptions |}
        | None => Ok (directoryNamePackage packagePath)   (* catch (parseError) *)
        end
    end
  else Ok (directoryNamePackage packagePath).

Definition analyzeFailure (error : string) : string :=
  newError ("Failed to analyze package: " ++ error).

Definition analyzePackage (packagePath : string) : result PackageInfo.t :=
  tryCatch
    (packageFile <- findPackageDescriptor packagePath ;;
     match packageFile with
     | Some file => parsePackageDescriptor file
     | None =>
         let packageName := path.basename packagePath in
         Ok {| PackageInfo.name := packageName;
               PackageInfo.version := "Unknown";
               PackageInfo.path := packagePath;
               PackageInfo.description :=
                 Some ("STM32 Package: " ++ packageName) |}
     end)
    (fun error => Err (analyzeFailure error)).

End PackageManager.

(* ================================================================== *)
(** ** A file system given by a directory tree

    Used to run the class on concrete packages. *)

Module TreeFs.

#[warnings="-register-all"]
Inductive Node : Type :=
| File (content : string)
| Unreadable                                  (* a file whose reads fail *)
| Dir (children : list (string * Node)).

Definition isDir (n : Node) : bool :=
  match n with Dir _ => true | _ => false end.

Fixpoint child (name : string) (children : list (string * Node)) : option Node :=
  match children with
  | [] => None
  | (k, n) :: rest => if String.eqb name k then Some n else child name rest
  end.

Fixpoint lookup (n : Node) (segments : list string) : option Node :=
  match segments with
  | [] => Some n
  | seg :: rest =>
      match n with
      | Dir children =>
          match child seg children with
          | Some n' => lookup n' rest
          | None => None
          end
      | _ => None
      end
  end.

Definition segments (p : string) : list string :=
  filter (fun a => negb (String.eqb a "")) (path.split p).

Definition at_ (root : Node) (p : string) : option Node :=
  lookup root (segments p).

Definition enoent (call p : string) : string :=
  "Error: ENOENT: no such file or directory, " ++ call ++ " '" ++ p ++ "'".

Definition make (root : Node) : FileSystem :=
  {| pathExists := fun p =>
       match at_ root p with Some _ => true | None => false end;
     readdir := fun p =>
       match at_ root p with
       | Some (Dir children) =>
           Ok (List.map (fun kn => Dirent.mk (fst kn) (isDir (snd kn))) children)
       | Some _ => Err ("Error: ENOTDIR: not a directory, scandir '" ++ p ++ "'")
       | None => Err (enoent "scandir" p)
       end;
     statIsFile := fun p =>
       match at_ root p with
       | Some n => Ok (negb (isDir n))
       | None => Err (enoent "stat" p)
       end;
     readFile := fun p =>
       match at_ root p with
       | Some (File content) => Ok content
       | Some Unreadable => Err ("Error: EACCES: permission denied, open '" ++ p ++ "'")
       | Some (Dir _) => Err "Error: EISDIR: illegal operation on a directory, read"
       | None => Err (enoent "open" p)
       end;
     copy := fun src dest =>
       match at_ root src with
       | Some _ => Ok tt
       | None => Err (enoent "lstat" src)
       end |}.

End TreeFs.

(* ================================================================== *)
(** ** The rules of the specification

    Definitions that follow the wording of the specification; the
    theorems below compare them with the class. *)

Module Rule.

(** *** Name formatting rule (4.5)

    The rule in its own terms: the letters and digits are written out,
    and every step is a function of its own on the characters of the
    name. *)

Definition capitalLetters : string := "ABCDEFGHIJKLMNOPQRSTUVWXYZ".
Definition smallLetters : string := "abcdefghijklmnopqrstuvwxyz".
Definition decimalDigits : string := "0123456789".

Fixpoint occursIn (c : ascii) (s : string) : bool :=
  match s with
  | EmptyString => false
  | String d r => Ascii.eqb c d || occursIn c r
  end.

Definition isCapital (c : ascii) : bool := occursIn c capitalLetters.
Definition isSmall (c : ascii) : bool := occursIn c smallLetters.

(** The characters of a word: letters, digits and the underscore. *)
Definition isWordCharacter (c : ascii) : bool :=
  isCapital c || isSmall c || occursIn c decimalDigits || Ascii.eqb c "_".

(** White space: the space, the tab, the line feed, the vertical tab,
    the form feed and the carriage return. *)
Definition isBlank (c : ascii) : bool :=
  existsb (Ascii.eqb c) [" "; "009"; "010"; "011"; "012"; "013"]%char.

(** The capital of a small letter, by its place in the alphabet; any
    other character is left as it is. *)
Fixpoint capitalAmong (smalls capitals : string) (c : ascii) : ascii :=
  match smalls, capitals with
  | String small smalls', String large capitals' =>
      if Ascii.eqb c small then large else capitalAmong smalls' capitals' c
  | _, _ => c
  end.

Definition capital : ascii -> ascii := capitalAmong smallLetters capitalLetters.

(** Replace hyphens and underscores with spaces. *)
Fixpoint separatorsToSpaces (s : string) : string :=
  match s with
  | EmptyString => EmptyString
  | String c r =>
      String (if Ascii.eqb c "-" || Ascii.eqb c "_" then " "%char else c)
             (separatorsToSpaces r)
  end.

Definition startsCapitalSmall (s : string) : bool :=
  match s with
  | String b (String c _) => isCapital b && isSmall c
  | _ => false
  end.

(** A space between an uppercase run and the uppercase-then-lowercase
    pair that follows it. *)
Fixpoint spaceAfterAcronym (s : string) : string :=
  match s with
  | EmptyString => EmptyString
  | String a r =>
      if isCapital a && startsCapitalSmall r
      then String a (String " " (spaceAfterAcronym r))
      else String a (spaceAfterAcronym r)
  end.

Definition startsCapital (s : string) : bool :=
  match s with
  | String b _ => isCapital b
  | EmptyString => false
  end.

(** A space between a lowercase letter and the uppercase letter that
    directly follows it. *)
Fixpoint spaceInCamelCase (s : string) : string :=
  match s with
  | EmptyString => EmptyString
  | String a r =>
      if isSmall a && startsCapital r
      then String a (String " " (spaceInCamelCase r))
      else String a (spaceInCamelCase r)
  end.

(** Capitalize the first character of every word; [inWord] tells whether
    the character before belongs to a word. *)
Fixpoint capitalizeInitials (inWord : bool) (s : string) : string :=
  match s with
  | EmptyString => EmptyString
  | String c r =>
      String (if isWordCharacter c && negb inWord then capital c else c)
             (capitalizeInitials (isWordCharacter c) r)
  end.

(** One space for every run of white space; [inRun] tells whether the
    character before is white space. *)
Fixpoint squeezeBlanks (inRun : bool) (s : string) : string :=
  match s with
  | EmptyString => EmptyString
  | String c r =>
      if isBlank c then
        if inRun then squeezeBlanks true r
        else String " " (squeezeBlanks true r)
      else String c (squeezeBlanks false r)
  end.

Fixpoint dropLeadingBlanks (s : string) : string :=
  match s with
  | EmptyString => EmptyString
  | String c r => if isBlank c then dropLeadingBlanks r else s
  end.

Fixpoint allBlank (s : string) : bool :=
  match s with
  | EmptyString => true
  | String c r => isBlank c && allBlank r
  end.

Fixpoint dropTrailingBlanks (s : string) : string :=
  match s with
  | EmptyString => EmptyString
  | String c r => if allBlank s then EmptyString else String c (dropTrailingBlanks r)
  end.

(** Trim: no white space at either end. *)
Definition trimBlanks (s : string) : string :=
  dropTrailingBlanks (dropLeadingBlanks s).

Fixpoint hasPrefix (pat s : string) : bool :=
  match pat, s with
  | EmptyString, _ => true
  | String p pat', String c s' => Ascii.eqb p c && hasPrefix pat' s'
  | String _ _, EmptyString => false
  end.

Fixpoint afterPrefix (pat s : string) : string :=
  match pat, s with
  | String _ pat', String _ s' => afterPrefix pat' s'
  | _, _ => s
  end.

(** The literal substitution: the first occurrence of [pat] becomes
    [rep]; a name without [pat] is left as it is. *)
Fixpoint substitute (pat rep s : string) : string :=
  if hasPrefix pat s then rep ++ afterPrefix pat s
  else match s with
       | EmptyString => EmptyString
       | String c r => String c (substitute pat rep r)
       end.

Definition displayName (raw : string) : string :=
  substitute "EVAL" "EVALUATION"
    (substitute "DISCO" "DISCOVERY"
       (substitute "NUCLEO" "NUCLEO-"
          (trimBlanks
             (squeezeBlanks false
                (capitalizeInitials false
                   (spaceInCamelCase
                      (spaceAfterAcronym (separatorsToSpaces raw)))))))).

(** Hyphens and underscores replaced by spaces, over the character class
    of the class. *)
Definition hyphensToSpaces : string -> string :=
  Js.map (fun c => if dashOrUnderscore c then " "%char else c).

(** *** Project-file probe (4.3) and recognized-category check (4.2) *)

(** Case-insensitive substring match. *)
Definition containsNoCase (s t : string) : bool :=
  Js.includes (Js.toLowerCase s) (Js.toLowerCase t).

(** The indicators of the project-file probe. *)
Definition projectFileIndicators : list string :=
  [ ".uvprojx"; ".eww"; ".ewp"; ".cproject"; "Makefile"; ".ioc";
    "main.c"; "main.cpp"; "Inc/"; "Src/"; "Core/" ].

(** The names of the category folders. *)
Definition categoryFolders : list string :=
  [ "Examples"; "Applications"; "Demonstrations"; "Templates" ].

(** The directory lists, and one of its immediate entries contains one of
    the indicators. *)
Definition projectLike (fs : FileSystem) (dir : string) : Prop :=
  exists files,
    readdirNames fs dir = Ok files /\
    exists file indicator,
      In file files /\ In indicator projectFileIndicators /\
      containsNoCase file indicator = true.

(** An immediate subdirectory named exactly as one of the category
    folders. *)
Definition isCategoryDir (entry : Dirent.t) : bool :=
  Dirent.isDirectory entry
  && existsb (String.eqb (Dirent.name entry)) categoryFolders.

(** One of the first two category directories of the candidate holds a
    project-like directory among its first three subdirectories. *)
Definition recognizedCategoryCheck (fs : FileSystem) (boardDir : string) : Prop :=
  exists entries category,
    readdir fs boardDir = Ok entries /\
    In category (firstn 2 (filter isCategoryDir entries)) /\
    let categoryPath := path.join [boardDir; Dirent.name category] in
    exists subentries sub,
      readdir fs categoryPath = Ok subentries /\
      In sub (firstn 3 (filter Dirent.isDirectory subentries)) /\
      projectLike fs (path.join [categoryPath; Dirent.name sub]).

(** The directories whose subdirectories are the board candidates:
    [Projects], or else the fallback roots that exist. *)
Definition boardRoots (fs : FileSystem) (packagePath : string) : list string :=
  if pathExists fs (path.join [packagePath; "Projects"])
  then [path.join [packagePath; "Projects"]]
  else filter (pathExists fs)
         [ path.join [packagePath; "Examples"];
           path.join [packagePath; "Applications"];
           path.join [packagePath; "Demonstrations"] ].

Definition boardCandidate (fs : FileSystem) (packagePath id : string) : Prop :=
  exists root entries entry,
    In root (boardRoots fs packagePath) /\
    readdir fs root = Ok entries /\
    In entry entries /\ Dirent.isDirectory entry = true /\
    Dirent.name entry = id /\
    recognizedCategoryCheck fs (path.join [root; id]).

(** *** Toolchain detection rule (4.3) *)

(** Glob match of a whole name, [*] for any run of characters, letters
    compared without case. *)
Fixpoint globMatch (pattern name : string) : bool :=
  match pattern with
  | EmptyString =>
      match name with EmptyString => true | _ => false end
  | String p pattern' =>
      if Ascii.eqb p "*" then
        (fix star (name : string) : bool :=
           globMatch pattern' name ||
           match name with
           | EmptyString => false
           | String _ name' => star name'
           end) name
      else
        match name with
        | EmptyString => false
        | String c name' =>
            Ascii.eqb (Js.lowerChar c) (Js.lowerChar p)
            && globMatch pattern' name'
        end
  end.

Definition supportedToolchains (files : list string) : list string :=
  let matched :=
    List.map snd
      (filter (fun tc => existsb (globMatch (fst tc)) files) toolchainFiles) in
  match matched with
  | [] => ["Generic"]
  | _ => matched
  end.

(** *** MCU family (4.2) *)

(** STM32, one uppercase letter, then one or more digits. *)
Definition mcuShape (m : string) : bool :=
  Js.startsWith m "STM32"
  && match Js.drop 5 m with
     | String letter digits =>
         Js.isUpper letter
         && (1 <=? String.length digits)%nat
         && Js.all Js.isDigit digits
     | EmptyString => false
     end.

(** The uppercased match in one entry of the board directory: the entry
    is a regular file named [*.h] or [*.ioc] whose content reads and
    matches. *)
Definition mcuInFile (fs : FileSystem) (boardDir file : string) : option string :=
  let filePath := path.join [boardDir; file] in
  match statIsFile fs filePath, readFile fs filePath with
  | Ok true, Ok content =>
      if Js.endsWith file ".h" || Js.endsWith file ".ioc"
      then option_map Js.toUpperCase (RegExp.match0 mcuRegex content)
      else None
  | _, _ => None
  end.

(** The first entry, in listing order, that gives a match. *)
Definition mcuFamily (fs : FileSystem) (boardDir : string) : option string :=
  match readdirNames fs boardDir with
  | Ok files =>
      hd_error
        (flat_map (fun file =>
                     match mcuInFile fs boardDir file with
                     | Some m => [m]
                     | None => []
                     end) files)
  | Err _ => None
  end.

End Rule.

(* ================================================================== *)
(** ** Auxiliary definitions of the proofs *)

(** Whether the character before the current position is a word
    character. *)
Definition isWordBefore (prev : option ascii) : bool :=
  match prev with Some c => Js.isWord c | None => false end.

(** The number of leading characters of the class. *)
Fixpoint spanLen (p : ascii -> bool) (s : string) : nat :=
  match s with
  | String c r => if p c then S (spanLen p r) else 0
  | EmptyString => 0
  end.

(* ================================================================== *)
(** ** Sample packages *)

Module Sample.

Import TreeFs.

(** A package in the [Projects] layout, under [/pkg]. *)
Definition stm32Tree : Node :=
  Dir [("pkg", Dir [
    ("package.xml", File "<package name='STM32Cube_FW_U5'");
    ("Projects", Dir [
      ("NUCLEO-U575ZI-Q", Dir [
        ("Examples", Dir [
          ("GPIO_EXTI", Dir [
            ("main.c", File "// GPIO EXTI example");
            ("Makefile", File "all:");
            ("project.uvprojx", File "<?xml version='1.0'?>") ]);
          ("Foo", Dir [ ("notes.txt", File "to do") ]);
          ("Low", Dir [ ("makefile", File "all:") ]);
          ("Old", Dir [ ("project.uvprojx.bak", File "") ]) ]);
        ("main.h", File "#define stm32u575xx") ]);
      ("B-U585I-IOT02A", Dir [
        ("Examples", Dir [
          ("Skeleton", Dir [
            ("Inc", Dir []); ("Src", Dir []); ("Core", Dir []) ]) ]) ]);
      ("STM32U575I-EV", Dir [
        ("Applications", Dir [
          ("Blinky", Dir [ ("main.c", File "// blinky") ]) ]);
        ("readme.txt", File "STM32U575 evaluation board") ]) ]) ])].

Definition stm32Fs : FileSystem := make stm32Tree.

(** A package in the flattened layout, under [/flat]: no [Projects]
    folder, the boards under [Examples]. *)
Definition flatTree : Node :=
  Dir [("flat", Dir [
    ("Examples", Dir [
      ("BoardX", Dir [
        ("Examples", Dir [
          ("Blinky", Dir [ ("main.c", File "// blinky") ]) ]) ]) ]) ])].

Definition flatFs : FileSystem := make flatTree.

(** A board whose only project is the fourth subdirectory of its only
    category folder. *)
Definition wideTree : Node :=
  Dir [("wide", Dir [
    ("Projects", Dir [
      ("BoardW", Dir [
        ("Examples", Dir [
          ("A", Dir [ ("readme.txt", File "") ]);
          ("B", Dir [ ("readme.txt", File "") ]);
          ("C", Dir [ ("readme.txt", File "") ]);
          ("D", Dir [ ("main.c", File "// the project") ]) ]) ]) ]) ])].

Definition wideFs : FileSystem := make wideTree.

(** Candidates for the recognized-category check, under
    [/boards/Projects], entries in alphabetical order:
    - four boards with a project in one category folder each, the
      project file of the fourth in capitals;
    - a board whose folder is named [examples], one whose folder is
      [Drivers], one where [Examples] is a file;
    - a board whose only project is in its third category folder, one
      whose only project is the third subdirectory of its folder, one
      whose only project is the fourth;
    - a board with a project in its second category folder only, and one
      whose only candidate holds no project file. *)
Definition boardsTree : Node :=
  Dir [("boards", Dir [
    ("Projects", Dir [
      ("A-Examples", Dir [
        ("Examples", Dir [ ("Blinky", Dir [ ("main.c", File "") ]) ]) ]);
      ("B-Applications", Dir [
        ("Applications", Dir [ ("Usb", Dir [ ("Makefile", File "all:") ]) ]) ]);
      ("C-Demonstrations", Dir [
        ("Demonstrations", Dir [ ("Demo", Dir [ ("demo.ioc", File "") ]) ]) ]);
      ("D-Templates", Dir [
        ("Templates", Dir [ ("Empty", Dir [ ("MAIN.CPP", File "") ]) ]) ]);
      ("E-lowercase", Dir [
        ("examples", Dir [ ("Blinky", Dir [ ("main.c", File "") ]) ]) ]);
      ("F-drivers", Dir [
        ("Drivers", Dir [ ("Blinky", Dir [ ("main.c", File "") ]) ]) ]);
      ("G-file", Dir [ ("Examples", File "main.c") ]);
      ("H-third-folder", Dir [
        ("Applications", Dir [ ("A", Dir [ ("readme.txt", File "") ]) ]);
        ("Demonstrations", Dir [ ("B", Dir [ ("readme.txt", File "") ]) ]);
        ("Examples", Dir [ ("C", Dir [ ("main.c", File "") ]) ]) ]);
      ("I-third-project", Dir [
        ("Examples", Dir [
          ("A", Dir [ ("readme.txt", File "") ]);
          ("B", Dir [ ("readme.txt", File "") ]);
          ("C", Dir [ ("main.c", File "") ]) ]) ]);
      ("J-fourth-project", Dir [
        ("Examples", Dir [
          ("A", Dir [ ("readme.txt", File "") ]);
          ("B", Dir [ ("readme.txt", File "") ]);
          ("C", Dir [ ("readme.txt", File "") ]);
          ("D", Dir [ ("main.c", File "") ]) ]) ]);
      ("K-second-folder", Dir [
        ("Examples", Dir [ ("A", Dir [ ("readme.txt", File "") ]) ]);
        ("Templates", Dir [ ("B", Dir [ ("project.ewp", File "") ]) ]) ]);
      ("L-notes", Dir [
        ("Examples", Dir [ ("Foo", Dir [ ("notes.txt", File "") ]) ]) ]) ]) ])].

Definition boardsFs : FileSystem := make boardsTree.

(** An XML parser that rejects every content, and one that reads every
    content as a document without [package] element. *)
Definition rejectingParsers : Parsers :=
  {| parseString := fun _ => Err "Error: Unclosed root tag";
     JSONparse := fun _ => Err "SyntaxError: Unexpected end of JSON input" |}.

Definition otherRootParsers : Parsers :=
  {| parseString := fun _ => Ok (XmlRoot "pack" (XmlElem None None));
     JSONparse := fun _ => Err "SyntaxError: Unexpected end of JSON input" |}.

End Sample.

(** The scan of an unanchored expression: [q] holds of some tail of the
    string. *)
Fixpoint existsSuffix (q : string -> bool) (s : string) : bool :=
  q s ||
  match s with
  | String _ r => existsSuffix q r
  | EmptyString => false
  end.

(** The string starts with one character of each class, in order. *)
Fixpoint startsWithClasses (ps : list (ascii -> bool)) (s : string) : bool :=
  match ps with
  | [] => true
  | p :: ps' =>
      match s with
      | String c r => p c && startsWithClasses ps' r
      | EmptyString => false
      end
  end.

Definition isSome {A : Type} (o : option A) : bool :=
  match o with Some _ => true | None => false end.

(** The literal characters of [w] under the [i] flag. *)
Definition literalsI (w : string) : list (ascii -> bool) :=
  List.map RegExp.litI (list_ascii_of_string w).

Definition ones (ps : list (ascii -> bool)) : RegExp.regex :=
  List.map RegExp.One ps.

Definition sourceFolderNames : list string := ["Inc"; "Src"; "Core"].
Definition directoryIndicators : list string := ["Inc/"; "Src/"; "Core/"].

(** The names [readdir] gives for a directory, none when the listing
    fails. *)
Definition entryNames (fs : FileSystem) (dir : string) : list string :=
  orOnError (readdirNames fs dir) [].

(* ================================================================== *)
(** ** The rules as the class applies them *)

Module Applied.

(** The steps of [formatBoardName] as functions over the character
    classes of its expressions. *)

Definition startsUpperLower (s : string) : bool :=
  match s with
  | String b (String c _) => Js.isUpper b && Js.isLower c
  | _ => false
  end.

Fixpoint splitAcronym (s : string) : string :=
  match s with
  | EmptyString => EmptyString
  | String a r =>
      if Js.isUpper a && startsUpperLower r
      then String a (String " " (splitAcronym r))
      else String a (splitAcronym r)
  end.

Definition startsUpper (s : string) : bool :=
  match s with
  | String b _ => Js.isUpper b
  | EmptyString => false
  end.

Fixpoint splitCamel (s : string) : string :=
  match s with
  | EmptyString => EmptyString
  | String a r =>
      if Js.isLower a && startsUpper r
      then String a (String " " (splitCamel r))
      else String a (splitCamel r)
  end.

Fixpoint capitalizeWords (inWord : bool) (s : string) : string :=
  match s with
  | EmptyString => EmptyString
  | String c r =>
      String (if Js.isWord c && negb inWord then Js.upperChar c else c)
             (capitalizeWords (Js.isWord c) r)
  end.

Fixpoint collapseSpaces (inRun : bool) (s : string) : string :=
  match s with
  | EmptyString => EmptyString
  | String c r =>
      if Js.isSpace c then
        if inRun then collapseSpaces true r
        else String " " (collapseSpaces true r)
      else String c (collapseSpaces false r)
  end.

Definition substitute (pat rep s : string) : string :=
  Js.replaceFirst s pat rep.

Definition displayName (raw : string) : string :=
  substitute "EVAL" "EVALUATION"
    (substitute "DISCO" "DISCOVERY"
       (substitute "NUCLEO" "NUCLEO-"
          (Js.trim
             (collapseSpaces false
                (capitalizeWords false
                   (splitCamel (splitAcronym (Rule.hyphensToSpaces raw)))))))).

(** The name holds [tail], letters compared without case, right after
    some character that is no line break: what [*.tail] matches once
    [hasMatchingFile] has turned it into an unanchored expression. *)
Fixpoint afterSomeChar (tail name : string) : bool :=
  match name with
  | EmptyString => false
  | String c r =>
      (RegExp.dot c
       && Js.startsWith (Js.toLowerCase r) (Js.toLowerCase tail))
      || afterSomeChar tail r
  end.

Definition toolchainDetectors : list ((string -> bool) * string) :=
  [ (afterSomeChar "uvprojx", "Keil");
    (afterSomeChar "eww", "IAR");
    (fun name => Rule.containsNoCase name "STM32", "STM32CubeIDE");
    (fun name => String.eqb name "Makefile", "GCC");
    (afterSomeChar "cproject", "Eclipse") ].

(** The toolchains of a directory with the entries [names]. *)
Definition toolchainsOf (names : list string) : list string :=
  let matched :=
    List.map snd
      (filter (fun d => existsb (fst d) names) toolchainDetectors) in
  match matched with
  | [] => ["Generic"]
  | _ => matched
  end.

(** The project [scanForProjects] builds for the subdirectory [entry] of
    the category folder [categoryPath]. *)
Definition projectOf (fs : FileSystem) (categoryPath : string)
    (entry : Dirent.t) : ProjectInfo.t :=
  let projectDir := path.join [categoryPath; Dirent.name entry] in
  {| ProjectInfo.name := formatProjectName (Dirent.name entry);
     ProjectInfo.description :=
       "STM32 Project: " ++ formatProjectName (Dirent.name entry);
     ProjectInfo.path := projectDir;
     ProjectInfo.toolchain := toolchainsOf (entryNames fs projectDir) |}.

(** The projects of one category folder of a board, in listing order:
    one for every subdirectory. *)
Definition categoryProjects (fs : FileSystem) (boardPath category : string)
  : list ProjectInfo.t :=
  let categoryPath := path.join [boardPath; category] in
  if pathExists fs categoryPath then
    List.map (fun entry => addCategoryPrefix category (projectOf fs categoryPath entry))
             (filter Dirent.isDirectory (orOnError (readdir fs categoryPath) []))
  else [].

End Applied.

(* ================================================================== *)
(** ** Further auxiliary definitions *)

(** The boards in scan order, before the duplicates are removed. *)
Definition scannedBoards (fs : FileSystem) (packagePath : string)
  : list BoardInfo.t :=
  if pathExists fs (path.join [packagePath; "Projects"])
  then scanForBoards fs (path.join [packagePath; "Projects"])
  else scanFallbackPaths fs
         [ path.join [packagePath; "Examples"];
           path.join [packagePath; "Applications"];
           path.join [packagePath; "Demonstrations"] ].

(** The boards whose id was not [seen] before, in order. *)
Fixpoint keepFirst (seen : list string) (boards : list BoardInfo.t)
  : list BoardInfo.t :=
  match boards with
  | [] => []
  | b :: rest =>
      if existsb (String.eqb (BoardInfo.id b)) seen then keepFirst seen rest
      else b :: keepFirst (BoardInfo.id b :: seen) rest
  end.

(** A name that is one path segment: not empty, not [.] or [..], and
    without separator. *)
Definition plainName (name : string) : Prop :=
  name <> "" /\ name <> "." /\ name <> ".." /\ Js.includes name "/" = false.

(** A segment that [path.normalize] keeps as it is. *)
Definition properSegment (seg : string) : bool :=
  negb (String.eqb seg "" || String.eqb seg "." || String.eqb seg "..").

(** The stacks of [path.normalizeSegments] (top first): proper segments
    above a run of [..], which is empty unless the path is relative. *)
Definition normalStack (allowAboveRoot : bool) (stack : list string) : Prop :=
  exists names k,
    stack = (names ++ repeat ".." k)%list
    /\ Forall (fun seg => properSegment seg = true) names
    /\ (allowAboveRoot = false -> k = 0%nat).

(** The white space of a string is well placed: plain spaces only, no
    two in a row, none at the end, and none at the start when
    [afterSpace] is set. *)
Fixpoint spaced (afterSpace : bool) (s : string) : bool :=
  match s with
  | EmptyString => negb afterSpace
  | String c r =>
      if Js.isSpace c
      then negb afterSpace && Ascii.eqb c " " && spaced true r
      else spaced false r
  end.

(** The same, a space at the end allowed. *)
Fixpoint looselySpaced (afterSpace : bool) (s : string) : bool :=
  match s with
  | EmptyString => true
  | String c r =>
      if Js.isSpace c
      then negb afterSpace && Ascii.eqb c " " && looselySpaced true r
      else looselySpaced false r
  end.

(** Single plain spaces between the other characters, and no other
    white space. *)
Definition tidy (s : string) : bool :=
  match s with
  | EmptyString => true
  | _ => spaced true s
  end.

(** A package with a JSON descriptor, a board with a preview image and
    two project directories whose names differ only in the separator. *)
Module Kit.

Import TreeFs.

Definition tree : Node :=
  Dir [("kit", Dir [
    ("package.json", File "{}");
    ("Projects", Dir [
      ("STM32F4-DISCO", Dir [
        ("Examples", Dir [
          ("GPIO_EXTI", Dir [ ("main.c", File "// exti") ]);
          ("GPIO-EXTI", Dir [ ("Makefile", File "all:") ]) ]);
        ("Board_Photo.PNG", File "");
        ("conf.ioc", File "Mcu.Name=stm32f407vgtx") ]) ]) ])].

Definition fs : FileSystem := make tree.

(** Parsers that read every JSON content as an object with the single
    member [name]. *)
Definition parsers : Parsers :=
  {| parseString := fun _ => Err "Error: Non-whitespace before first tag";
     JSONparse := fun _ =>
       Ok (Some {| jsonName := Some "Kit";
                   jsonVersion := None;
                   jsonDescription := None |}) |}.

End Kit.

(* ================================================================== *)
(** ** The import panel ([packageImportPanel.ts])

    [_handleMessage] and the methods it calls, as the list of the effects
    a message has, in order: the messages posted to the webview, the
    notifications shown, the copy [importProject] asks for and the folder
    opened.  Logging is left out. *)

Module Panel.

(** A message of the webview, by its [command]. *)
Inductive Message : Type :=
| SelectPackage
| SelectBoard (packagePath : string)
| SelectProject (packagePath boardId : string)
| BrowseLocation
| ImportProject (packagePath boardId projectName : string)
                (location targetName projectPath : option string)
| OtherCommand (command : string).

(** A message posted to the webview, by its [command]. *)
Inductive Posted : Type :=
| PackageSelected (packageInfo : PackageInfo.t)
| BoardsLoaded (boards : list BoardInfo.t)
| ProjectsLoaded (projects : list ProjectInfo.t)
| ImportComplete (success : bool) (message : string)
| LocationSelected (path : string).

Inductive Effect : Type :=
| Post (message : Posted)
| ShowInformationMessage (text : string)
| ShowErrorMessage (text : string)
| CopyTree (source target : string)
| OpenFolder (path : string).

Section Panel.

Variable fs : FileSystem.
Variable parsers : Parsers.
(** The folder picked in the dialog the handler opens, if any. *)
Variable showOpenDialog : option string.
(** The button picked in the question "Would you like to open it?". *)
Variable openProject : option string.
(** [vscode.commands.executeCommand('vscode.openFolder', uri)]. *)
Variable openFolder : string -> result unit.

Definition _selectBoard (packagePath : string) : list Effect :=
  [Post (BoardsLoaded (getAvailableBoards fs packagePath))].

Definition _selectPackage : list Effect :=
  match showOpenDialog with
  | Some fsPath =>
      match analyzePackage fs parsers fsPath with
      | Ok packageInfo =>
          Post (PackageSelected packageInfo)
          :: _selectBoard (PackageInfo.path packageInfo)
      | Err error => [ShowErrorMessage ("Failed to analyze package: " ++ error)]
      end
  | None => []
  end.

Definition _selectProject (packagePath boardId : string) : list Effect :=
  match getProjectsForBoard fs packagePath boardId with
  | Ok projects => [Post (ProjectsLoaded projects)]
  | Err _ => []
  end.

Definition importFailed (error : string) : list Effect :=
  [ ShowErrorMessage ("Failed to import project: " ++ error);
    Post (ImportComplete false error) ].

Definition _importProject (packagePath boardId projectName : string)
    (location targetName projectPath : option string) : list Effect :=
  let outcome :=
    importProjectCall fs showOpenDialog packagePath boardId projectName
      location targetName projectPath in
  (match copyRequested outcome with
   | Some (source, target) => [CopyTree source target]
   | None => []
   end
   ++
   match returned outcome with
   | Ok workspacePath =>
       ShowInformationMessage
         ("Project imported successfully to: " ++ workspacePath)
       :: ShowInformationMessage
            "Project imported successfully. Would you like to open it?"
       :: (if match openProject with
              | Some choice => String.eqb choice "Open Project"
              | None => false
              end
           then
             match openFolder workspacePath with
             | Ok _ =>
                 [ OpenFolder workspacePath;
                   Post (ImportComplete true "Import finished") ]
             | Err error => importFailed error
             end
           else [Post (ImportComplete true "Import finished")])
   | Err error => importFailed error
   end)%list.

Definition _browseLocation : list Effect :=
  [Post (LocationSelected
           (match showOpenDialog with Some fsPath => fsPath | None => "" end))].

Definition _handleMessage (message : Message) : list Effect :=
  match message with
  | SelectPackage => _selectPackage
  | SelectBoard packagePath => _selectBoard packagePath
  | SelectProject packagePath boardId => _selectProject packagePath boardId
  | BrowseLocation => _browseLocation
  | ImportProject packagePath boardId projectName location targetName projectPath =>
      _importProject packagePath boardId projectName location targetName projectPath
  | OtherCommand _ => []
  end.

End Panel.

Definition isImportComplete (e : Effect) : bool :=
  match e with
  | Post (ImportComplete _ _) => true
  | _ => false
  end.

Definition isPost (e : Effect) : bool :=
  match e with
  | Post _ => true
  | _ => false
  end.

End Panel.

(* ================================================================== *)
(** ** The webview script of the import form

    The script's variables and the values and flags of the form controls
    it reads or sets; the option lists and texts it writes into the page
    are left out.  An event stands for one run of a listener: it takes a
    state to the next state and the messages posted to the extension.
    The listeners themselves do not look at the [disabled] flags, so
    neither does [step]. *)

Module Webview.

Record State : Type := {
  currentPackageInfo : option PackageInfo.t;
  currentBoards : list BoardInfo.t;
  currentProjects : list ProjectInfo.t;
  selectedBoard : option BoardInfo.t;
  selectedProject : option ProjectInfo.t;
  projectNameValue : string;          (* projectNameInput.value *)
  locationValue : string;             (* locationInput.value *)
  openReadmeChecked : bool;
  importDisabled : bool;              (* importBtn.disabled *)
  importText : string;                (* importBtn.textContent *)
  loading : bool;                     (* class of the container *)
  repositoryErrorShown : bool;
  toolchainDisabled : bool;
  boardDisabled : bool;
  templateDisabled : bool;
  boardPreviewShown : bool
}.

Inductive Event : Type :=
| RepositoryChange (value : string)
| BoardChange (value : string)
| TemplateChange (value : string)
| ProjectNameInput (value : string)
| LocationInput (value : string)
| SelectPackageClick
| BrowseLocationClick
| ImportClick
| Received (message : Panel.Posted).

Definition isSeparator (c : ascii) : bool :=
  Ascii.eqb c "/" || Ascii.eqb c "\".

(** [s.split(re)] for an expression that matches one character of the
    class. *)
Fixpoint splitOn (sep : ascii -> bool) (s : string) : list string :=
  match s with
  | EmptyString => [EmptyString]
  | String c r =>
      if sep c then EmptyString :: splitOn sep r
      else match splitOn sep r with
           | h :: t => String c h :: t
           | [] => [String c EmptyString]
           end
  end.

(** [arr.pop()] of a fresh array: its last element. *)
Definition pop (l : list string) : string := last l EmptyString.

Definition canImport (s : State) : bool :=
  let hasValidLocation :=
    negb (String.eqb (locationValue s) "")
    && negb (String.eqb (Js.trim (locationValue s)) "")
    && negb (String.eqb (locationValue s) "Select location") in
  match currentPackageInfo s, selectedBoard s, selectedProject s with
  | Some _, Some _, Some _ =>
      negb (String.eqb (Js.trim (projectNameValue s)) "") && hasValidLocation
  | _, _, _ => false
  end.

Definition setImport (disabled : bool) (text : string) (busy : bool) (s : State)
  : State :=
  {| currentPackageInfo := currentPackageInfo s;
     currentBoards := currentBoards s;
     currentProjects := currentProjects s;
     selectedBoard := selectedBoard s;
     selectedProject := selectedProject s;
     projectNameValue := projectNameValue s;
     locationValue := locationValue s;
     openReadmeChecked := openReadmeChecked s;
     importDisabled := disabled;
     importText := text;
     loading := busy;
     repositoryErrorShown := repositoryErrorShown s;
     toolchainDisabled := toolchainDisabled s;
     boardDisabled := boardDisabled s;
     templateDisabled := templateDisabled s;
     boardPreviewShown := boardPreviewShown s |}.

Definition updateImportButton (s : State) : State :=
  setImport (negb (canImport s)) (importText s) (loading s) s.

Definition resetBoardSelection (s : State) : State :=
  updateImportButton
    {| currentPackageInfo := currentPackageInfo s;
       currentBoards := [];
       currentProjects := [];
       selectedBoard := None;
       selectedProject := None;
       projectNameValue := projectNameValue s;
       locationValue := locationValue s;
       openReadmeChecked := openReadmeChecked s;
       importDisabled := importDisabled s;
       importText := importText s;
       loading := loading s;
       repositoryErrorShown := repositoryErrorShown s;
       toolchainDisabled := toolchainDisabled s;
       boardDisabled := true;
       templateDisabled := true;
       boardPreviewShown := false |}.

Definition resetForm (s : State) : State :=
  resetBoardSelection
    {| currentPackageInfo := None;
       currentBoards := currentBoards s;
       currentProjects := currentProjects s;
       selectedBoard := selectedBoard s;
       selectedProject := selectedProject s;
       projectNameValue := "";
       locationValue := "";
       openReadmeChecked := false;
       importDisabled := importDisabled s;
       importText := importText s;
       loading := loading s;
       repositoryErrorShown := repositoryErrorShown s;
       toolchainDisabled := true;
       boardDisabled := boardDisabled s;
       templateDisabled := templateDisabled s;
       boardPreviewShown := boardPreviewShown s |}.

Definition handlePackageSelected (packageInfo : PackageInfo.t) (s : State)
  : State :=
  {| currentPackageInfo := Some packageInfo;
     currentBoards := currentBoards s;
     currentProjects := currentProjects s;
     selectedBoard := selectedBoard s;
     selectedProject := selectedProject s;
     projectNameValue := projectNameValue s;
     locationValue := locationValue s;
     openReadmeChecked := openReadmeChecked s;
     importDisabled := importDisabled s;
     importText := importText s;
     loading := loading s;
     repositoryErrorShown := false;
     toolchainDisabled := false;
     boardDisabled := boardDisabled s;
     templateDisabled := templateDisabled s;
     boardPreviewShown := boardPreviewShown s |}.

Definition handleBoardsLoaded (boards : list BoardInfo.t) (s : State) : State :=
  {| currentPackageInfo := currentPackageInfo s;
     currentBoards := boards;
     currentProjects := currentProjects s;
     selectedBoard := selectedBoard s;
     selectedProject := selectedProject s;
     projectNameValue := projectNameValue s;
     locationValue := locationValue s;
     openReadmeChecked := openReadmeChecked s;
     importDisabled := importDisabled s;
     importText := importText s;
     loading := loading s;
     repositoryErrorShown := repositoryErrorShown s;
     toolchainDisabled := toolchainDisabled s;
     boardDisabled := false;
     templateDisabled := templateDisabled s;
     boardPreviewShown := boardPreviewShown s |}.

Definition handleProjectsLoaded (projects : list ProjectInfo.t) (s : State)
  : State :=
  updateImportButton
    {| currentPackageInfo := currentPackageInfo s;
       currentBoards := currentBoards s;
       currentProjects := projects;
       selectedBoard := selectedBoard s;
       selectedProject := selectedProject s;
       projectNameValue := projectNameValue s;
       locationValue := locationValue s;
       openReadmeChecked := openReadmeChecked s;
       importDisabled := importDisabled s;
       importText := importText s;
       loading := loading s;
       repositoryErrorShown := repositoryErrorShown s;
       toolchainDisabled := toolchainDisabled s;
       boardDisabled := boardDisabled s;
       templateDisabled := templateDisabled s;
       boardPreviewShown := boardPreviewShown s |}.

Definition handleImportComplete (success : bool) (message : string) (s : State)
  : State :=
  let s' := setImport false "Import" false s in
  if success then resetForm s' else s'.

Definition setLocation (value : string) (s : State) : State :=
  {| currentPackageInfo := currentPackageInfo s;
     currentBoards := currentBoards s;
     currentProjects := currentProjects s;
     selectedBoard := selectedBoard s;
     selectedProject := selectedProject s;
     projectNameValue := projectNameValue s;
     locationValue := value;
     openReadmeChecked := openReadmeChecked s;
     importDisabled := importDisabled s;
     importText := importText s;
     loading := loading s;
     repositoryErrorShown := repositoryErrorShown s;
     toolchainDisabled := toolchainDisabled s;
     boardDisabled := boardDisabled s;
     templateDisabled := templateDisabled s;
     boardPreviewShown := boardPreviewShown s |}.

Definition setProjectName (value : string) (s : State) : State :=
  {| currentPackageInfo := currentPackageInfo s;
     currentBoards := currentBoards s;
     currentProjects := currentProjects s;
     selectedBoard := selectedBoard s;
     selectedProject := selectedProject s;
     projectNameValue := value;
     locationValue := locationValue s;
     openReadmeChecked := openReadmeChecked s;
     importDisabled := importDisabled s;
     importText := importText s;
     loading := loading s;
     repositoryErrorShown := repositoryErrorShown s;
     toolchainDisabled := toolchainDisabled s;
     boardDisabled := boardDisabled s;
     templateDisabled := templateDisabled s;
     boardPreviewShown := boardPreviewShown s |}.

Definition handleLocationSelected (path : string) (s : State) : State :=
  match path with
  | EmptyString => s
  | _ => updateImportButton (setLocation path s)
  end.

(** The name the template handler proposes for a project: the last
    segment of its path, or of its display name when it has no path. *)
Definition suggestedName (project : ProjectInfo.t) : string :=
  match ProjectInfo.path project with
  | EmptyString => pop (splitOn (Ascii.eqb "/") (ProjectInfo.name project))
  | path => pop (splitOn isSeparator path)
  end.

Definition onTemplateChange (value : string) (s : State) : State :=
  let found :=
    find (fun p => String.eqb (ProjectInfo.name p) value) (currentProjects s) in
  let name :=
    match found with
    | Some project =>
        if String.eqb (projectNameValue s) ""
           || String.eqb (projectNameValue s) (ProjectInfo.name project)
        then match suggestedName project with
             | EmptyString => projectNameValue s
             | suggested => suggested
             end
        else projectNameValue s
    | None => projectNameValue s
    end in
  updateImportButton
    {| currentPackageInfo := currentPackageInfo s;
       currentBoards := currentBoards s;
       currentProjects := currentProjects s;
       selectedBoard := selectedBoard s;
       selectedProject := found;
       projectNameValue := name;
       locationValue := locationValue s;
       openReadmeChecked := openReadmeChecked s;
       importDisabled := importDisabled s;
       importText := importText s;
       loading := loading s;
       repositoryErrorShown := repositoryErrorShown s;
       toolchainDisabled := toolchainDisabled s;
       boardDisabled := boardDisabled s;
       templateDisabled := templateDisabled s;
       boardPreviewShown := boardPreviewShown s |}.

(** The board handler.  With a board found and no package (reading
    [currentPackageInfo.path] throws) the handler stops before it posts
    and before it updates the button. *)
Definition onBoardChange (value : string) (s : State)
  : State * list Panel.Message :=
  let found :=
    find (fun b => String.eqb (BoardInfo.id b) value) (currentBoards s) in
  let withBoard (templateOff previewOn : bool) : State :=
    {| currentPackageInfo := currentPackageInfo s;
       currentBoards := currentBoards s;
       currentProjects := currentProjects s;
       selectedBoard := found;
       selectedProject := selectedProject s;
       projectNameValue := projectNameValue s;
       locationValue := locationValue s;
       openReadmeChecked := openReadmeChecked s;
       importDisabled := importDisabled s;
       importText := importText s;
       loading := loading s;
       repositoryErrorShown := repositoryErrorShown s;
       toolchainDisabled := toolchainDisabled s;
       boardDisabled := boardDisabled s;
       templateDisabled := templateOff;
       boardPreviewShown := previewOn |} in
  match found with
  | Some _ =>
      match currentPackageInfo s with
      | Some packageInfo =>
          (updateImportButton (withBoard false true),
           [Panel.SelectProject (PackageInfo.path packageInfo) value])
      | None => (withBoard false true, [])
      end
  | None => (updateImportButton (withBoard true false), [])
  end.

Definition onRepositoryChange (value : string) (s : State)
  : State * list Panel.Message :=
  let shown (b : bool) : State :=
    {| currentPackageInfo := currentPackageInfo s;
       currentBoards := currentBoards s;
       currentProjects := currentProjects s;
       selectedBoard := selectedBoard s;
       selectedProject := selectedProject s;
       projectNameValue := projectNameValue s;
       locationValue := locationValue s;
       openReadmeChecked := openReadmeChecked s;
       importDisabled := importDisabled s;
       importText := importText s;
       loading := loading s;
       repositoryErrorShown := b;
       toolchainDisabled := toolchainDisabled s;
       boardDisabled := boardDisabled s;
       templateDisabled := templateDisabled s;
       boardPreviewShown := boardPreviewShown s |} in
  match value, currentPackageInfo s with
  | String _ _, Some packageInfo =>
      (shown false, [Panel.SelectBoard (PackageInfo.path packageInfo)])
  | _, _ => (resetBoardSelection (shown true), [])
  end.

(** The import button.  The message also carries [openReadme], which the
    panel does not read. *)
Definition onImportClick (s : State) : State * list Panel.Message :=
  match canImport s,
        currentPackageInfo s, selectedBoard s, selectedProject s with
  | true, Some packageInfo, Some board, Some project =>
      let projectName := Js.trim (projectNameValue s) in
      (setImport true "Importing..." true s,
       [Panel.ImportProject (PackageInfo.path packageInfo) (BoardInfo.id board)
          (ProjectInfo.name project)
          (Some (locationValue s)) (Some projectName)
          (Some (ProjectInfo.path project))])
  | _, _, _, _ => (s, [])
  end.

Definition step (s : State) (e : Event) : State * list Panel.Message :=
  match e with
  | RepositoryChange value => onRepositoryChange value s
  | BoardChange value => onBoardChange value s
  | TemplateChange value => (onTemplateChange value s, [])
  | ProjectNameInput value => (updateImportButton (setProjectName value s), [])
  | LocationInput value => (updateImportButton (setLocation value s), [])
  | SelectPackageClick => (s, [Panel.SelectPackage])
  | BrowseLocationClick => (s, [Panel.BrowseLocation])
  | ImportClick => onImportClick s
  | Received (Panel.PackageSelected packageInfo) =>
      (handlePackageSelected packageInfo s, [])
  | Received (Panel.BoardsLoaded boards) => (handleBoardsLoaded boards s, [])
  | Received (Panel.ProjectsLoaded projects) =>
      (handleProjectsLoaded projects s, [])
  | Received (Panel.ImportComplete success message) =>
      (handleImportComplete success message s, [])
  | Received (Panel.LocationSelected path) => (handleLocationSelected path s, [])
  end.

(** The form as the script leaves it when it has loaded. *)
Definition initial : State :=
  {| currentPackageInfo := None;
     currentBoards := [];
     currentProjects := [];
     selectedBoard := None;
     selectedProject := None;
     projectNameValue := "";
     locationValue := "";
     openReadmeChecked := false;
     importDisabled := true;
     importText := "Import";
     loading := false;
     repositoryErrorShown := false;
     toolchainDisabled := true;
     boardDisabled := true;
     templateDisabled := true;
     boardPreviewShown := false |}.

(** The states and the posted messages along a sequence of events. *)
Fixpoint run (s : State) (events : list Event) : State * list Panel.Message :=
  match events with
  | [] => (s, [])
  | e :: rest =>
      let (s1, posted1) := step s e in
      let (s2, posted2) := run s1 rest in
      (s2, (posted1 ++ posted2)%list)
  end.

End Webview.

(** A form filled in from the sample package [Kit]: the package and its
    board and projects as the panel sends them, the first project
    selected, a location picked. *)
Module KitForm.

Import Webview.

Definition packageInfo : PackageInfo.t :=
  {| PackageInfo.name := "Kit";
     PackageInfo.version := "1.0.0";
     PackageInfo.path := "/kit";
     PackageInfo.description := None |}.

Definition projects : list ProjectInfo.t :=
  match getProjectsForBoard Kit.fs "/kit" "STM32F4-DISCO" with
  | Ok found => found
  | Err _ => []
  end.

Definition events : list Event :=
  [ Received (Panel.PackageSelected packageInfo);
    Received (Panel.BoardsLoaded (getAvailableBoards Kit.fs "/kit"));
    BoardChange "STM32F4-DISCO";
    Received (Panel.ProjectsLoaded projects);
    TemplateChange "Examples/GPIO EXTI";
    Received (Panel.LocationSelected "/work") ].

Definition filled : State := fst (run initial events).

End KitForm.

(* ================================================================== *)
(** * Properties *)

(** ** Characters *)

Section CharFacts.

Lemma between_spec lo hi c :
  Js.between lo hi c = true <-> (lo <= Js.code c <= hi)%nat.
Proof.
  unfold Js.between. rewrite andb_true_iff, !Nat.leb_le. tauto.
Qed.

Lemma lower_not_upper c : Js.isLower c = true -> Js.isUpper c = false.
Proof.
  unfold Js.isLower, Js.isUpper. rewrite between_spec.
  intros H. apply not_true_is_false. rewrite between_spec. lia.
Qed.

Lemma upper_not_lower c : Js.isUpper c = true -> Js.isLower c = false.
Proof.
  intros H. destruct (Js.isLower c) eqn:E; [|reflexivity].
  apply lower_not_upper in E. congruence.
Qed.

End CharFacts.

(** Induction on strings that gives the hypothesis for every shorter string. *)
Lemma string_length_ind (P : string -> Prop) :
  (forall s, (forall t, (String.length t < String.length s)%nat -> P t) -> P s) ->
  forall s, P s.
Proof.
  intros H s.
  assert (G : forall n t, (String.length t < n)%nat -> P t).
  { induction n; intros t Ht; [lia|]. apply H. intros u Hu. apply IHn. lia. }
  apply (G (S (String.length s))). lia.
Qed.

(** ** Global replacement by the expressions of the class *)

Section ReplaceAll.

Lemma replace_class_map p (rep : ascii) prev s :
  RegExp.replaceGo [RegExp.One p] (fun _ => String rep EmptyString) prev 0 s
  = Js.map (fun c => if p c then rep else c) s.
Proof.
  revert prev. induction s as [|c r IH]; intros prev; simpl.
  - reflexivity.
  - destruct (p c); simpl; rewrite IH; reflexivity.
Qed.

Lemma replace_acronym prev s :
  RegExp.replaceGo
    [RegExp.One Js.isUpper; RegExp.One Js.isUpper; RegExp.One Js.isLower]
    group1SpaceGroup2 prev 0 s
  = Applied.splitAcronym s.
Proof.
  revert prev. induction s as [s IH] using string_length_ind. intros prev.
  destruct s as [|a r]; [reflexivity|].
  cbn [RegExp.replaceGo RegExp.matchHere Applied.splitAcronym].
  destruct (Js.isUpper a) eqn:Ua; cbn [andb].
  2:{ f_equal. apply IH. simpl; lia. }
  destruct r as [|b r']; cbn [Applied.startsUpperLower].
  { simpl. reflexivity. }
  destruct (Js.isUpper b) eqn:Ub; cbn [andb option_map].
  2:{ destruct r'; (f_equal; apply IH; simpl; lia). }
  destruct r' as [|c r'']; cbn [option_map].
  { f_equal. apply IH. simpl; lia. }
  destruct (Js.isLower c) eqn:Lc; cbn [option_map].
  - cbn [Js.take group1SpaceGroup2 append RegExp.replaceGo].
    rewrite (IH r'') by (simpl; lia).
    cbn [Applied.splitAcronym Applied.startsUpperLower].
    rewrite (lower_not_upper c Lc), Ub. cbn [andb].
    destruct r''; reflexivity.
  - f_equal. apply IH. simpl; lia.
Qed.

Lemma replace_camel prev s :
  RegExp.replaceGo [RegExp.One Js.isLower; RegExp.One Js.isUpper]
    group1SpaceGroup2 prev 0 s
  = Applied.splitCamel s.
Proof.
  revert prev. induction s as [s IH] using string_length_ind. intros prev.
  destruct s as [|a r]; [reflexivity|].
  cbn [RegExp.replaceGo RegExp.matchHere Applied.splitCamel].
  destruct (Js.isLower a) eqn:La; cbn [andb].
  2:{ f_equal. apply IH. simpl; lia. }
  destruct r as [|b r']; cbn [Applied.startsUpper option_map].
  { reflexivity. }
  destruct (Js.isUpper b) eqn:Ub; cbn [option_map].
  - cbn [Js.take group1SpaceGroup2 append RegExp.replaceGo].
    rewrite (IH r') by (simpl; lia).
    cbn [Applied.splitCamel]. rewrite (upper_not_lower b Ub). reflexivity.
  - f_equal. apply IH. simpl; lia.
Qed.

Lemma replace_capitalize prev s :
  RegExp.replaceGo [RegExp.WordBoundary; RegExp.One Js.isWord]
    Js.toUpperCase prev 0 s
  = Applied.capitalizeWords (isWordBefore prev) s.
Proof.
  revert prev. induction s as [|c r IH]; intros prev.
  { cbn. unfold RegExp.atBoundary.
    destruct prev as [a|]; cbn; [destruct (Js.isWord a)|]; reflexivity. }
  cbn [RegExp.replaceGo RegExp.matchHere Applied.capitalizeWords].
  unfold RegExp.atBoundary. fold (isWordBefore prev).
  destruct (isWordBefore prev), (Js.isWord c) eqn:Wc; cbn [xorb andb negb option_map];
    try rewrite Wc; cbn [option_map]; rewrite ?IH; cbn [isWordBefore];
    rewrite ?Wc; reflexivity.
Qed.

(** The unfoldings of [matchHere] at a quantified class. *)
Lemma matchHere_plus p re prev c r :
  RegExp.matchHere (RegExp.Many p true :: re) prev (String c r)
  = if p c then option_map S (RegExp.matchHere (RegExp.Many p false :: re) (Some c) r)
    else None.
Proof. reflexivity. Qed.

Lemma matchHere_star_cons p re prev c r :
  RegExp.matchHere (RegExp.Many p false :: re) prev (String c r)
  = if p c then
      match RegExp.matchHere (RegExp.Many p false :: re) (Some c) r with
      | Some n => Some (S n)
      | None => RegExp.matchHere re prev (String c r)
      end
    else RegExp.matchHere re prev (String c r).
Proof. reflexivity. Qed.

Lemma matchHere_star_nil p re prev :
  RegExp.matchHere (RegExp.Many p false :: re) prev EmptyString
  = RegExp.matchHere re prev EmptyString.
Proof. reflexivity. Qed.

Lemma matchHere_star_alone p prev s :
  RegExp.matchHere [RegExp.Many p false] prev s = Some (spanLen p s).
Proof.
  revert prev. induction s as [|c r IH]; intros prev; [reflexivity|].
  rewrite matchHere_star_cons, IH. simpl. destruct (p c); reflexivity.
Qed.

Lemma replace_collapse s :
  (forall prev,
     RegExp.replaceGo [RegExp.Many Js.isSpace true] (fun _ => " ") prev 0 s
     = Applied.collapseSpaces false s)
  /\ (forall prev,
        RegExp.replaceGo [RegExp.Many Js.isSpace true] (fun _ => " ") prev
          (spanLen Js.isSpace s) s
        = Applied.collapseSpaces true s).
Proof.
  induction s as [|c r [IH0 IH1]].
  - split; intros prev; reflexivity.
  - assert (H0 : forall prev,
       RegExp.replaceGo [RegExp.Many Js.isSpace true] (fun _ => " ") prev 0
         (String c r) = Applied.collapseSpaces false (String c r)).
    { intros prev. cbn [RegExp.replaceGo Applied.collapseSpaces].
      rewrite matchHere_plus, matchHere_star_alone.
      destruct (Js.isSpace c); cbn [option_map].
      - rewrite IH1. reflexivity.
      - rewrite IH0. reflexivity. }
    split; [exact H0|]. intros prev.
    cbn [spanLen]. destruct (Js.isSpace c) eqn:Sc.
    + cbn [RegExp.replaceGo Applied.collapseSpaces]. rewrite Sc. apply IH1.
    + rewrite H0. cbn [Applied.collapseSpaces]. rewrite Sc. reflexivity.
Qed.

End ReplaceAll.

Lemma replaceFirst_absent s pat rep :
  Js.includes s pat = false -> Js.replaceFirst s pat rep = s.
Proof.
  induction s as [|c r IH]; cbn [Js.includes Js.replaceFirst]; intros H;
    apply orb_false_iff in H; destruct H as [H1 H2]; rewrite H1.
  - reflexivity.
  - rewrite IH by assumption. reflexivity.
Qed.

Lemma guarded_replace s pat rep :
  (if Js.includes s pat then Js.replaceFirst s pat rep else s)
  = Applied.substitute pat rep s.
Proof.
  unfold Applied.substitute. destruct (Js.includes s pat) eqn:E; [reflexivity|].
  symmetry. apply replaceFirst_absent. assumption.
Qed.

(** [formatBoardName] as the composition of its steps. *)
Lemma formatBoardName_applied name :
  formatBoardName name = Applied.displayName name.
Proof.
  unfold formatBoardName, Applied.displayName, RegExp.replaceAll.
  rewrite !guarded_replace.
  change (fun _ : string => " ") with (fun _ : string => String " "%char EmptyString) at 2.
  rewrite (replace_class_map dashOrUnderscore " " None).
  rewrite replace_acronym, replace_camel, replace_capitalize.
  rewrite (proj1 (replace_collapse _) None).
  reflexivity.
Qed.

(** ** The name formatting rule *)

Section DisplayRule.

Lemma isCapital_isUpper c : Rule.isCapital c = Js.isUpper c.
Proof. destruct c as [[] [] [] [] [] [] [] []]; reflexivity. Qed.

Lemma isSmall_isLower c : Rule.isSmall c = Js.isLower c.
Proof. destruct c as [[] [] [] [] [] [] [] []]; reflexivity. Qed.

Lemma isWordCharacter_isWord c : Rule.isWordCharacter c = Js.isWord c.
Proof. destruct c as [[] [] [] [] [] [] [] []]; reflexivity. Qed.

Lemma isBlank_isSpace c : Rule.isBlank c = Js.isSpace c.
Proof. destruct c as [[] [] [] [] [] [] [] []]; reflexivity. Qed.

Lemma capital_upperChar c : Rule.capital c = Js.upperChar c.
Proof. destruct c as [[] [] [] [] [] [] [] []]; reflexivity. Qed.

Lemma separatorsToSpaces_map s :
  Rule.separatorsToSpaces s = Rule.hyphensToSpaces s.
Proof.
  induction s as [|c r IH]; [reflexivity|].
  cbn [Rule.separatorsToSpaces]. rewrite IH. reflexivity.
Qed.

Lemma spaceAfterAcronym_split s :
  Rule.spaceAfterAcronym s = Applied.splitAcronym s.
Proof.
  induction s as [|a r IH]; [reflexivity|].
  cbn [Rule.spaceAfterAcronym Applied.splitAcronym]. rewrite IH, isCapital_isUpper.
  replace (Rule.startsCapitalSmall r) with (Applied.startsUpperLower r);
    [reflexivity|].
  destruct r as [|b [|c r']]; try reflexivity.
  cbn [Rule.startsCapitalSmall Applied.startsUpperLower].
  rewrite isCapital_isUpper, isSmall_isLower. reflexivity.
Qed.

Lemma spaceInCamelCase_split s :
  Rule.spaceInCamelCase s = Applied.splitCamel s.
Proof.
  induction s as [|a r IH]; [reflexivity|].
  cbn [Rule.spaceInCamelCase Applied.splitCamel]. rewrite IH, isSmall_isLower.
  replace (Rule.startsCapital r) with (Applied.startsUpper r); [reflexivity|].
  destruct r as [|b r']; [reflexivity|].
  cbn [Rule.startsCapital Applied.startsUpper]. rewrite isCapital_isUpper.
  reflexivity.
Qed.

Lemma capitalizeInitials_words inWord s :
  Rule.capitalizeInitials inWord s = Applied.capitalizeWords inWord s.
Proof.
  revert inWord. induction s as [|c r IH]; intros inWord; [reflexivity|].
  cbn [Rule.capitalizeInitials Applied.capitalizeWords].
  rewrite IH, isWordCharacter_isWord, capital_upperChar. reflexivity.
Qed.

Lemma squeezeBlanks_collapse inRun s :
  Rule.squeezeBlanks inRun s = Applied.collapseSpaces inRun s.
Proof.
  revert inRun. induction s as [|c r IH]; intros inRun; [reflexivity|].
  cbn [Rule.squeezeBlanks Applied.collapseSpaces].
  rewrite !IH, isBlank_isSpace. reflexivity.
Qed.

Lemma dropLeadingBlanks_trimStart s : Rule.dropLeadingBlanks s = Js.trimStart s.
Proof.
  induction s as [|c r IH]; [reflexivity|].
  cbn [Rule.dropLeadingBlanks Js.trimStart]. rewrite IH, isBlank_isSpace.
  reflexivity.
Qed.

Lemma allBlank_trimEnd s :
  Rule.allBlank s = true <-> Js.trimEnd s = EmptyString.
Proof.
  induction s as [|c r IH]; [cbn; tauto|].
  cbn [Rule.allBlank Js.trimEnd]. rewrite andb_true_iff, IH, isBlank_isSpace.
  destruct (Js.trimEnd r) as [|d t].
  - destruct (Js.isSpace c); split; try tauto; try discriminate.
    intros [H _]. discriminate H.
  - split; [intros [_ H]; discriminate H|discriminate].
Qed.

Lemma dropTrailingBlanks_trimEnd s : Rule.dropTrailingBlanks s = Js.trimEnd s.
Proof.
  induction s as [|c r IH]; [reflexivity|].
  cbn [Rule.dropTrailingBlanks Rule.allBlank Js.trimEnd].
  rewrite IH, isBlank_isSpace.
  destruct (Rule.allBlank r) eqn:A.
  - apply allBlank_trimEnd in A. rewrite A.
    destruct (Js.isSpace c); reflexivity.
  - rewrite andb_false_r.
    destruct (Js.trimEnd r) as [|d t] eqn:T; [|reflexivity].
    apply allBlank_trimEnd in T. congruence.
Qed.

Lemma trimBlanks_trim s : Rule.trimBlanks s = Js.trim s.
Proof.
  unfold Rule.trimBlanks, Js.trim.
  rewrite dropTrailingBlanks_trimEnd, dropLeadingBlanks_trimStart. reflexivity.
Qed.

Lemma hasPrefix_startsWith pat s : Rule.hasPrefix pat s = Js.startsWith s pat.
Proof.
  revert s. induction pat as [|p pat IH]; intros s; [destruct s; reflexivity|].
  destruct s as [|c s]; [reflexivity|].
  cbn [Rule.hasPrefix Js.startsWith]. rewrite IH, Ascii.eqb_sym. reflexivity.
Qed.

Lemma afterPrefix_drop pat s :
  Rule.afterPrefix pat s = Js.drop (String.length pat) s.
Proof.
  revert s. induction pat as [|p pat IH]; intros s; [destruct s; reflexivity|].
  destruct s as [|c s]; [reflexivity|].
  cbn [Rule.afterPrefix String.length Js.drop]. apply IH.
Qed.

Lemma substitute_replaceFirst pat rep s :
  Rule.substitute pat rep s = Applied.substitute pat rep s.
Proof.
  unfold Applied.substitute.
  induction s as [|c r IH]; cbn [Rule.substitute Js.replaceFirst];
    rewrite hasPrefix_startsWith, afterPrefix_drop.
  - reflexivity.
  - rewrite IH. reflexivity.
Qed.

Lemma displayName_applied name :
  Rule.displayName name = Applied.displayName name.
Proof.
  unfold Rule.displayName, Applied.displayName.
  rewrite !substitute_replaceFirst, trimBlanks_trim, squeezeBlanks_collapse,
    capitalizeInitials_words, spaceInCamelCase_split, spaceAfterAcronym_split,
    separatorsToSpaces_map.
  reflexivity.
Qed.

End DisplayRule.

(** C8.  For every raw board directory name, [formatBoardName] produces
    exactly the name formatting rule: hyphens and underscores become
    spaces, a space is inserted before an uppercase-then-lowercase pair
    that follows an uppercase letter and between a lowercase letter and
    the uppercase letter after it, the first character of every word is
    capitalized, runs of white space collapse to one space, the result
    is trimmed, and then NUCLEO becomes NUCLEO-, DISCO becomes DISCOVERY
    and EVAL becomes EVALUATION.  NUCLEO-U575ZI-Q formats to
    "NUCLEO- U575ZI Q"; the other names show every step at work. *)
Theorem formatBoardName_follows_rule :
  (forall name, formatBoardName name = Rule.displayName name)
  /\ formatBoardName "NUCLEO-U575ZI-Q" = "NUCLEO- U575ZI Q"
  /\ formatBoardName "B-U585I-IOT02A" = "B U585I IOT02A"
  /\ formatBoardName "  stm32f4_disco  kit " = "Stm32f4 Disco Kit"
  /\ formatBoardName (String "009" "demo" ++ String "010" "board" ++ String "013" "")
     = "Demo Board"
  /\ formatBoardName "usbHIDDevice" = "Usb HID Device"
  /\ formatBoardName "nucleo-f4" = "Nucleo F4"
  /\ formatBoardName "STM32F4-DISCO" = "STM32F4 DISCOVERY"
  /\ formatBoardName "STM32F769I-DISCOVERY" = "STM32F769I DISCOVERYVERY"
  /\ formatBoardName "STM32H7-EVAL" = "STM32H7 EVALUATION"
  /\ formatBoardName "NUCLEO_EVAL-DISCO" = "NUCLEO- EVALUATION DISCOVERY".
Proof.
  split; [|repeat split; reflexivity].
  intros name. rewrite displayName_applied. apply formatBoardName_applied.
Qed.


(** ** String methods *)

Section StringFacts.

Lemma map_append f a b : Js.map f (a ++ b) = Js.map f a ++ Js.map f b.
Proof. induction a as [|c a IH]; simpl; [|rewrite IH]; reflexivity. Qed.

Lemma append_assoc (a b c : string) : (a ++ b) ++ c = a ++ (b ++ c).
Proof. induction a as [|x a IH]; simpl; [|rewrite IH]; reflexivity. Qed.

Lemma startsWith_iff s t :
  Js.startsWith s t = true <-> exists r, s = t ++ r.
Proof.
  revert s. induction t as [|b t IH]; intros s.
  - destruct s; simpl; split; eauto.
  - destruct s as [|a s]; simpl.
    + split; [discriminate|]. intros [r H]. discriminate.
    + rewrite andb_true_iff, Ascii.eqb_eq, IH. split.
      * intros [-> [r ->]]. eauto.
      * intros [r H]. injection H as -> ->. eauto.
Qed.

Lemma includes_iff s t :
  Js.includes s t = true <-> exists a b, s = a ++ t ++ b.
Proof.
  induction s as [|c s IH]; cbn [Js.includes]; rewrite orb_true_iff, startsWith_iff.
  - split.
    + intros [[r H]|H]; [|discriminate]. exists EmptyString, r. exact H.
    + intros [a [b H]]. destruct a; [|discriminate]. left. eauto.
  - rewrite IH. split.
    + intros [[r H]|[a [b H]]].
      * exists EmptyString, r. exact H.
      * exists (String c a), b. simpl. rewrite H. reflexivity.
    + intros [a [b H]]. destruct a as [|x a].
      * left. eauto.
      * right. simpl in H. injection H as _ H. eauto.
Qed.

Lemma endsWith_iff s t :
  Js.endsWith s t = true <-> exists a, s = a ++ t.
Proof.
  induction s as [|c s IH]; cbn [Js.endsWith]; rewrite orb_true_iff, String.eqb_eq.
  - split.
    + intros [H|H]; [|discriminate]. exists EmptyString. exact H.
    + intros [a H]. destruct a; [|discriminate]. left. exact H.
  - rewrite IH. split.
    + intros [H|[a H]].
      * exists EmptyString. exact H.
      * exists (String c a). simpl. rewrite H. reflexivity.
    + intros [a H]. destruct a as [|x a].
      * left. exact H.
      * right. simpl in H. injection H as _ H. eauto.
Qed.

Lemma endsWith_includes s t : Js.endsWith s t = true -> Js.includes s t = true.
Proof.
  rewrite endsWith_iff, includes_iff. intros [a ->].
  exists a, EmptyString. f_equal.
  clear. induction t as [|c t IH]; simpl; [|rewrite <- IH]; reflexivity.
Qed.

Lemma includes_map f s t :
  Js.includes s t = true -> Js.includes (Js.map f s) (Js.map f t) = true.
Proof.
  rewrite !includes_iff. intros [a [b ->]].
  exists (Js.map f a), (Js.map f b). rewrite !map_append. reflexivity.
Qed.

Lemma includes_trans s t u :
  Js.includes s t = true -> Js.includes t u = true -> Js.includes s u = true.
Proof.
  rewrite !includes_iff. intros [a [b ->]] [c [d ->]].
  exists (a ++ c), (d ++ b). rewrite !append_assoc. reflexivity.
Qed.

(** The probe of [hasProjectFiles] for one entry and one indicator is the
    case-insensitive substring match. *)
Lemma indicatorMatches_noCase file indicator :
  indicatorMatches file indicator = Rule.containsNoCase file indicator.
Proof.
  unfold indicatorMatches, Rule.containsNoCase, Js.toLowerCase.
  destruct (Js.includes file indicator) eqn:E1.
  { symmetry. apply includes_map. assumption. }
  destruct (Js.endsWith file indicator) eqn:E2.
  { apply endsWith_includes in E2. congruence. }
  reflexivity.
Qed.

Lemma lowerChar_slash c : Js.lowerChar c = "/"%char -> c = "/"%char.
Proof.
  unfold Js.lowerChar. destruct (Js.isUpper c) eqn:U; [|tauto].
  apply between_spec in U. intros H.
  apply (f_equal nat_of_ascii) in H. rewrite nat_ascii_embedding in H.
  - change (nat_of_ascii "/") with 47%nat in H. lia.
  - lia.
Qed.

Lemma includes_slash_lower s :
  Js.includes (Js.toLowerCase s) "/" = true -> Js.includes s "/" = true.
Proof.
  induction s as [|c s IH]; [discriminate|].
  cbn. rewrite !orb_true_iff, !andb_true_iff, !Ascii.eqb_eq.
  intros [[H _]|H].
  - left. split; [apply lowerChar_slash; assumption|reflexivity].
  - right. apply IH. exact H.
Qed.

(** An indicator that holds a slash matches no name without slash. *)
Lemma slash_indicator_no_match file indicator :
  Js.includes file "/" = false ->
  Js.includes (Js.toLowerCase indicator) "/" = true ->
  indicatorMatches file indicator = false.
Proof.
  intros Hf Hi. rewrite indicatorMatches_noCase.
  apply not_true_is_false. intros H. unfold Rule.containsNoCase in H.
  pose proof (includes_trans _ _ _ H Hi) as H'.
  apply includes_slash_lower in H'. congruence.
Qed.

End StringFacts.

(** ** Board enumeration *)

Section BoardEnumeration.

Variable fs : FileSystem.

Lemma hasProjectFiles_iff dir :
  hasProjectFiles fs dir = true <-> Rule.projectLike fs dir.
Proof.
  unfold hasProjectFiles, Rule.projectLike.
  destruct (readdirNames fs dir) as [files|e]; cbn [bind orOnError].
  - rewrite existsb_exists. split.
    + intros [file [Hin H]]. apply existsb_exists in H.
      destruct H as [indicator [Hind H]].
      rewrite indicatorMatches_noCase in H. eauto 8.
    + intros [files' [Heq [file [indicator [Hin [Hind H]]]]]].
      injection Heq as <-. exists file. split; [assumption|].
      apply existsb_exists. exists indicator.
      rewrite indicatorMatches_noCase. auto.
  - split; [discriminate|]. intros [files [H _]]. discriminate.
Qed.

Lemma hasProjectsInCategoryLoop_iff categoryPath dirs :
  hasProjectsInCategoryLoop fs categoryPath dirs = true <->
  exists d, In d dirs /\
            hasProjectFiles fs (path.join [categoryPath; Dirent.name d]) = true.
Proof.
  induction dirs as [|d dirs IH]; cbn [hasProjectsInCategoryLoop].
  - split; [discriminate|]. intros [d [[] _]].
  - destruct (hasProjectFiles fs (path.join [categoryPath; Dirent.name d])) eqn:E.
    + split; [|reflexivity]. intros _. exists d. split; [left; reflexivity|assumption].
    + rewrite IH. split.
      * intros [d' [Hin H]]. exists d'. split; [right; assumption|assumption].
      * intros [d' [[<-|Hin] H]]; [congruence|eauto].
Qed.

Lemma length_zero_nil {A} (l : list A) : (List.length l =? 0)%nat = true -> l = [].
Proof. destruct l; [reflexivity|discriminate]. Qed.

Lemma hasProjectsInCategory_iff categoryPath :
  hasProjectsInCategory fs categoryPath = true <->
  exists subentries sub,
    readdir fs categoryPath = Ok subentries /\
    In sub (firstn 3 (filter Dirent.isDirectory subentries)) /\
    Rule.projectLike fs (path.join [categoryPath; Dirent.name sub]).
Proof.
  unfold hasProjectsInCategory.
  destruct (readdir fs categoryPath) as [subentries|e]; cbn [bind orOnError].
  - destruct (List.length (filter Dirent.isDirectory subentries) =? 0)%nat eqn:E;
      cbn [orOnError].
    + apply length_zero_nil in E. split; [discriminate|].
      intros [se [sub [Heq [Hin _]]]]. injection Heq as <-.
      rewrite E in Hin. destruct Hin.
    + rewrite hasProjectsInCategoryLoop_iff. split.
      * intros [d [Hin H]]. apply hasProjectFiles_iff in H. eauto 6.
      * intros [se [sub [Heq [Hin H]]]]. injection Heq as <-.
        apply hasProjectFiles_iff in H. eauto.
  - split; [discriminate|]. intros [se [sub [H _]]]. discriminate.
Qed.

Lemma hasProjectsInDirectoryLoop_iff boardDir dirs :
  hasProjectsInDirectoryLoop fs boardDir dirs = true <->
  exists d, In d dirs /\
            hasProjectsInCategory fs (path.join [boardDir; Dirent.name d]) = true.
Proof.
  induction dirs as [|d dirs IH]; cbn [hasProjectsInDirectoryLoop].
  - split; [discriminate|]. intros [d [[] _]].
  - destruct (hasProjectsInCategory fs (path.join [boardDir; Dirent.name d])) eqn:E.
    + split; [|reflexivity]. intros _. exists d. split; [left; reflexivity|assumption].
    + rewrite IH. split.
      * intros [d' [Hin H]]. exists d'. split; [right; assumption|assumption].
      * intros [d' [[<-|Hin] H]]; [congruence|eauto].
Qed.

Lemma hasProjectsInDirectory_iff boardDir :
  hasProjectsInDirectory fs boardDir = true <->
  Rule.recognizedCategoryCheck fs boardDir.
Proof.
  unfold hasProjectsInDirectory, Rule.recognizedCategoryCheck.
  fold Rule.isCategoryDir.
  change (fun entry : Dirent.t =>
            Dirent.isDirectory entry
            && Js.arrayIncludes categoryNames (Dirent.name entry))
    with Rule.isCategoryDir.
  destruct (readdir fs boardDir) as [entries|e]; cbn [bind orOnError].
  - destruct (List.length (filter Rule.isCategoryDir entries) =? 0)%nat eqn:E;
      cbn [orOnError].
    + apply length_zero_nil in E. split; [discriminate|].
      intros [en [category [Heq [Hin _]]]]. injection Heq as <-.
      rewrite E in Hin. destruct Hin.
    + rewrite hasProjectsInDirectoryLoop_iff. split.
      * intros [d [Hin H]]. apply hasProjectsInCategory_iff in H.
        exists entries, d. auto.
      * intros [en [category [Heq [Hin H]]]]. injection Heq as <-.
        cbv zeta in H. apply hasProjectsInCategory_iff in H. eauto.
  - split; [discriminate|]. intros [en [category [H _]]]. discriminate.
Qed.

Lemma analyzeBoardDirectory_Some boardDir boardName b :
  analyzeBoardDirectory fs boardDir boardName = Some b ->
  hasProjectsInDirectory fs boardDir = true /\ BoardInfo.id b = boardName.
Proof.
  unfold analyzeBoardDirectory.
  destruct (hasProjectsInDirectory fs boardDir); cbn [negb]; [|discriminate].
  intros H. injection H as <-. auto.
Qed.

Lemma analyzeBoardDirectory_qualifies boardDir boardName :
  (exists b, analyzeBoardDirectory fs boardDir boardName = Some b) <->
  hasProjectsInDirectory fs boardDir = true.
Proof.
  split.
  - intros [b H]. apply analyzeBoardDirectory_Some in H. tauto.
  - intros H. unfold analyzeBoardDirectory. rewrite H. cbn [negb]. eauto.
Qed.

Lemma scanForBoardsLoop_ids boardPath entries id :
  In id (List.map BoardInfo.id (scanForBoardsLoop fs boardPath entries)) <->
  exists entry,
    In entry entries /\ Dirent.isDirectory entry = true /\
    Dirent.name entry = id /\
    hasProjectsInDirectory fs (path.join [boardPath; id]) = true.
Proof.
  induction entries as [|e entries IH]; cbn [scanForBoardsLoop].
  - cbn. split; [tauto|]. intros [entry [[] _]].
  - destruct (Dirent.isDirectory e) eqn:D.
    + destruct (analyzeBoardDirectory fs (path.join [boardPath; Dirent.name e])
                  (Dirent.name e)) as [b|] eqn:A.
      * apply analyzeBoardDirectory_Some in A. destruct A as [A1 A2].
        cbn [List.map In]. rewrite IH. split.
        -- intros [H|[entry [Hin H]]].
           ++ exists e. rewrite <- H, A2. auto with datatypes.
           ++ exists entry. split; [right; assumption|assumption].
        -- intros [entry [[<-|Hin] H]].
           ++ left. rewrite A2. tauto.
           ++ right. eauto.
      * rewrite IH. split.
        -- intros [entry [Hin H]]. exists entry. split; [right; assumption|assumption].
        -- intros [entry [[<-|Hin] [H1 [H2 H3]]]]; [|eauto].
           subst id.
           apply (proj2 (analyzeBoardDirectory_qualifies _ (Dirent.name e))) in H3.
           destruct H3 as [b Hb]. congruence.
    + rewrite IH. split.
      * intros [entry [Hin H]]. exists entry. split; [right; assumption|assumption].
      * intros [entry [[<-|Hin] [H1 H]]]; [congruence|eauto].
Qed.

Lemma scanForBoards_ids boardPath id :
  In id (List.map BoardInfo.id (scanForBoards fs boardPath)) <->
  exists entries entry,
    readdir fs boardPath = Ok entries /\
    In entry entries /\ Dirent.isDirectory entry = true /\
    Dirent.name entry = id /\
    hasProjectsInDirectory fs (path.join [boardPath; id]) = true.
Proof.
  unfold scanForBoards.
  destruct (readdir fs boardPath) as [entries|e]; cbn [bind orOnError].
  - rewrite scanForBoardsLoop_ids. split.
    + intros [entry H]. exists entries, entry. tauto.
    + intros [en [entry [Heq H]]]. injection Heq as <-. eauto.
  - cbn. split; [tauto|]. intros [en [entry [H _]]]. discriminate.
Qed.

End BoardEnumeration.

Section Deduplication.

Lemma filterIndexed_In {A} (p : A -> nat -> bool) k l x :
  In x (filterIndexed p k l) <->
  exists i, nth_error l i = Some x /\ p x (k + i)%nat = true.
Proof.
  revert k. induction l as [|y l IH]; intros k; cbn [filterIndexed].
  - split; [intros []|]. intros [i [H _]]. destruct i; discriminate.
  - assert (G : (exists i, nth_error l i = Some x /\ p x (S k + i)%nat = true) <->
                (exists i, nth_error (y :: l) (S i) = Some x
                           /\ p x (k + S i)%nat = true)).
    { split; intros [i [H1 H2]]; exists i; (split; [exact H1|]);
        replace (k + S i)%nat with (S k + i)%nat in * by lia; assumption. }
    destruct (p y k) eqn:E; cbn [In]; rewrite IH, G.
    + split.
      * intros [->|[i H]]; [exists 0%nat|eauto].
        rewrite Nat.add_0_r. auto.
      * intros [[|i] [H1 H2]]; [left|right; eauto].
        cbn in H1. congruence.
    + split.
      * intros [i H]. eauto.
      * intros [[|i] [H1 H2]]; [|eauto].
        cbn in H1. injection H1 as ->. rewrite Nat.add_0_r in H2. congruence.
Qed.

Lemma findIndex_first {A} (q : A -> bool) l x :
  In x l -> q x = true ->
  exists i y, findIndex q l = Some i /\ nth_error l i = Some y /\ q y = true.
Proof.
  induction l as [|z l IH]; intros Hin Hq; [destruct Hin|].
  cbn [findIndex]. destruct (q z) eqn:E.
  - exists 0%nat, z. auto.
  - destruct Hin as [->|Hin]; [congruence|].
    destruct (IH Hin Hq) as [i [y [H1 [H2 H3]]]].
    exists (S i), y. rewrite H1. auto.
Qed.

(** Removing the duplicates keeps the first board of every id. *)
Lemma uniqueBoards_ids boards id :
  In id (List.map BoardInfo.id (uniqueBoards boards)) <->
  In id (List.map BoardInfo.id boards).
Proof.
  rewrite !in_map_iff. unfold uniqueBoards. split.
  - intros [b [Hid Hin]]. apply filterIndexed_In in Hin.
    destruct Hin as [i [Hn _]]. apply nth_error_In in Hn. eauto.
  - intros [b [Hid Hin]].
    destruct (findIndex_first (fun b' => String.eqb (BoardInfo.id b') id) boards b Hin)
      as [i [y [H1 [H2 H3]]]].
    { rewrite Hid. apply String.eqb_refl. }
    apply String.eqb_eq in H3. exists y. split; [assumption|].
    apply filterIndexed_In. exists i. split; [assumption|].
    rewrite H3, H1. cbn. apply Nat.eqb_refl.
Qed.

End Deduplication.

Section AvailableBoards.

Variable fs : FileSystem.

Lemma scanFallbackPaths_ids roots id :
  In id (List.map BoardInfo.id (scanFallbackPaths fs roots)) <->
  exists root, In root (filter (pathExists fs) roots) /\
               In id (List.map BoardInfo.id (scanForBoards fs root)).
Proof.
  induction roots as [|r roots IH]; cbn [scanFallbackPaths filter].
  - cbn. split; [tauto|]. intros [root [[] _]].
  - destruct (pathExists fs r).
    + rewrite map_app, in_app_iff, IH. cbn [In]. split.
      * intros [H|[root [H1 H2]]]; eauto.
      * intros [root [[<-|H1] H2]]; eauto.
    + exact IH.
Qed.

Lemma getAvailableBoards_ids packagePath id :
  In id (List.map BoardInfo.id (getAvailableBoards fs packagePath)) <->
  Rule.boardCandidate fs packagePath id.
Proof.
  unfold getAvailableBoards, Rule.boardCandidate, Rule.boardRoots.
  cbv zeta. rewrite uniqueBoards_ids.
  destruct (pathExists fs (path.join [packagePath; "Projects"])).
  - rewrite scanForBoards_ids. split.
    + intros [entries [entry [H1 [H2 [H3 [H4 H5]]]]]].
      apply hasProjectsInDirectory_iff in H5.
      exists (path.join [packagePath; "Projects"]), entries, entry.
      cbn [In]. auto 8.
    + intros [root [entries [entry [[<-|[]] [H1 [H2 [H3 [H4 H5]]]]]]]].
      apply hasProjectsInDirectory_iff in H5. eauto 8.
  - rewrite scanFallbackPaths_ids. split.
    + intros [root [Hr H]]. apply scanForBoards_ids in H.
      destruct H as [entries [entry [H1 [H2 [H3 [H4 H5]]]]]].
      apply hasProjectsInDirectory_iff in H5. eauto 10.
    + intros [root [entries [entry [Hr [H1 [H2 [H3 [H4 H5]]]]]]]].
      exists root. split; [assumption|]. apply scanForBoards_ids.
      apply hasProjectsInDirectory_iff in H5. eauto 8.
Qed.

End AvailableBoards.

(** C6.  A candidate directory qualifies as a board of
    [getAvailableBoards] if and only if the recognized-category check
    passes: one of the first two of its immediate subdirectories named
    exactly Examples, Applications, Demonstrations or Templates holds,
    among its first three subdirectories, a project-like directory.  A
    candidate that fails is left out of the list, without error.  On the
    sample candidates the boards are those with a project in one of the
    four folders, found within the bounds. *)
Theorem board_qualification (fs : FileSystem) (packagePath : string) :
  (forall boardDir boardName,
      (exists b, analyzeBoardDirectory fs boardDir boardName = Some b) <->
      Rule.recognizedCategoryCheck fs boardDir)
  /\ (forall id,
        In id (List.map BoardInfo.id (getAvailableBoards fs packagePath)) <->
        Rule.boardCandidate fs packagePath id)
  /\ List.map BoardInfo.id (getAvailableBoards Sample.boardsFs "/boards")
     = [ "A-Examples"; "B-Applications"; "C-Demonstrations"; "D-Templates";
         "I-third-project"; "K-second-folder" ].
Proof.
  split; [|split].
  - intros boardDir boardName.
    rewrite analyzeBoardDirectory_qualifies. apply hasProjectsInDirectory_iff.
  - apply getAvailableBoards_ids.
  - reflexivity.
Qed.

Lemma In_firstn_filter {A} (p : A -> bool) n l x :
  In x (firstn n (filter p l)) -> In x l /\ p x = true.
Proof.
  intros H. apply filter_In.
  rewrite <- (firstn_skipn n (filter p l)). apply in_or_app. left. exact H.
Qed.


Section DirectoryIndicators.

Variable fs : FileSystem.

Lemma directory_indicator_no_match file indicator :
  Js.includes file "/" = false ->
  In indicator directoryIndicators ->
  indicatorMatches file indicator = false.
Proof.
  intros Hf Hi. apply slash_indicator_no_match; [assumption|].
  cbn in Hi. destruct Hi as [<-|[<-|[<-|[]]]]; reflexivity.
Qed.

Lemma hasProjectFiles_source_folders dir :
  (forall files, readdirNames fs dir = Ok files ->
                 Forall (fun f => In f sourceFolderNames) files) ->
  hasProjectFiles fs dir = false.
Proof.
  intros H. unfold hasProjectFiles.
  destruct (readdirNames fs dir) as [files|e]; cbn [bind orOnError]; [|reflexivity].
  specialize (H files eq_refl).
  induction H as [|f files Hf _ IH]; [reflexivity|].
  cbn [existsb]. rewrite IH, orb_false_r.
  cbn in Hf. destruct Hf as [<-|[<-|[<-|[]]]]; reflexivity.
Qed.

End DirectoryIndicators.

(** The bound of the check is real: the only project of [BoardW] is the
    fourth subdirectory of its category folder, and the board is left
    out. *)
Example fourth_subdirectory_is_not_inspected :
  hasProjectFiles Sample.wideFs "/wide/Projects/BoardW/Examples/D" = true
  /\ getAvailableBoards Sample.wideFs "/wide" = [].
Proof. split; reflexivity. Qed.

(** C10.  The project-file probe never matches the directory indicators
    Inc/, Src/ and Core/ on a name without slash.  So when every
    directory the recognized-category check can look into (a subdirectory
    of a category folder of the board) has only entries named Inc, Src or
    Core, [hasProjectFiles] finds no project files in any of them and the
    board directory does not qualify. *)
Theorem directory_indicators_never_match
    (fs : FileSystem) (boardDir boardName : string) :
  (forall entries category subentries project files,
      readdir fs boardDir = Ok entries ->
      In category entries -> Rule.isCategoryDir category = true ->
      readdir fs (path.join [boardDir; Dirent.name category]) = Ok subentries ->
      In project subentries -> Dirent.isDirectory project = true ->
      readdirNames fs
        (path.join [path.join [boardDir; Dirent.name category];
                    Dirent.name project]) = Ok files ->
      Forall (fun f => In f sourceFolderNames) files) ->
  (forall file indicator,
      Js.includes file "/" = false -> In indicator directoryIndicators ->
      indicatorMatches file indicator = false)
  /\ (forall entries category subentries project,
        readdir fs boardDir = Ok entries ->
        In category entries -> Rule.isCategoryDir category = true ->
        readdir fs (path.join [boardDir; Dirent.name category]) = Ok subentries ->
        In project subentries -> Dirent.isDirectory project = true ->
        hasProjectFiles fs
          (path.join [path.join [boardDir; Dirent.name category];
                      Dirent.name project]) = false)
  /\ hasProjectsInDirectory fs boardDir = false
  /\ analyzeBoardDirectory fs boardDir boardName = None.
Proof.
  intros H.
  assert (P : forall entries category subentries project,
             readdir fs boardDir = Ok entries ->
             In category entries -> Rule.isCategoryDir category = true ->
             readdir fs (path.join [boardDir; Dirent.name category]) = Ok subentries ->
             In project subentries -> Dirent.isDirectory project = true ->
             hasProjectFiles fs
               (path.join [path.join [boardDir; Dirent.name category];
                           Dirent.name project]) = false).
  { intros entries category subentries project H1 H2 H3 H4 H5 H6.
    apply hasProjectFiles_source_folders. intros files. eapply H; eassumption. }
  assert (D : hasProjectsInDirectory fs boardDir = false).
  { apply not_true_is_false. intros T. apply hasProjectsInDirectory_iff in T.
    destruct T as [entries [category [H1 [H2 T]]]]. cbv zeta in T.
    destruct T as [subentries [sub [H3 [H4 T]]]].
    apply hasProjectFiles_iff in T.
    apply In_firstn_filter in H2. apply In_firstn_filter in H4.
    rewrite (P entries category subentries sub) in T; [discriminate|tauto..]. }
  split; [|split; [|split]].
  - apply directory_indicator_no_match.
  - exact P.
  - exact D.
  - unfold analyzeBoardDirectory. rewrite D. reflexivity.
Qed.

Lemma directory_indicators_never_match_witness :
  hasProjectsInDirectory Sample.stm32Fs "/pkg/Projects/B-U585I-IOT02A" = false
  /\ analyzeBoardDirectory Sample.stm32Fs "/pkg/Projects/B-U585I-IOT02A" "B-U585I-IOT02A"
     = None.
Proof.
  apply (directory_indicators_never_match Sample.stm32Fs
           "/pkg/Projects/B-U585I-IOT02A" "B-U585I-IOT02A").
  intros entries category subentries project files H1 H2 _ H3 H4 _ H5.
  vm_compute in H1. injection H1 as <-.
  destruct H2 as [<-|[]].
  vm_compute in H3. injection H3 as <-.
  destruct H4 as [<-|[]].
  vm_compute in H5. injection H5 as <-.
  repeat constructor; cbn; tauto.
Defined.

(** ** Unanchored matching *)

Section Matching.

Lemma existsSuffix_ext q q' s :
  (forall t, q t = q' t) -> existsSuffix q s = existsSuffix q' s.
Proof.
  intros H. induction s as [|c r IH]; cbn [existsSuffix];
    rewrite H; [|rewrite IH]; reflexivity.
Qed.

Lemma isSome_option_map {A B} (f : A -> B) o : isSome (option_map f o) = isSome o.
Proof. destruct o; reflexivity. Qed.

Lemma matchHere_one p re prev s :
  isSome (RegExp.matchHere (RegExp.One p :: re) prev s)
  = match s with
    | String c r => p c && isSome (RegExp.matchHere re (Some c) r)
    | EmptyString => false
    end.
Proof.
  destruct s as [|c r]; [reflexivity|]. cbn [RegExp.matchHere].
  destruct (p c); [apply isSome_option_map|reflexivity].
Qed.

(** A sequence of classes before an expression that always matches. *)
Lemma matchHere_ones ps re prev s :
  (forall prev' t, isSome (RegExp.matchHere re prev' t) = true) ->
  isSome (RegExp.matchHere (ones ps ++ re)%list prev s) = startsWithClasses ps s.
Proof.
  intros Hre. revert prev s.
  induction ps as [|p ps IH]; intros prev s; cbn [ones List.map app startsWithClasses].
  - apply Hre.
  - rewrite matchHere_one. destruct s as [|c r]; [reflexivity|].
    fold (ones ps). rewrite IH. reflexivity.
Qed.

(** [re.test] when the match at a position does not look behind. *)
Lemma test_suffix re q s :
  (forall prev t, isSome (RegExp.matchHere re prev t) = q t) ->
  RegExp.test re s = existsSuffix q s.
Proof.
  intros H. unfold RegExp.test, RegExp.exec. generalize (@None ascii) as prev.
  induction s as [|c r IH]; intros prev; cbn [RegExp.execFrom existsSuffix];
    rewrite <- (H prev); destruct (RegExp.matchHere re prev _); cbn [isSome orb];
    try reflexivity.
  rewrite <- (IH (Some c)).
  destruct (RegExp.execFrom re (Some c) r) as [[i m]|]; reflexivity.
Qed.

Section LeadingStar.

Variables (p : ascii -> bool) (re : RegExp.regex) (q : string -> bool).
Hypothesis Hq : forall prev t, isSome (RegExp.matchHere re prev t) = q t.

Lemma star_complete prev s :
  q s = true -> isSome (RegExp.matchHere (RegExp.Many p false :: re) prev s) = true.
Proof.
  intros H. destruct s as [|c r].
  - rewrite matchHere_star_nil, Hq. exact H.
  - rewrite matchHere_star_cons.
    destruct (p c); [|rewrite Hq; exact H].
    destruct (RegExp.matchHere (RegExp.Many p false :: re) (Some c) r);
      [reflexivity|rewrite Hq; exact H].
Qed.

Lemma star_sound prev s :
  isSome (RegExp.matchHere (RegExp.Many p false :: re) prev s) = true -> existsSuffix q s = true.
Proof.
  revert prev. induction s as [|c r IH]; intros prev.
  - rewrite matchHere_star_nil, Hq. cbn. intros ->. reflexivity.
  - rewrite matchHere_star_cons. cbn [existsSuffix].
    destruct (p c).
    + destruct (RegExp.matchHere (RegExp.Many p false :: re) (Some c) r) eqn:E.
      * intros _. rewrite (IH (Some c)); [apply orb_true_r|].
        rewrite E. reflexivity.
      * rewrite Hq. intros ->. reflexivity.
    + rewrite Hq. intros ->. reflexivity.
Qed.

(** A leading [class*] adds nothing to an unanchored expression. *)
Lemma test_leading_star s : RegExp.test (RegExp.Many p false :: re) s = existsSuffix q s.
Proof.
  unfold RegExp.test, RegExp.exec. generalize (@None ascii) as prev.
  induction s as [|c r IH]; intros prev; cbn [RegExp.execFrom existsSuffix].
  - rewrite matchHere_star_nil.
    rewrite <- (Hq prev). destruct (RegExp.matchHere re prev ""); reflexivity.
  - destruct (RegExp.matchHere (RegExp.Many p false :: re) prev (String c r)) eqn:E.
    + symmetry. change (existsSuffix q (String c r) = true).
      apply (star_sound prev). rewrite E. reflexivity.
    + assert (Q : q (String c r) = false).
      { apply not_true_is_false. intros T.
        apply (star_complete prev) in T. rewrite E in T. discriminate. }
      rewrite Q. cbn [orb]. rewrite <- (IH (Some c)).
      destruct (RegExp.execFrom (RegExp.Many p false :: re) (Some c) r) as [[i m]|]; reflexivity.
Qed.

End LeadingStar.

Lemma startsWithClasses_literals w s :
  startsWithClasses (literalsI w) s
  = Js.startsWith (Js.toLowerCase s) (Js.toLowerCase w).
Proof.
  revert s. induction w as [|a w IH]; intros s; [reflexivity|].
  destruct s as [|c r]; [reflexivity|].
  cbn. unfold RegExp.litI at 1. f_equal. apply IH.
Qed.

Lemma existsSuffix_includes w s :
  existsSuffix (fun t => Js.startsWith (Js.toLowerCase t) (Js.toLowerCase w)) s
  = Rule.containsNoCase s w.
Proof.
  unfold Rule.containsNoCase.
  induction s as [|c r IH]; cbn [existsSuffix Js.toLowerCase Js.map Js.includes].
  - reflexivity.
  - fold (Js.toLowerCase r). rewrite IH. reflexivity.
Qed.

Lemma existsSuffix_afterSomeChar w s :
  existsSuffix
    (fun t => match t with
              | String c r =>
                  RegExp.dot c
                  && Js.startsWith (Js.toLowerCase r) (Js.toLowerCase w)
              | EmptyString => false
              end) s
  = Applied.afterSomeChar w s.
Proof.
  induction s as [|c r IH]; cbn [existsSuffix Applied.afterSomeChar].
  - reflexivity.
  - rewrite IH. reflexivity.
Qed.

(** What [new RegExp('.*.tail', 'i')] tests. *)
Lemma test_wildcard_tail w s :
  RegExp.test
    (RegExp.Many RegExp.dot false :: RegExp.One RegExp.dot :: ones (literalsI w)) s
  = Applied.afterSomeChar w s.
Proof.
  rewrite <- existsSuffix_afterSomeChar. apply test_leading_star.
  intros prev t. rewrite matchHere_one. destruct t as [|c r]; [reflexivity|].
  rewrite <- (app_nil_r (ones (literalsI w))).
  rewrite matchHere_ones by reflexivity.
  rewrite startsWithClasses_literals. reflexivity.
Qed.

(** What [new RegExp('head.*', 'i')] tests. *)
Lemma test_wildcard_head w s :
  RegExp.test (ones (literalsI w) ++ [RegExp.Many RegExp.dot false])%list s
  = Rule.containsNoCase s w.
Proof.
  rewrite <- existsSuffix_includes. apply test_suffix.
  intros prev t. rewrite matchHere_ones.
  - apply startsWithClasses_literals.
  - intros prev' u. rewrite matchHere_star_alone. reflexivity.
Qed.

End Matching.

(** ** Toolchain detection *)

Section Toolchains.

Variable fs : FileSystem.

Lemma existsb_pointwise {A} (f g : A -> bool) l :
  (forall x, f x = g x) -> existsb f l = existsb g l.
Proof.
  intros H. induction l as [|x l IH]; cbn; [|rewrite H, IH]; reflexivity.
Qed.

Ltac by_listing dir :=
  unfold hasMatchingFile, entryNames;
  destruct (readdirNames fs dir) as [names|e]; cbn [bind orOnError];
  [apply existsb_pointwise; intros file|reflexivity].

Lemma hasMatchingFile_uvprojx dir :
  hasMatchingFile fs dir "*.uvprojx"
  = existsb (Applied.afterSomeChar "uvprojx") (entryNames fs dir).
Proof. by_listing dir. exact (test_wildcard_tail "uvprojx" file). Qed.

Lemma hasMatchingFile_eww dir :
  hasMatchingFile fs dir "*.eww"
  = existsb (Applied.afterSomeChar "eww") (entryNames fs dir).
Proof. by_listing dir. exact (test_wildcard_tail "eww" file). Qed.

Lemma hasMatchingFile_cproject dir :
  hasMatchingFile fs dir "*.cproject"
  = existsb (Applied.afterSomeChar "cproject") (entryNames fs dir).
Proof. by_listing dir. exact (test_wildcard_tail "cproject" file). Qed.

Lemma hasMatchingFile_STM32 dir :
  hasMatchingFile fs dir "STM32*"
  = existsb (fun name => Rule.containsNoCase name "STM32") (entryNames fs dir).
Proof. by_listing dir. exact (test_wildcard_head "STM32" file). Qed.

Lemma hasMatchingFile_Makefile dir :
  hasMatchingFile fs dir "Makefile"
  = existsb (fun name => String.eqb name "Makefile") (entryNames fs dir).
Proof. by_listing dir. reflexivity. Qed.

Lemma generic_when_empty (l : list string) :
  (if (List.length l =? 0)%nat then (l ++ ["Generic"])%list else l)
  = match l with [] => ["Generic"] | _ => l end.
Proof. destruct l; reflexivity. Qed.

Lemma analyzeProjectDirectory_toolchains projectDir projectName :
  analyzeProjectDirectory fs projectDir projectName
  = Some {| ProjectInfo.name := formatProjectName projectName;
            ProjectInfo.description :=
              "STM32 Project: " ++ formatProjectName projectName;
            ProjectInfo.path := projectDir;
            ProjectInfo.toolchain := Applied.toolchainsOf (entryNames fs projectDir) |}.
Proof.
  unfold analyzeProjectDirectory. cbv zeta. rewrite generic_when_empty.
  do 2 f_equal. unfold Applied.toolchainsOf. cbv zeta.
  replace (detectToolchains fs projectDir toolchainFiles)
    with (List.map snd
            (filter (fun d => existsb (fst d) (entryNames fs projectDir))
                    Applied.toolchainDetectors)); [reflexivity|].
  cbn [detectToolchains toolchainFiles].
  rewrite hasMatchingFile_uvprojx, hasMatchingFile_eww, hasMatchingFile_STM32,
    hasMatchingFile_Makefile, hasMatchingFile_cproject.
  cbn [Applied.toolchainDetectors filter fst snd List.map].
  repeat match goal with
         | |- context [if ?b then _ else _] => destruct b
         end; reflexivity.
Qed.

Lemma toolchainsOf_nonempty names : Applied.toolchainsOf names <> [].
Proof.
  unfold Applied.toolchainsOf. cbv zeta.
  destruct (List.map snd _); discriminate.
Qed.

Lemma toolchainsOf_generic names :
  Applied.toolchainsOf names = ["Generic"] <->
  forall d, In d Applied.toolchainDetectors -> existsb (fst d) names = false.
Proof.
  unfold Applied.toolchainsOf, Applied.toolchainDetectors.
  cbn [filter fst snd List.map In].
  destruct (existsb (Applied.afterSomeChar "uvprojx") names) eqn:E1,
           (existsb (Applied.afterSomeChar "eww") names) eqn:E2,
           (existsb (fun name => Rule.containsNoCase name "STM32") names) eqn:E3,
           (existsb (fun name => String.eqb name "Makefile") names) eqn:E4,
           (existsb (Applied.afterSomeChar "cproject") names) eqn:E5;
    cbn [filter fst snd List.map];
    (split;
     [ intros H; try discriminate H;
       intros d [<-|[<-|[<-|[<-|[<-|[]]]]]]; assumption
     | intros H;
       try reflexivity;
       first [ specialize (H _ (or_introl eq_refl)); cbn [fst] in H; congruence
             | specialize (H _ (or_intror (or_introl eq_refl))); cbn [fst] in H; congruence
             | specialize (H _ (or_intror (or_intror (or_introl eq_refl)))); cbn [fst] in H; congruence
             | specialize (H _ (or_intror (or_intror (or_intror (or_introl eq_refl))))); cbn [fst] in H; congruence
             | specialize (H _ (or_intror (or_intror (or_intror (or_intror (or_introl eq_refl)))))); cbn [fst] in H; congruence ] ]).
Qed.

End Toolchains.

(** C7, amended.  The toolchains of a project directory are computed from
    the names of its immediate entries (no name when the directory does
    not list): [*.uvprojx], [*.eww] and [*.cproject] match a name that
    holds uvprojx, eww or cproject, letters compared without case, right
    after some character; [STM32*] matches a name that holds STM32
    anywhere, without case; [Makefile] matches the name Makefile only,
    with its case.  The list is never empty, it is Generic exactly when
    no pattern matches, and the names Makefile and project.uvprojx give
    Keil and GCC. *)
Theorem toolchain_detection
    (fs : FileSystem) (projectDir projectName : string) :
  let names := entryNames fs projectDir in
  exists project,
    analyzeProjectDirectory fs projectDir projectName = Some project
    /\ ProjectInfo.toolchain project = Applied.toolchainsOf names
    /\ ProjectInfo.toolchain project <> []
    /\ (ProjectInfo.toolchain project = ["Generic"] <->
        forall d, In d Applied.toolchainDetectors -> existsb (fst d) names = false)
    /\ Applied.toolchainsOf ["Makefile"; "project.uvprojx"] = ["Keil"; "GCC"].
Proof.
  cbv zeta. eexists. split; [apply analyzeProjectDirectory_toolchains|].
  cbn [ProjectInfo.toolchain].
  split; [reflexivity|]. split; [apply toolchainsOf_nonempty|].
  split; [apply toolchainsOf_generic|reflexivity].
Qed.

(** The project of the sample package that holds main.c, Makefile and
    project.uvprojx. *)
Example toolchains_of_sample_project :
  option_map ProjectInfo.toolchain
    (analyzeProjectDirectory Sample.stm32Fs
       "/pkg/Projects/NUCLEO-U575ZI-Q/Examples/GPIO_EXTI" "GPIO_EXTI")
  = Some ["Keil"; "GCC"].
Proof. reflexivity. Qed.

(** C7 as stated fails: a directory that holds only [makefile] gets
    Generic, where the case-insensitive glob rule gives GCC; and one that
    holds only [project.uvprojx.bak] gets Keil, where the glob rule gives
    Generic. *)
Lemma toolchains_not_glob_counterexample :
  (readdirNames Sample.stm32Fs "/pkg/Projects/NUCLEO-U575ZI-Q/Examples/Low"
   = Ok ["makefile"]
   /\ option_map ProjectInfo.toolchain
        (analyzeProjectDirectory Sample.stm32Fs
           "/pkg/Projects/NUCLEO-U575ZI-Q/Examples/Low" "Low")
      = Some ["Generic"]
   /\ Rule.supportedToolchains ["makefile"] = ["GCC"])
  /\ (readdirNames Sample.stm32Fs "/pkg/Projects/NUCLEO-U575ZI-Q/Examples/Old"
      = Ok ["project.uvprojx.bak"]
      /\ option_map ProjectInfo.toolchain
           (analyzeProjectDirectory Sample.stm32Fs
              "/pkg/Projects/NUCLEO-U575ZI-Q/Examples/Old" "Old")
         = Some ["Keil"]
      /\ Rule.supportedToolchains ["project.uvprojx.bak"] = ["Generic"]).
Proof. repeat split; reflexivity. Qed.

(** ** Project enumeration *)

Section ProjectEnumeration.

Variable fs : FileSystem.

Lemma analyzeProjectDirectory_projectOf categoryPath entry :
  analyzeProjectDirectory fs (path.join [categoryPath; Dirent.name entry])
    (Dirent.name entry)
  = Some (Applied.projectOf fs categoryPath entry).
Proof. apply analyzeProjectDirectory_toolchains. Qed.

Lemma scanForProjectsLoop_all categoryPath entries :
  scanForProjectsLoop fs categoryPath entries
  = List.map (Applied.projectOf fs categoryPath)
             (filter Dirent.isDirectory entries).
Proof.
  induction entries as [|e entries IH]; [reflexivity|].
  cbn [scanForProjectsLoop filter].
  destruct (Dirent.isDirectory e); [|exact IH].
  rewrite analyzeProjectDirectory_projectOf, IH. reflexivity.
Qed.

Lemma scanForProjects_In categoryPath project :
  In project (scanForProjects fs categoryPath) <->
  exists entries entry,
    readdir fs categoryPath = Ok entries /\ In entry entries /\
    Dirent.isDirectory entry = true /\
    project = Applied.projectOf fs categoryPath entry.
Proof.
  unfold scanForProjects.
  destruct (readdir fs categoryPath) as [entries|e]; cbn [bind orOnError].
  - rewrite scanForProjectsLoop_all, in_map_iff. split.
    + intros [entry [H1 H2]]. apply filter_In in H2.
      exists entries, entry. intuition auto.
    + intros [en [entry [Heq [H1 [H2 H3]]]]]. injection Heq as <-.
      exists entry. split; [auto|]. apply filter_In. auto.
  - split; [intros []|]. intros [en [entry [H _]]]. discriminate.
Qed.

Lemma getProjectsForBoardLoop_In boardPath categories project :
  In project (getProjectsForBoardLoop fs boardPath categories) <->
  exists category entries entry,
    In category categories /\
    pathExists fs (path.join [boardPath; category]) = true /\
    readdir fs (path.join [boardPath; category]) = Ok entries /\
    In entry entries /\ Dirent.isDirectory entry = true /\
    project = addCategoryPrefix category
                (Applied.projectOf fs (path.join [boardPath; category]) entry).
Proof.
  induction categories as [|c categories IH]; cbn [getProjectsForBoardLoop].
  - split; [intros []|]. intros [category [en [entry [[] _]]]].
  - destruct (pathExists fs (path.join [boardPath; c])) eqn:E.
    + rewrite in_app_iff, in_map_iff, IH. split.
      * intros [[p [H1 H2]]|[category [en [entry H]]]].
        -- apply scanForProjects_In in H2.
           destruct H2 as [en [entry [H2 [H3 [H4 H5]]]]].
           exists c, en, entry. subst. cbn [In]. auto 10.
        -- exists category, en, entry. cbn [In]. intuition auto.
      * intros [category [en [entry [[<-|Hc] [H1 [H2 [H3 [H4 H5]]]]]]]].
        -- left. eexists. split; [symmetry; exact H5|].
           apply scanForProjects_In. eauto 8.
        -- right. eauto 12.
    + rewrite IH. split.
      * intros [category [en [entry H]]].
        exists category, en, entry. cbn [In]. intuition auto.
      * intros [category [en [entry [[<-|Hc] [H1 H]]]]]; [congruence|eauto 12].
Qed.

Lemma getProjectsForBoardLoop_flat_map boardPath categories :
  getProjectsForBoardLoop fs boardPath categories
  = flat_map (Applied.categoryProjects fs boardPath) categories.
Proof.
  induction categories as [|c categories IH]; [reflexivity|].
  cbn [getProjectsForBoardLoop flat_map]. unfold Applied.categoryProjects at 1.
  cbv zeta. destruct (pathExists fs (path.join [boardPath; c])); [|exact IH].
  rewrite IH. f_equal. unfold scanForProjects.
  destruct (readdir fs (path.join [boardPath; c])) as [entries|e];
    cbn [bind orOnError]; [|reflexivity].
  rewrite scanForProjectsLoop_all, map_map. reflexivity.
Qed.

Lemma getProjectsForBoard_missing packagePath boardId :
  pathExists fs (boardPathOf packagePath boardId) = false ->
  getProjectsForBoard fs packagePath boardId = Ok [].
Proof. unfold getProjectsForBoard. cbv zeta. intros ->. reflexivity. Qed.

End ProjectEnumeration.

(** C1, amended.  For every package path and board id,
    [getProjectsForBoard] returns without error, and its list holds, in
    category order and then listing order, exactly one ProjectTemplate
    for every immediate subdirectory of every category folder that
    exists under root/Projects/boardId and lists; the project-file probe
    plays no part in it. *)
Theorem projects_are_all_subdirectories
    (fs : FileSystem) (packagePath boardId : string) :
  let boardPath := boardPathOf packagePath boardId in
  exists projects,
    getProjectsForBoard fs packagePath boardId = Ok projects /\
    projects
    = (if pathExists fs boardPath
       then flat_map (Applied.categoryProjects fs boardPath) categoryNames
       else []) /\
    forall project,
      In project projects <->
      pathExists fs boardPath = true /\
      exists category entries entry,
        let categoryPath := path.join [boardPath; category] in
        In category categoryNames /\
        pathExists fs categoryPath = true /\
        readdir fs categoryPath = Ok entries /\
        In entry entries /\ Dirent.isDirectory entry = true /\
        project = addCategoryPrefix category
                    (Applied.projectOf fs categoryPath entry).
Proof.
  cbv zeta. unfold getProjectsForBoard. cbv zeta.
  destruct (pathExists fs (boardPathOf packagePath boardId)) eqn:E.
  - eexists. split; [reflexivity|].
    split; [apply getProjectsForBoardLoop_flat_map|]. intros project.
    rewrite getProjectsForBoardLoop_In. tauto.
  - exists []. split; [reflexivity|]. split; [reflexivity|].
    intros project. split; [intros []|].
    intros [H _]. discriminate.
Qed.

(** C1 as stated fails: [Foo] holds only [notes.txt], the probe rejects
    it, and it is returned all the same. *)
Lemma unprobed_project_counterexample :
  hasProjectFiles Sample.stm32Fs "/pkg/Projects/NUCLEO-U575ZI-Q/Examples/Foo"
  = false
  /\ exists projects,
       getProjectsForBoard Sample.stm32Fs "/pkg" "NUCLEO-U575ZI-Q" = Ok projects
       /\ In "/pkg/Projects/NUCLEO-U575ZI-Q/Examples/Foo"
             (List.map ProjectInfo.path projects).
Proof.
  split; [reflexivity|]. eexists. split; [reflexivity|].
  vm_compute. tauto.
Qed.

(** C2.  On a package in the flattened layout the board [BoardX] is
    discovered under the fallback root Examples, yet
    [getProjectsForBoard] looks under Projects only and returns the empty
    list; the same scan run on the board directory under the fallback
    root finds the project. *)
Theorem fallback_board_has_no_projects :
  List.map BoardInfo.id (getAvailableBoards Sample.flatFs "/flat") = ["BoardX"]
  /\ boardPathOf "/flat" "BoardX" = "/flat/Projects/BoardX"
  /\ getProjectsForBoard Sample.flatFs "/flat" "BoardX" = Ok []
  /\ List.map ProjectInfo.name
       (getProjectsForBoardLoop Sample.flatFs "/flat/Examples/BoardX" categoryNames)
     = ["Examples/Blinky"].
Proof. repeat split; reflexivity. Qed.

(** ** Project import *)

Section ProjectImport.

Variable fs : FileSystem.

Lemma findProjectSourceLoop_find paths :
  findProjectSourceLoop fs paths = find (pathExists fs) paths.
Proof.
  induction paths as [|p paths IH]; [reflexivity|].
  cbn [findProjectSourceLoop find]. rewrite IH. reflexivity.
Qed.

Lemma importProject_prepared folder packagePath boardId projectName :
  importProject fs (Some folder) packagePath boardId projectName
  = match find (pathExists fs) (possiblePaths packagePath boardId projectName) with
    | Some projectSource =>
        let targetPath := path.join [folder; projectName] in
        {| copyRequested := Some (projectSource, targetPath);
           returned :=
             match copy fs projectSource targetPath with
             | Ok _ => Ok targetPath
             | Err error => Err (importFailure error)
             end |}
    | None =>
        {| copyRequested := None;
           returned :=
             Err (importFailure
                    (newError ("Project " ++ projectName
                               ++ " not found for board " ++ boardId))) |}
    end.
Proof.
  unfold importProject, findProjectSource. rewrite findProjectSourceLoop_find.
  cbn [bind]. destruct (find _ _); reflexivity.
Qed.

End ProjectImport.

(** How [importProject] finds its source: whatever the caller passes
    besides package path, board id and project name, the source is
    resolved by probing, in order, root/Projects/boardId/projectName,
    root/Examples/boardId/projectName and
    root/Applications/boardId/projectName; the first that exists is the
    copy source, and if none exists the operation fails with a "project
    not found" error and copies nothing. *)
Lemma import_source_is_probed
    (fs : FileSystem) (folder packagePath boardId projectName : string)
    (location targetName projectPath : option string) :
  let outcome :=
    importProjectCall fs (Some folder) packagePath boardId projectName
      location targetName projectPath in
  possiblePaths packagePath boardId projectName
  = [ path.join [packagePath; "Projects"; boardId; projectName];
      path.join [packagePath; "Examples"; boardId; projectName];
      path.join [packagePath; "Applications"; boardId; projectName] ]
  /\ match find (pathExists fs) (possiblePaths packagePath boardId projectName) with
     | Some projectSource =>
         copyRequested outcome
         = Some (projectSource, path.join [folder; projectName])
     | None =>
         copyRequested outcome = None
         /\ returned outcome
            = Err ("Error: Failed to import project: Error: Project "
                   ++ projectName ++ " not found for board " ++ boardId)
     end.
Proof.
  cbv zeta. split; [reflexivity|].
  unfold importProjectCall. rewrite importProject_prepared.
  destruct (find _ _); cbn; auto.
Qed.

(** An import that succeeds: the first probe exists and is copied to the
    picked folder. *)
Example import_copies_first_probe :
  importProject Sample.stm32Fs (Some "/work") "/pkg" "NUCLEO-U575ZI-Q"
    "Examples/Foo"
  = {| copyRequested :=
         Some ("/pkg/Projects/NUCLEO-U575ZI-Q/Examples/Foo", "/work/Examples/Foo");
       returned := Ok "/work/Examples/Foo" |}.
Proof. reflexivity. Qed.

(** C3.  An explicit source path does not reach [importProject].  The
    first project listed for the board has the name "Examples/GPIO EXTI"
    and the path of its directory, GPIO_EXTI; the panel passes that path
    as [projectPath], the path exists, and [importProject], which
    declares three parameters, still probes for the listed name: nothing
    is copied from the path passed and the import fails with "project
    not found". *)
Theorem explicit_source_is_dropped :
  let explicit := "/pkg/Projects/NUCLEO-U575ZI-Q/Examples/GPIO_EXTI" in
  let outcome :=
    importProjectCall Sample.stm32Fs (Some "/work") "/pkg" "NUCLEO-U575ZI-Q"
      "Examples/GPIO EXTI" (Some "/work") (Some "blinky") (Some explicit) in
  option_map
    (fun projects =>
       List.map (fun p => (ProjectInfo.name p, ProjectInfo.path p))
         (firstn 1 projects))
    (match getProjectsForBoard Sample.stm32Fs "/pkg" "NUCLEO-U575ZI-Q" with
     | Ok projects => Some projects
     | Err _ => None
     end)
  = Some [("Examples/GPIO EXTI", explicit)]
  /\ pathExists Sample.stm32Fs explicit = true
  /\ copyRequested outcome = None
  /\ returned outcome
     = Err "Error: Failed to import project: Error: Project Examples/GPIO EXTI not found for board NUCLEO-U575ZI-Q".
Proof. cbv zeta. repeat split; reflexivity. Qed.

(** Where an import lands: on success [importProject] returns
    destination/projectName, the destination being the folder picked in
    the dialog and projectName the raw project identifier; a target name
    passed by the caller plays no part. *)
Lemma import_returns_destination_project
    (fs : FileSystem) (dialog : option string)
    (packagePath boardId projectName : string)
    (location targetName projectPath : option string) (returnedPath : string) :
  returned (importProjectCall fs dialog packagePath boardId projectName
              location targetName projectPath) = Ok returnedPath ->
  exists folder,
    dialog = Some folder /\ returnedPath = path.join [folder; projectName].
Proof.
  unfold importProjectCall. destruct dialog as [folder|].
  - rewrite importProject_prepared. intros H. exists folder. split; [reflexivity|].
    destruct (find _ _) as [src|]; cbn in H; [|discriminate].
    destruct (copy fs src _); [|discriminate]. congruence.
  - cbn. discriminate.
Qed.

Lemma import_returns_destination_project_witness :
  exists folder,
    Some "/work" = Some folder
    /\ "/work/Examples/Foo" = path.join [folder; "Examples/Foo"].
Proof.
  apply (import_returns_destination_project Sample.stm32Fs (Some "/work")
           "/pkg" "NUCLEO-U575ZI-Q" "Examples/Foo"
           (Some "/work") (Some "blinky") None "/work/Examples/Foo").
  reflexivity.
Defined.

(** C4.  A target name does not reach [importProject].  The panel
    passes the target name [blinky] with the project "Examples/Foo";
    [importProject], which declares three parameters, joins the picked
    folder with the project name: the copy goes to /work/Examples/Foo and
    that path is returned, not /work/blinky. *)
Theorem target_name_is_dropped :
  let outcome :=
    importProjectCall Sample.stm32Fs (Some "/work") "/pkg" "NUCLEO-U575ZI-Q"
      "Examples/Foo" (Some "/work") (Some "blinky")
      (Some "/pkg/Projects/NUCLEO-U575ZI-Q/Examples/Foo") in
  copyRequested outcome
  = Some ("/pkg/Projects/NUCLEO-U575ZI-Q/Examples/Foo", "/work/Examples/Foo")
  /\ returned outcome = Ok "/work/Examples/Foo"
  /\ path.join ["/work"; "blinky"] = "/work/blinky"
  /\ path.join ["/work"; "blinky"] <> "/work/Examples/Foo".
Proof.
  cbv zeta. split; [reflexivity|]. split; [reflexivity|].
  split; [reflexivity|]. vm_compute. discriminate.
Qed.

(** ** Package identification *)

Section Package.

Variables (fs : FileSystem) (parsers : Parsers).

(** The last character of a string. *)
Lemma endsWith_last s t c :
  Js.endsWith s (t ++ String c EmptyString) = true ->
  exists a, s = a ++ String c EmptyString.
Proof.
  rewrite endsWith_iff. intros [a ->]. exists (a ++ t).
  rewrite append_assoc. reflexivity.
Qed.

Lemma last_char_unique a b (c d : ascii) :
  a ++ String c EmptyString = b ++ String d EmptyString -> c = d.
Proof.
  revert b. induction a as [|x a IH]; intros [|y b] H; cbn in H.
  - congruence.
  - injection H as _ H. destruct b; discriminate.
  - injection H as _ H. destruct a; discriminate.
  - injection H as _ H. eauto.
Qed.

Lemma xml_descriptor_not_json file :
  Js.endsWith file ".pdsc" || Js.endsWith file ".xml" = true ->
  Js.endsWith file ".json" = false.
Proof.
  intros H. apply not_true_is_false. intros J.
  apply (endsWith_last file ".jso" "n") in J. destruct J as [a Ha].
  apply orb_true_iff in H. destruct H as [H|H].
  - apply (endsWith_last file ".pds" "c") in H. destruct H as [b Hb].
    rewrite Ha in Hb. apply last_char_unique in Hb. discriminate.
  - apply (endsWith_last file ".xm" "l") in H. destruct H as [b Hb].
    rewrite Ha in Hb. apply last_char_unique in Hb. discriminate.
Qed.

End Package.

(** C5, amended.  When [analyzePackage] finds an XML/PDSC descriptor
    whose content fails to parse as XML, the parse error is thrown to the
    caller, wrapped as "Failed to analyze package".  The fall back to
    directory-name inference (name of the package directory, version
    1.0.0) is taken when the content parses but the document has no
    [package] element with attributes. *)
Theorem xml_parse_error_is_thrown
    (fs : FileSystem) (parsers : Parsers) (packagePath file content : string) :
  findPackageDescriptor fs packagePath = Ok (Some file) ->
  Js.endsWith file ".pdsc" || Js.endsWith file ".xml" = true ->
  readFile fs file = Ok content ->
  match parseString parsers content with
  | Err err =>
      analyzePackage fs parsers packagePath
      = Err ("Error: Failed to analyze package: " ++ err)
  | Ok doc =>
      match packageElement doc with
      | None =>
          analyzePackage fs parsers packagePath
          = Ok {| PackageInfo.name := path.basename (path.dirname file);
                  PackageInfo.version := "1.0.0";
                  PackageInfo.path := path.dirname file;
                  PackageInfo.description := None |}
      | Some (attrs, descriptions) =>
          analyzePackage fs parsers packagePath
          = Ok {| PackageInfo.name :=
                    Js.orElse (assoc "name" attrs) "Unknown Package";
                  PackageInfo.version :=
                    Js.orElse (assoc "version" attrs) "1.0.0";
                  PackageInfo.path := path.dirname file;
                  PackageInfo.description := firstDescription descriptions |}
      end
  end.
Proof.
  intros Hfind Hxml Hread.
  pose proof (xml_descriptor_not_json file Hxml) as Hjson.
  unfold analyzePackage. rewrite Hfind. cbn [bind].
  unfold parsePackageDescriptor. rewrite Hread. cbn [bind].
  rewrite Hjson, Hxml.
  destruct (parseString parsers content) as [doc|err]; [|reflexivity].
  destruct (packageElement doc) as [[attrs descriptions]|]; reflexivity.
Qed.

Lemma xml_parse_error_is_thrown_witness :
  analyzePackage Sample.stm32Fs Sample.rejectingParsers "/pkg"
  = Err "Error: Failed to analyze package: Error: Unclosed root tag".
Proof.
  exact (xml_parse_error_is_thrown Sample.stm32Fs Sample.rejectingParsers
           "/pkg" "/pkg/package.xml" "<package name='STM32Cube_FW_U5'"
           eq_refl eq_refl eq_refl).
Defined.

(** The fall back that does exist: the content parses, the document has
    no [package] element, and the record is inferred from the directory
    name. *)
Example no_package_element_falls_back :
  analyzePackage Sample.stm32Fs Sample.otherRootParsers "/pkg"
  = Ok (directoryNamePackage "/pkg").
Proof. reflexivity. Qed.

(** C5 as stated fails: the descriptor does not parse, and the caller
    gets the error instead of the record inferred from the directory
    name. *)
Lemma parse_error_not_silent_counterexample :
  findPackageDescriptor Sample.stm32Fs "/pkg" = Ok (Some "/pkg/package.xml")
  /\ (exists content,
        readFile Sample.stm32Fs "/pkg/package.xml" = Ok content
        /\ parseString Sample.rejectingParsers content
           = Err "Error: Unclosed root tag")
  /\ analyzePackage Sample.stm32Fs Sample.rejectingParsers "/pkg"
     <> Ok (directoryNamePackage "/pkg").
Proof.
  split; [reflexivity|]. split; [eexists; split; reflexivity|].
  vm_compute. discriminate.
Qed.

(** ** MCU family *)

Section McuRegex.

Lemma execFrom_match re prev s i m :
  RegExp.execFrom re prev s = Some (i, m) ->
  exists prev' n,
    RegExp.matchHere re prev' (Js.drop i s) = Some n
    /\ m = Js.take n (Js.drop i s).
Proof.
  revert prev i. induction s as [|c r IH]; intros prev i; cbn [RegExp.execFrom].
  - destruct (RegExp.matchHere re prev "") as [n|] eqn:E; [|discriminate].
    intros H. injection H as <- <-. exists prev, n. auto.
  - destruct (RegExp.matchHere re prev (String c r)) as [n|] eqn:E.
    + intros H. injection H as <- <-. exists prev, n. auto.
    + destruct (RegExp.execFrom re (Some c) r) as [[j m']|] eqn:F; [|discriminate].
      intros H. injection H as <- <-. apply IH in F. exact F.
Qed.

Lemma matchHere_plus_alone p prev s :
  RegExp.matchHere [RegExp.Many p true] prev s
  = if (1 <=? spanLen p s)%nat then Some (spanLen p s) else None.
Proof.
  destruct s as [|c r]; [reflexivity|].
  rewrite matchHere_plus, matchHere_star_alone. cbn [spanLen].
  destruct (p c); reflexivity.
Qed.

Lemma matchHere_classes_plus ps p prev s :
  RegExp.matchHere (ones ps ++ [RegExp.Many p true])%list prev s
  = if startsWithClasses ps s
       && (1 <=? spanLen p (Js.drop (List.length ps) s))%nat
    then Some (List.length ps + spanLen p (Js.drop (List.length ps) s))%nat
    else None.
Proof.
  revert prev s. induction ps as [|q ps IH]; intros prev s.
  - cbn [ones List.map app startsWithClasses List.length Js.drop andb Nat.add].
    rewrite matchHere_plus_alone. destruct s; reflexivity.
  - cbn [ones List.map app startsWithClasses List.length].
    destruct s as [|c r]; [reflexivity|].
    cbn [RegExp.matchHere Js.drop]. fold (ones ps).
    destruct (q c); [|reflexivity]. rewrite IH. cbn [andb].
    destruct (startsWithClasses ps r && _); reflexivity.
Qed.

Ltac all_chars c := destruct c as [[] [] [] [] [] [] [] []]; vm_compute; congruence.

Lemma upper_of_S c : RegExp.litI "S" c = true -> Js.upperChar c = "S"%char.
Proof. all_chars c. Qed.
Lemma upper_of_T c : RegExp.litI "T" c = true -> Js.upperChar c = "T"%char.
Proof. all_chars c. Qed.
Lemma upper_of_M c : RegExp.litI "M" c = true -> Js.upperChar c = "M"%char.
Proof. all_chars c. Qed.
Lemma upper_of_3 c : RegExp.litI "3" c = true -> Js.upperChar c = "3"%char.
Proof. all_chars c. Qed.
Lemma upper_of_2 c : RegExp.litI "2" c = true -> Js.upperChar c = "2"%char.
Proof. all_chars c. Qed.
Lemma upper_of_letter c : RegExp.letterI c = true -> Js.isUpper (Js.upperChar c) = true.
Proof. all_chars c. Qed.
Lemma upper_of_digit c : Js.isDigit c = true -> Js.isDigit (Js.upperChar c) = true.
Proof. all_chars c. Qed.

Lemma digits_of_span s :
  Js.all Js.isDigit (Js.toUpperCase (Js.take (spanLen Js.isDigit s) s)) = true
  /\ String.length (Js.toUpperCase (Js.take (spanLen Js.isDigit s) s))
     = spanLen Js.isDigit s.
Proof.
  induction s as [|c r [IH1 IH2]]; [split; reflexivity|].
  cbn [spanLen]. destruct (Js.isDigit c) eqn:D; [|split; reflexivity].
  cbn [Js.take Js.toUpperCase Js.map Js.all String.length].
  fold (Js.toUpperCase (Js.take (spanLen Js.isDigit r) r)).
  rewrite (upper_of_digit c D), IH1, IH2. split; reflexivity.
Qed.

(** A match of [mcuRegex], uppercased, is STM32, a letter and digits. *)
Lemma mcuRegex_shape prev s n :
  RegExp.matchHere mcuRegex prev s = Some n ->
  Rule.mcuShape (Js.toUpperCase (Js.take n s)) = true.
Proof.
  change mcuRegex
    with (ones [RegExp.litI "S"; RegExp.litI "T"; RegExp.litI "M";
                RegExp.litI "3"; RegExp.litI "2"; RegExp.letterI]
          ++ [RegExp.Many Js.isDigit true])%list.
  rewrite matchHere_classes_plus.
  destruct (startsWithClasses _ s && _) eqn:E; [|discriminate].
  intros H. injection H as <-.
  apply andb_true_iff in E. destruct E as [E1 E2].
  destruct s as [|c1 [|c2 [|c3 [|c4 [|c5 [|c6 r]]]]]];
    cbn [startsWithClasses] in E1; rewrite ?andb_false_r in E1;
    try discriminate E1.
  repeat (apply andb_true_iff in E1; destruct E1 as [?H E1]).
  cbn [List.length Js.drop] in *. apply Nat.leb_le in E2.
  cbn [Nat.add Js.take Js.toUpperCase Js.map].
  rewrite (upper_of_S c1), (upper_of_T c2), (upper_of_M c3), (upper_of_3 c4),
    (upper_of_2 c5) by assumption.
  unfold Rule.mcuShape. cbn [Js.startsWith Js.drop Ascii.eqb Bool.eqb andb].
  fold (Js.toUpperCase (Js.take (spanLen Js.isDigit r) r)).
  destruct (digits_of_span r) as [D1 D2].
  rewrite upper_of_letter, D1, D2 by assumption.
  cbn [andb]. rewrite andb_true_r. apply Nat.leb_le. exact E2.
Qed.

Lemma match0_shape s m :
  RegExp.match0 mcuRegex s = Some m ->
  Rule.mcuShape (Js.toUpperCase m) = true.
Proof.
  unfold RegExp.match0, RegExp.exec.
  destruct (RegExp.execFrom mcuRegex None s) as [[i m']|] eqn:E; [|discriminate].
  cbn. intros H. injection H as <-.
  apply execFrom_match in E. destruct E as [prev [n [H ->]]].
  eapply mcuRegex_shape. exact H.
Qed.

End McuRegex.

Section McuFamily.

Variable fs : FileSystem.

Lemma extractMcuFromFile_rule boardDir file :
  match extractMcuFromFile fs boardDir file with
  | Ok found => found
  | Err _ => None
  end = Rule.mcuInFile fs boardDir file.
Proof.
  unfold extractMcuFromFile, Rule.mcuInFile. cbv zeta.
  destruct (statIsFile fs (path.join [boardDir; file])) as [[|]|e]; cbn [bind andb].
  - destruct (Js.endsWith file ".h" || Js.endsWith file ".ioc");
      destruct (readFile fs _); reflexivity.
  - try destruct (readFile fs _); reflexivity.
  - try destruct (readFile fs _); reflexivity.
Qed.

Lemma extractMcuInfoLoop_first boardDir files :
  extractMcuInfoLoop fs boardDir files
  = hd_error
      (flat_map (fun file =>
                   match Rule.mcuInFile fs boardDir file with
                   | Some m => [m]
                   | None => []
                   end) files).
Proof.
  induction files as [|file files IH]; [reflexivity|].
  cbn [extractMcuInfoLoop flat_map].
  rewrite <- (extractMcuFromFile_rule boardDir file).
  destruct (extractMcuFromFile fs boardDir file) as [[m|]|e]; cbn [app];
    [reflexivity|exact IH|exact IH].
Qed.

Lemma extractMcuInfo_rule boardDir :
  extractMcuInfo fs boardDir = Rule.mcuFamily fs boardDir.
Proof.
  unfold extractMcuInfo, Rule.mcuFamily.
  destruct (readdirNames fs boardDir) as [files|e]; cbn [bind orOnError];
    [apply extractMcuInfoLoop_first|reflexivity].
Qed.

Lemma mcuInFile_shape boardDir file m :
  Rule.mcuInFile fs boardDir file = Some m -> Rule.mcuShape m = true.
Proof.
  unfold Rule.mcuInFile. cbv zeta.
  destruct (statIsFile fs _) as [[|]|e]; try discriminate.
  destruct (readFile fs _) as [content|e]; try discriminate.
  destruct (Js.endsWith file ".h" || Js.endsWith file ".ioc"); try discriminate.
  destruct (RegExp.match0 mcuRegex content) as [m'|] eqn:E; [|discriminate].
  cbn. intros H. injection H as <-. apply match0_shape in E. exact E.
Qed.

Lemma mcuFamily_shape boardDir m :
  Rule.mcuFamily fs boardDir = Some m -> Rule.mcuShape m = true.
Proof.
  unfold Rule.mcuFamily.
  destruct (readdirNames fs boardDir) as [files|e]; [|discriminate].
  induction files as [|file files IH]; [discriminate|].
  cbn [flat_map]. destruct (Rule.mcuInFile fs boardDir file) as [m'|] eqn:E.
  - cbn. intros H. injection H as <-. eapply mcuInFile_shape. exact E.
  - exact IH.
Qed.

End McuFamily.

(** C9, amended.  For every qualifying board, the MCU field is the
    uppercased first case-insensitive match of STM32, one letter and one
    or more digits in the text of the regular files named [*.h] or
    [*.ioc] directly under the board directory, taken in listing order,
    a file that cannot be read being passed over; when no such match is
    found the field is the default "STM32". *)
Theorem mcu_of_board
    (fs : FileSystem) (boardDir boardName : string) (board : BoardInfo.t) :
  analyzeBoardDirectory fs boardDir boardName = Some board ->
  BoardInfo.mcu board
  = match Rule.mcuFamily fs boardDir with
    | Some m => m
    | None => "STM32"
    end
  /\ (forall m, Rule.mcuFamily fs boardDir = Some m -> Rule.mcuShape m = true).
Proof.
  intros H. split; [|intros m; apply mcuFamily_shape].
  unfold analyzeBoardDirectory in H.
  destruct (negb (hasProjectsInDirectory fs boardDir)); [discriminate|].
  injection H as <-. cbn [BoardInfo.mcu]. rewrite extractMcuInfo_rule.
  destruct (Rule.mcuFamily fs boardDir) as [m|] eqn:E; [|reflexivity].
  apply mcuFamily_shape in E. destruct m; [discriminate|reflexivity].
Qed.

Lemma mcu_of_board_witness :
  exists board,
    analyzeBoardDirectory Sample.stm32Fs "/pkg/Projects/NUCLEO-U575ZI-Q"
      "NUCLEO-U575ZI-Q" = Some board
    /\ BoardInfo.mcu board = "STM32U575".
Proof.
  eexists. split; [reflexivity|].
  refine (proj1 (mcu_of_board Sample.stm32Fs "/pkg/Projects/NUCLEO-U575ZI-Q"
                   "NUCLEO-U575ZI-Q" _ eq_refl)).
Defined.

(** C9 as stated fails: the board qualifies, none of its files gives a
    match, and its MCU field is the string "STM32", not undefined. *)
Lemma mcu_default_counterexample :
  Rule.mcuFamily Sample.stm32Fs "/pkg/Projects/STM32U575I-EV" = None
  /\ exists board,
       analyzeBoardDirectory Sample.stm32Fs "/pkg/Projects/STM32U575I-EV"
         "STM32U575I-EV" = Some board
       /\ BoardInfo.mcu board = "STM32".
Proof. split; [reflexivity|]. eexists. split; reflexivity. Qed.

(* ================================================================== *)
(** * Further properties *)

(** ** Duplicate board ids *)

Section FirstOccurrence.

Lemma findIndex_app_none {A} (q : A -> bool) pre l :
  (forall x, In x pre -> q x = false) ->
  findIndex q (pre ++ l) = option_map (Nat.add (List.length pre)) (findIndex q l).
Proof.
  induction pre as [|y pre IH]; intros H; cbn [app findIndex List.length].
  - destruct (findIndex q l); reflexivity.
  - rewrite (H y (or_introl eq_refl)), IH by (intros x Hx; apply H; right; exact Hx).
    destruct (findIndex q l); reflexivity.
Qed.

Lemma findIndex_app_some {A} (q : A -> bool) pre l x :
  In x pre -> q x = true ->
  exists i, findIndex q (pre ++ l) = Some i /\ (i < List.length pre)%nat.
Proof.
  induction pre as [|y pre IH]; intros Hin Hq; [destruct Hin|].
  cbn [app findIndex List.length]. destruct (q y) eqn:E.
  - exists 0%nat. split; [reflexivity|lia].
  - destruct Hin as [->|Hin]; [congruence|].
    destruct (IH Hin Hq) as [i [H1 H2]]. exists (S i). rewrite H1. split; [reflexivity|lia].
Qed.

Lemma existsb_seen (b : BoardInfo.t) (pre : list BoardInfo.t) :
  existsb (String.eqb (BoardInfo.id b)) (List.map BoardInfo.id pre)
  = existsb (fun b' => String.eqb (BoardInfo.id b') (BoardInfo.id b)) pre.
Proof.
  induction pre as [|y pre IH]; [reflexivity|].
  cbn [List.map existsb]. rewrite IH, (String.eqb_sym (BoardInfo.id b)). reflexivity.
Qed.

Lemma keepFirst_seen_ext seen seen' boards :
  (forall id, In id seen <-> In id seen') ->
  keepFirst seen boards = keepFirst seen' boards.
Proof.
  revert seen seen'. induction boards as [|b rest IH]; intros seen seen' H; [reflexivity|].
  cbn [keepFirst].
  assert (E : existsb (String.eqb (BoardInfo.id b)) seen
              = existsb (String.eqb (BoardInfo.id b)) seen').
  { apply eq_true_iff_eq. rewrite !existsb_exists.
    split; intros [x [H1 H2]]; exists x; (split; [apply H; exact H1|exact H2]). }
  rewrite E. destruct (existsb _ seen').
  - apply IH. exact H.
  - f_equal. apply IH. intros id. cbn [In]. rewrite H. tauto.
Qed.

(** The filter of [uniqueBoards] run on a tail of the list. *)
Lemma uniqueBoards_tail pre l :
  filterIndexed
    (fun board index =>
       optNatEqb
         (findIndex (fun b => String.eqb (BoardInfo.id b) (BoardInfo.id board))
                    (pre ++ l))
         index)
    (List.length pre) l
  = keepFirst (List.map BoardInfo.id pre) l.
Proof.
  revert pre. induction l as [|b rest IH]; intros pre; [reflexivity|].
  cbn [filterIndexed keepFirst]. rewrite existsb_seen.
  replace (pre ++ b :: rest)%list with ((pre ++ [b]) ++ rest)%list
    by (rewrite <- app_assoc; reflexivity).
  specialize (IH (pre ++ [b])%list).
  rewrite length_app in IH. cbn [List.length] in IH.
  replace (List.length pre + 1)%nat with (S (List.length pre)) in IH by lia.
  rewrite IH. rewrite map_app. cbn [List.map].
  rewrite <- app_assoc. cbn [app].
  destruct (existsb (fun b' => String.eqb (BoardInfo.id b') (BoardInfo.id b)) pre) eqn:E.
  - apply existsb_exists in E. destruct E as [x [Hx Hq]].
    destruct (findIndex_app_some
                (fun b' => String.eqb (BoardInfo.id b') (BoardInfo.id b))
                pre (b :: rest) x Hx Hq) as [i [Hi Hlt]].
    rewrite Hi. cbn [optNatEqb].
    replace (i =? List.length pre)%nat with false
      by (symmetry; apply Nat.eqb_neq; lia).
    apply keepFirst_seen_ext. intros id. rewrite in_app_iff. cbn [In].
    apply String.eqb_eq in Hq. split; [|tauto].
    intros [H|[H|[]]]; [exact H|]. subst id. rewrite <- Hq.
    apply in_map. exact Hx.
  - rewrite findIndex_app_none.
    + cbn [findIndex]. rewrite String.eqb_refl. cbn [option_map optNatEqb].
      rewrite Nat.add_0_r, Nat.eqb_refl. f_equal.
      apply keepFirst_seen_ext. intros id. rewrite in_app_iff. cbn [In]. tauto.
    + intros x Hx. destruct (String.eqb (BoardInfo.id x) (BoardInfo.id b)) eqn:Q;
        [|reflexivity].
      rewrite <- E. symmetry. apply existsb_exists. eauto.
Qed.

Lemma uniqueBoards_keepFirst boards : uniqueBoards boards = keepFirst [] boards.
Proof. exact (uniqueBoards_tail [] boards). Qed.

Lemma keepFirst_fresh seen boards b :
  In b (keepFirst seen boards) -> In b boards /\ ~ In (BoardInfo.id b) seen.
Proof.
  revert seen. induction boards as [|c rest IH]; intros seen; [intros []|].
  cbn [keepFirst]. destruct (existsb (String.eqb (BoardInfo.id c)) seen) eqn:E.
  - intros H. apply IH in H. cbn [In]. tauto.
  - intros [<-|H].
    + split; [left; reflexivity|]. intros Hin.
      assert (T : existsb (String.eqb (BoardInfo.id c)) seen = true)
        by (apply existsb_exists; exists (BoardInfo.id c); split;
            [exact Hin|apply String.eqb_refl]).
      congruence.
    + apply IH in H. cbn [In] in *. tauto.
Qed.

Lemma keepFirst_NoDup seen boards :
  NoDup (List.map BoardInfo.id (keepFirst seen boards)).
Proof.
  revert seen. induction boards as [|c rest IH]; intros seen; [constructor|].
  cbn [keepFirst]. destruct (existsb (String.eqb (BoardInfo.id c)) seen); [apply IH|].
  cbn [List.map]. constructor; [|apply IH].
  intros Hin. apply in_map_iff in Hin. destruct Hin as [b [Hid Hb]].
  apply keepFirst_fresh in Hb. destruct Hb as [_ Hb]. apply Hb.
  rewrite Hid. left. reflexivity.
Qed.

Lemma keepFirst_find seen boards id b :
  ~ In id seen ->
  (find (fun b' => String.eqb (BoardInfo.id b') id) boards = Some b <->
   In b (keepFirst seen boards) /\ BoardInfo.id b = id).
Proof.
  revert seen. induction boards as [|c rest IH]; intros seen Hseen.
  - cbn. split; [discriminate|tauto].
  - cbn [find keepFirst].
    destruct (String.eqb (BoardInfo.id c) id) eqn:Q.
    + apply String.eqb_eq in Q.
      assert (E : existsb (String.eqb (BoardInfo.id c)) seen = false).
      { apply not_true_is_false. intros T. apply existsb_exists in T.
        destruct T as [x [Hx Hq]]. apply String.eqb_eq in Hq. subst. tauto. }
      rewrite E. split.
      * intros H. injection H as <-. split; [left; reflexivity|exact Q].
      * intros [[->|H] Hid]; [reflexivity|].
        apply keepFirst_fresh in H. destruct H as [_ H].
        exfalso. apply H. left. congruence.
    + assert (N : BoardInfo.id c <> id) by (apply String.eqb_neq; exact Q).
      destruct (existsb (String.eqb (BoardInfo.id c)) seen).
      * apply IH. exact Hseen.
      * rewrite (IH (BoardInfo.id c :: seen)).
        -- cbn [In]. split; [tauto|]. intros [[<-|H] Hid]; [congruence|tauto].
        -- cbn [In]. tauto.
Qed.

End FirstOccurrence.

(** X1.  The boards of [getAvailableBoards] have pairwise distinct ids. *)
Theorem board_ids_are_distinct (fs : FileSystem) (packagePath : string) :
  NoDup (List.map BoardInfo.id (getAvailableBoards fs packagePath)).
Proof.
  change (getAvailableBoards fs packagePath)
    with (uniqueBoards (scannedBoards fs packagePath)).
  rewrite uniqueBoards_keepFirst. apply keepFirst_NoDup.
Qed.

(** X2.  Of the scanned boards that share an id, [getAvailableBoards]
    keeps the one scanned first: a board is returned under an id exactly
    when it is the first scanned board with that id. *)
Theorem first_scanned_board_wins
    (fs : FileSystem) (packagePath id : string) (board : BoardInfo.t) :
  find (fun b => String.eqb (BoardInfo.id b) id) (scannedBoards fs packagePath)
  = Some board
  <-> In board (getAvailableBoards fs packagePath) /\ BoardInfo.id board = id.
Proof.
  change (getAvailableBoards fs packagePath)
    with (uniqueBoards (scannedBoards fs packagePath)).
  rewrite uniqueBoards_keepFirst. apply keepFirst_find. intros [].
Qed.

(** ** The records of the boards *)

Section BoardRecords.

Variable fs : FileSystem.

Lemma scanForBoardsLoop_from boardPath entries b :
  In b (scanForBoardsLoop fs boardPath entries) ->
  exists entry,
    In entry entries /\ Dirent.isDirectory entry = true /\
    analyzeBoardDirectory fs (path.join [boardPath; Dirent.name entry])
      (Dirent.name entry) = Some b.
Proof.
  induction entries as [|e entries IH]; cbn [scanForBoardsLoop]; [intros []|].
  destruct (Dirent.isDirectory e) eqn:D.
  - destruct (analyzeBoardDirectory fs (path.join [boardPath; Dirent.name e])
                (Dirent.name e)) as [b'|] eqn:A.
    + intros [<-|H].
      * exists e. cbn [In]. auto.
      * destruct (IH H) as [entry [H1 H2]]. exists entry. cbn [In]. auto.
    + intros H. destruct (IH H) as [entry [H1 H2]]. exists entry. cbn [In]. auto.
  - intros H. destruct (IH H) as [entry [H1 H2]]. exists entry. cbn [In]. auto.
Qed.

Lemma scanForBoards_from boardPath b :
  In b (scanForBoards fs boardPath) ->
  exists entry,
    Dirent.isDirectory entry = true /\
    analyzeBoardDirectory fs (path.join [boardPath; Dirent.name entry])
      (Dirent.name entry) = Some b.
Proof.
  unfold scanForBoards.
  destruct (readdir fs boardPath) as [entries|e]; cbn [bind orOnError]; [|intros []].
  intros H. apply scanForBoardsLoop_from in H. destruct H as [entry [_ H]]. eauto.
Qed.

Lemma scanFallbackPaths_from roots b :
  In b (scanFallbackPaths fs roots) ->
  exists root, In root roots /\ pathExists fs root = true
               /\ In b (scanForBoards fs root).
Proof.
  induction roots as [|r roots IH]; cbn [scanFallbackPaths]; [intros []|].
  destruct (pathExists fs r) eqn:E.
  - rewrite in_app_iff. intros [H|H].
    + exists r. cbn [In]. auto.
    + destruct (IH H) as [root [H1 H2]]. exists root. cbn [In]. auto.
  - intros H. destruct (IH H) as [root [H1 H2]]. exists root. cbn [In]. auto.
Qed.

Lemma uniqueBoards_subset boards b : In b (uniqueBoards boards) -> In b boards.
Proof.
  rewrite uniqueBoards_keepFirst. intros H. apply keepFirst_fresh in H. tauto.
Qed.

(** Every returned board was built by [analyzeBoardDirectory] from a
    subdirectory of one of the scanned roots. *)
Lemma getAvailableBoards_from packagePath b :
  In b (getAvailableBoards fs packagePath) ->
  exists root entry,
    In root (Rule.boardRoots fs packagePath) /\
    Dirent.isDirectory entry = true /\
    analyzeBoardDirectory fs (path.join [root; Dirent.name entry])
      (Dirent.name entry) = Some b.
Proof.
  change (getAvailableBoards fs packagePath)
    with (uniqueBoards (scannedBoards fs packagePath)).
  intros H. apply uniqueBoards_subset in H.
  unfold scannedBoards in H. unfold Rule.boardRoots.
  destruct (pathExists fs (path.join [packagePath; "Projects"])).
  - apply scanForBoards_from in H. destruct H as [entry H].
    exists (path.join [packagePath; "Projects"]), entry. cbn [In]. tauto.
  - apply scanFallbackPaths_from in H. destruct H as [root [H1 [H2 H3]]].
    apply scanForBoards_from in H3. destruct H3 as [entry H3].
    exists root, entry. split; [|exact H3]. apply filter_In. auto.
Qed.

Lemma findBoardImageLoop_from boardDir files image :
  findBoardImageLoop boardDir files = Some image ->
  exists file,
    In file files /\ image = path.join [boardDir; file] /\
    let ext := Js.toLowerCase (path.extname file) in
    Js.arrayIncludes imageExtensions ext = true /\
    existsb (fun n => Js.includes
                        (Js.toLowerCase (path.basenameWithout file ext)) n)
            commonNames = true.
Proof.
  induction files as [|f files IH]; cbn [findBoardImageLoop]; [discriminate|].
  cbv zeta.
  destruct (Js.arrayIncludes imageExtensions (Js.toLowerCase (path.extname f))) eqn:E1;
    cbn [andb].
  - destruct (existsb _ commonNames) eqn:E2; cbn [orb].
    + intros H. injection H as <-. exists f. cbn [In]. auto.
    + destruct (Js.includes _ "board") eqn:E3.
      * exfalso. cbn [commonNames existsb] in E2. rewrite E3 in E2. discriminate.
      * intros H. destruct (IH H) as [file [H1 H2]]. exists file. cbn [In]. auto.
  - intros H. destruct (IH H) as [file [H1 H2]]. exists file. cbn [In]. auto.
Qed.

End BoardRecords.

(** ** The preview image *)

Section PreviewImage.

Lemma lastDotSuffix_suffix s e :
  path.lastDotSuffix s = Some e -> exists a, s = a ++ e.
Proof.
  revert e. induction s as [|c r IH]; intros e; cbn [path.lastDotSuffix]; [discriminate|].
  destruct (path.lastDotSuffix r) as [e'|].
  - intros H. injection H as <-. destruct (IH e' eq_refl) as [a Ha].
    exists (String c a). cbn. rewrite <- Ha. reflexivity.
  - destruct (Ascii.eqb c "."); [|discriminate].
    intros H. injection H as <-. exists EmptyString. reflexivity.
Qed.

Lemma extname_suffix file : exists a, file = a ++ path.extname file.
Proof.
  unfold path.extname. destruct file as [|c r].
  - exists EmptyString. reflexivity.
  - destruct (String.eqb (String c r) "..").
    + exists (String c r). induction (String c r) as [|x s IH]; cbn; [|rewrite <- IH]; reflexivity.
    + destruct (path.lastDotSuffix r) as [e|] eqn:E.
      * apply lastDotSuffix_suffix in E. destruct E as [a ->].
        exists (String c a). reflexivity.
      * exists (String c r). induction (String c r) as [|x s IH]; cbn; [|rewrite <- IH]; reflexivity.
Qed.

Lemma append_empty_r (s : string) : s ++ "" = s.
Proof. induction s as [|x s IH]; cbn; [|rewrite IH]; reflexivity. Qed.

Lemma take_drop n s : s = Js.take n s ++ Js.drop n s.
Proof.
  revert s. induction n as [|n IH]; intros s; [reflexivity|].
  destruct s as [|c r]; [reflexivity|]. cbn. rewrite <- IH. reflexivity.
Qed.

Lemma basenameWithout_prefix file suffix :
  exists rest, file = path.basenameWithout file suffix ++ rest.
Proof.
  unfold path.basenameWithout.
  assert (W : exists rest, file = file ++ rest).
  { exists EmptyString. induction file as [|x s IH]; cbn; [|rewrite <- IH]; reflexivity. }
  destruct (String.eqb suffix ""); [exact W|].
  destruct (String.eqb file suffix); [exists file; reflexivity|].
  destruct (Js.endsWith file suffix); [|exact W].
  eexists. apply take_drop.
Qed.

Lemma arrayIncludes_In l x : Js.arrayIncludes l x = true -> In x l.
Proof.
  unfold Js.arrayIncludes. rewrite existsb_exists.
  intros [y [H1 H2]]. apply String.eqb_eq in H2. subst. exact H1.
Qed.

(** A name [findBoardImage] accepts ends, without case, in one of the
    image extensions and holds, without case, one of the common names. *)
Lemma image_name_shape file :
  let ext := Js.toLowerCase (path.extname file) in
  Js.arrayIncludes imageExtensions ext = true ->
  existsb (fun n => Js.includes (Js.toLowerCase (path.basenameWithout file ext)) n)
          commonNames = true ->
  exists extension keyword,
    In extension imageExtensions /\
    Js.endsWith (Js.toLowerCase file) extension = true /\
    In keyword commonNames /\
    Js.includes (Js.toLowerCase file) keyword = true.
Proof.
  cbv zeta. intros H1 H2.
  exists (Js.toLowerCase (path.extname file)).
  apply existsb_exists in H2. destruct H2 as [keyword [K1 K2]].
  exists keyword. split; [apply arrayIncludes_In; exact H1|].
  split; [|split; [exact K1|]].
  - apply endsWith_iff. destruct (extname_suffix file) as [a Ha].
    exists (Js.toLowerCase a). rewrite Ha at 1.
    unfold Js.toLowerCase. apply map_append.
  - destruct (basenameWithout_prefix file (Js.toLowerCase (path.extname file)))
      as [rest Hr].
    apply includes_iff in K2. destruct K2 as [a [b K2]].
    apply includes_iff. exists a, (b ++ Js.toLowerCase rest).
    rewrite Hr at 1. unfold Js.toLowerCase in *. rewrite map_append, K2.
    rewrite !append_assoc. reflexivity.
Qed.

End PreviewImage.

(** X3.  Every board of [getAvailableBoards] was built from a
    subdirectory of a scanned root, named by its id: its name is the
    formatted id; its MCU and description come from what
    [extractMcuInfo] finds in that directory (the description names the
    MCU only when one was found, the MCU field is "STM32" otherwise). *)
Theorem board_record_is_consistent
    (fs : FileSystem) (packagePath : string) (board : BoardInfo.t) :
  In board (getAvailableBoards fs packagePath) ->
  exists root,
    In root (Rule.boardRoots fs packagePath)
    /\ BoardInfo.name board = formatBoardName (BoardInfo.id board)
    /\ match extractMcuInfo fs (path.join [root; BoardInfo.id board]) with
       | Some m =>
           BoardInfo.mcu board = m
           /\ BoardInfo.description board
              = "STM32 Development Board: " ++ BoardInfo.name board
                ++ " (" ++ m ++ ")"
       | None =>
           BoardInfo.mcu board = "STM32"
           /\ BoardInfo.description board
              = "STM32 Development Board: " ++ BoardInfo.name board
       end.
Proof.
  intros H. apply getAvailableBoards_from in H.
  destruct H as [root [entry [H1 [_ H2]]]]. exists root.
  unfold analyzeBoardDirectory in H2.
  destruct (negb (hasProjectsInDirectory fs _)); [discriminate|].
  injection H2 as <-. cbn [BoardInfo.id BoardInfo.name BoardInfo.mcu BoardInfo.description].
  split; [exact H1|]. split; [reflexivity|].
  destruct (extractMcuInfo fs _) as [m|] eqn:E.
  - rewrite extractMcuInfo_rule in E.
    apply mcuFamily_shape in E. destruct m as [|c m]; [discriminate|].
    cbn [Js.truthy Js.orElse]. split; reflexivity.
  - cbn [Js.truthy Js.orElse]. split; [reflexivity|].
    rewrite append_empty_r. reflexivity.
Qed.

Lemma board_record_is_consistent_witness :
  exists root,
    In root (Rule.boardRoots Sample.stm32Fs "/pkg")
    /\ "NUCLEO- U575ZI Q" = formatBoardName "NUCLEO-U575ZI-Q".
Proof.
  destruct (board_record_is_consistent Sample.stm32Fs "/pkg"
              {| BoardInfo.id := "NUCLEO-U575ZI-Q";
                 BoardInfo.name := "NUCLEO- U575ZI Q";
                 BoardInfo.description :=
                   "STM32 Development Board: NUCLEO- U575ZI Q (STM32U575)";
                 BoardInfo.imagePath := None;
                 BoardInfo.mcu := "STM32U575" |})
    as [root [H1 [H2 _]]].
  - vm_compute. tauto.
  - exists root. split; [exact H1|exact H2].
Defined.

(** X4.  The preview image of a board, when it has one, is an entry
    directly under the board's directory whose name ends, without case,
    in .png, .jpg, .jpeg, .gif or .bmp and holds, without case, one of
    board, image, picture, photo. *)
Theorem board_image_is_an_image_entry
    (fs : FileSystem) (packagePath : string) (board : BoardInfo.t)
    (image : string) :
  In board (getAvailableBoards fs packagePath) ->
  BoardInfo.imagePath board = Some image ->
  exists root file extension keyword,
    In root (Rule.boardRoots fs packagePath)
    /\ In file (entryNames fs (path.join [root; BoardInfo.id board]))
    /\ image = path.join [path.join [root; BoardInfo.id board]; file]
    /\ In extension imageExtensions
    /\ Js.endsWith (Js.toLowerCase file) extension = true
    /\ In keyword commonNames
    /\ Js.includes (Js.toLowerCase file) keyword = true.
Proof.
  intros H Himg. apply getAvailableBoards_from in H.
  destruct H as [root [entry [H1 [_ H2]]]].
  unfold analyzeBoardDirectory in H2.
  destruct (negb (hasProjectsInDirectory fs _)); [discriminate|].
  injection H2 as <-. cbn [BoardInfo.id BoardInfo.imagePath] in *.
  unfold findBoardImage in Himg. unfold entryNames.
  destruct (readdirNames fs (path.join [root; Dirent.name entry])) as [files|e] eqn:R;
    cbn [bind orOnError] in *; [|discriminate].
  apply findBoardImageLoop_from in Himg.
  destruct Himg as [file [F1 [F2 F3]]]. cbv zeta in F3. destruct F3 as [F3 F4].
  destruct (image_name_shape file F3 F4) as [extension [keyword S]].
  exists root, file, extension, keyword.
  destruct S as [S1 [S2 [S3 S4]]]. repeat split; try assumption.
  rewrite R. exact F1.
Qed.

Lemma board_image_is_an_image_entry_witness :
  exists root file extension keyword,
    In root (Rule.boardRoots Kit.fs "/kit")
    /\ In file (entryNames Kit.fs (path.join [root; "STM32F4-DISCO"]))
    /\ "/kit/Projects/STM32F4-DISCO/Board_Photo.PNG"
       = path.join [path.join [root; "STM32F4-DISCO"]; file]
    /\ In extension imageExtensions
    /\ Js.endsWith (Js.toLowerCase file) extension = true
    /\ In keyword commonNames
    /\ Js.includes (Js.toLowerCase file) keyword = true.
Proof.
  apply (board_image_is_an_image_entry Kit.fs "/kit"
           {| BoardInfo.id := "STM32F4-DISCO";
              BoardInfo.name := "STM32F4 DISCOVERY";
              BoardInfo.description :=
                "STM32 Development Board: STM32F4 DISCOVERY (STM32F407)";
              BoardInfo.imagePath :=
                Some "/kit/Projects/STM32F4-DISCO/Board_Photo.PNG";
              BoardInfo.mcu := "STM32F407" |}
           "/kit/Projects/STM32F4-DISCO/Board_Photo.PNG").
  - vm_compute. tauto.
  - reflexivity.
Defined.

(** ** Joining a directory and a plain name *)

Section JoinPlain.

Lemma includes_cons_false c s t :
  Js.includes (String c s) t = false -> Js.includes s t = false.
Proof. cbn [Js.includes]. intros H. apply orb_false_iff in H. tauto. Qed.

Lemma split_no_slash f : Js.includes f "/" = false -> path.split f = [f].
Proof.
  induction f as [|c f IH]; intros H; [reflexivity|].
  cbn [path.split]. destruct (Ascii.eqb c "/") eqn:E.
  - apply Ascii.eqb_eq in E. subst c. cbn in H. discriminate.
  - rewrite IH by (eapply includes_cons_false; exact H). reflexivity.
Qed.

Lemma split_nonempty s : path.split s <> [].
Proof.
  destruct s as [|c s]; cbn [path.split]; [discriminate|].
  destruct (Ascii.eqb c "/"); [discriminate|].
  destruct (path.split s); discriminate.
Qed.

Lemma split_slash a b :
  path.split (a ++ String "/" b) = (path.split a ++ path.split b)%list.
Proof.
  induction a as [|c a IH]; [reflexivity|].
  cbn [append path.split]. destruct (Ascii.eqb c "/"); rewrite IH.
  - reflexivity.
  - pose proof (split_nonempty a) as N.
    destruct (path.split a) as [|h t]; [congruence|]. reflexivity.
Qed.

Lemma normalizeSegments_last allow stack l f :
  f <> "" -> f <> "." -> f <> ".." ->
  exists stack',
    path.normalizeSegments allow stack (l ++ [f]) = (rev stack' ++ [f])%list.
Proof.
  intros H1 H2 H3. revert stack.
  induction l as [|seg l IH]; intros stack.
  - exists stack. cbn [app path.normalizeSegments].
    apply String.eqb_neq in H1, H2, H3. rewrite H1, H2, H3. reflexivity.
  - cbn [app path.normalizeSegments].
    destruct (String.eqb seg "" || String.eqb seg "."); [apply IH|].
    destruct (String.eqb seg ".."); [|apply IH].
    destruct stack as [|top below]; [apply IH|].
    destruct (String.eqb top ".."); apply IH.
Qed.

Lemma concatWith_last sep l f :
  path.concatWith sep (l ++ [f])
  = match l with
    | [] => f
    | _ => path.concatWith sep l ++ sep ++ f
    end.
Proof.
  induction l as [|x l IH]; [reflexivity|].
  cbn [app]. destruct l as [|y l].
  - reflexivity.
  - change (path.concatWith sep (x :: (y :: l) ++ [f]))
      with (x ++ sep ++ path.concatWith sep ((y :: l) ++ [f])).
    rewrite IH.
    change (path.concatWith sep (x :: y :: l))
      with (x ++ sep ++ path.concatWith sep (y :: l)).
    rewrite !append_assoc. reflexivity.
Qed.

Lemma no_slash_not_last a f :
  f <> "" -> Js.includes f "/" = false -> Js.endsWith (a ++ f) "/" = false.
Proof.
  intros N H. apply not_true_is_false. intros T.
  apply endsWith_iff in T. destruct T as [b Hb].
  assert (L : exists f' c, f = f' ++ String c "").
  { clear -N. induction f as [|x f IH]; [congruence|].
    destruct f as [|y f].
    - exists "", x. reflexivity.
    - destruct IH as [f' [c E]]; [discriminate|].
      exists (String x f'), c. cbn. rewrite <- E. reflexivity. }
  destruct L as [f' [c E]]. rewrite E, <- append_assoc in Hb.
  apply last_char_unique in Hb. subst c.
  assert (I : Js.includes f "/" = true)
    by (apply includes_iff; exists f', ""; exact E).
  congruence.
Qed.

Lemma normalize_nonempty p :
  p <> "" ->
  path.normalize p
  = let isAbsolute := Js.startsWith p "/" in
    let trailingSeparator := Js.endsWith p "/" in
    let body :=
      path.concatWith "/"
        (path.normalizeSegments (negb isAbsolute) [] (path.split p)) in
    match body with
    | EmptyString =>
        if isAbsolute then "/" else if trailingSeparator then "./" else "."
    | _ =>
        let body' := if trailingSeparator then body ++ "/" else body in
        if isAbsolute then "/" ++ body' else body'
    end.
Proof. destruct p; [congruence|reflexivity]. Qed.

Lemma normalize_plain_tail a f :
  plainName f ->
  let p := a ++ f in
  (a = "" \/ exists a', a = a' ++ "/") ->
  path.normalize p = f \/ exists pre, path.normalize p = pre ++ String "/" f.
Proof.
  intros [N1 [N2 [N3 N4]]] p Ha. subst p.
  assert (S : exists l, path.split (a ++ f) = (l ++ [f])%list).
  { destruct Ha as [->|[a' ->]].
    - exists []. cbn [append app]. apply split_no_slash. exact N4.
    - exists (path.split a'). rewrite append_assoc. cbn [append].
      rewrite split_slash, (split_no_slash f N4). reflexivity. }
  destruct S as [l Sl]. rewrite normalize_nonempty.
  2:{ destruct a; [cbn; congruence|discriminate]. }
  cbv zeta. rewrite (no_slash_not_last a f N1 N4). rewrite Sl.
  destruct (normalizeSegments_last (negb (Js.startsWith (a ++ f) "/")) [] l f
              N1 N2 N3) as [stack' ->].
  rewrite concatWith_last.
  destruct (rev stack') as [|x t] eqn:R.
  - destruct f as [|c f]; [congruence|].
    destruct (Js.startsWith (a ++ String c f) "/").
    + right. exists "". reflexivity.
    + left. reflexivity.
  - remember (path.concatWith "/" (x :: t)) as body eqn:B.
    destruct (body ++ "/" ++ f) as [|c b] eqn:Q.
    { destruct body; discriminate. }
    rewrite <- Q. right.
    destruct (Js.startsWith (a ++ f) "/").
    + exists ("/" ++ body). rewrite append_assoc. reflexivity.
    + exists body. reflexivity.
Qed.

(** [path.join(dir, name)] for a plain name is the name itself or ends
    in a separator followed by the name. *)
Lemma join_plain dir f :
  plainName f ->
  path.join [dir; f] = f \/ exists pre, path.join [dir; f] = pre ++ String "/" f.
Proof.
  intros Hf. pose proof Hf as [N1 _]. unfold path.join. cbn [filter].
  apply String.eqb_neq in N1. rewrite N1. cbn [negb].
  destruct (String.eqb dir "") eqn:D; cbn [negb path.concatWith].
  - apply (normalize_plain_tail "" f Hf). left. reflexivity.
  - replace (dir ++ "/" ++ f) with ((dir ++ "/") ++ f)
      by (rewrite append_assoc; reflexivity).
    apply (normalize_plain_tail (dir ++ "/") f Hf). right. eauto.
Qed.

Lemma join_plain_endsWith dir f :
  plainName f -> Js.endsWith (path.join [dir; f]) f = true.
Proof.
  intros Hf. apply endsWith_iff.
  destruct (join_plain dir f Hf) as [->|[pre ->]].
  - exists "". reflexivity.
  - exists (pre ++ "/"). rewrite append_assoc. reflexivity.
Qed.

End JoinPlain.

(** ** Package identification without an XML descriptor *)

Section Descriptor.

Variables (fs : FileSystem) (parsers : Parsers).

Lemma findDescriptorByName_find packagePath names :
  findDescriptorByName fs packagePath names
  = option_map (fun n => path.join [packagePath; n])
      (find (fun n => pathExists fs (path.join [packagePath; n])) names).
Proof.
  induction names as [|n names IH]; [reflexivity|].
  cbn [findDescriptorByName find].
  destruct (pathExists fs (path.join [packagePath; n])); [reflexivity|exact IH].
Qed.

Lemma findDescriptorByName_none packagePath names :
  (forall n, In n names -> pathExists fs (path.join [packagePath; n]) = false) ->
  findDescriptorByName fs packagePath names = None.
Proof.
  induction names as [|n names IH]; intros H; [reflexivity|].
  cbn [findDescriptorByName]. rewrite (H n (or_introl eq_refl)).
  apply IH. intros m Hm. apply H. right. exact Hm.
Qed.

Lemma findPdscInRoot_none packagePath files :
  (forall f, In f files -> Js.endsWith f ".pdsc" = false) ->
  findPdscInRoot packagePath files = None.
Proof.
  induction files as [|f files IH]; intros H; [reflexivity|].
  cbn [findPdscInRoot]. rewrite (H f (or_introl eq_refl)).
  apply IH. intros m Hm. apply H. right. exact Hm.
Qed.

Lemma findPdscInRoot_from packagePath files file :
  findPdscInRoot packagePath files = Some file ->
  exists f, In f files /\ Js.endsWith f ".pdsc" = true
            /\ file = path.join [packagePath; f].
Proof.
  induction files as [|f files IH]; cbn [findPdscInRoot]; [discriminate|].
  destruct (Js.endsWith f ".pdsc") eqn:E.
  - intros H. injection H as <-. exists f. cbn [In]. auto.
  - intros H. destruct (IH H) as [g [H1 H2]]. exists g. cbn [In]. auto.
Qed.

Lemma endsWith_trans s t u :
  Js.endsWith s t = true -> Js.endsWith t u = true -> Js.endsWith s u = true.
Proof.
  rewrite !endsWith_iff. intros [a ->] [b ->]. exists (a ++ b).
  rewrite append_assoc. reflexivity.
Qed.

Lemma length_append (a b : string) :
  String.length (a ++ b) = (String.length a + String.length b)%nat.
Proof. induction a as [|c a IH]; cbn; [|rewrite IH]; reflexivity. Qed.

Lemma pdsc_name_is_plain f :
  Js.endsWith f ".pdsc" = true -> Js.includes f "/" = false -> plainName f.
Proof.
  intros E S. apply endsWith_iff in E. destruct E as [a ->].
  assert (L : (5 <= String.length (a ++ ".pdsc"))%nat)
    by (rewrite length_append; cbn; lia).
  repeat split; try exact S; intros Q; rewrite Q in L; cbn in L; lia.
Qed.

End Descriptor.

(** X5.  A package root that holds none of the descriptor names
    package.xml, package.pdsc, .pdsc, package.json: when the root cannot
    be listed, [analyzePackage] fails with the listing error wrapped as
    "Failed to analyze package"; when it lists and no entry ends in
    .pdsc, the package is named after the root directory, with version
    "Unknown" and the description "STM32 Package: <name>". *)
Theorem package_without_descriptor
    (fs : FileSystem) (parsers : Parsers) (packagePath : string) :
  (forall n, In n possibleFiles ->
             pathExists fs (path.join [packagePath; n]) = false) ->
  match readdirNames fs packagePath with
  | Err error =>
      analyzePackage fs parsers packagePath
      = Err ("Error: Failed to analyze package: " ++ error)
  | Ok files =>
      (forall f, In f files -> Js.endsWith f ".pdsc" = false) ->
      analyzePackage fs parsers packagePath
      = Ok {| PackageInfo.name := path.basename packagePath;
              PackageInfo.version := "Unknown";
              PackageInfo.path := packagePath;
              PackageInfo.description :=
                Some ("STM32 Package: " ++ path.basename packagePath) |}
  end.
Proof.
  intros H. unfold analyzePackage, findPackageDescriptor.
  rewrite (findDescriptorByName_none fs packagePath possibleFiles H).
  destruct (readdirNames fs packagePath) as [files|error]; cbn [bind tryCatch].
  - intros P. rewrite (findPdscInRoot_none packagePath files P). reflexivity.
  - reflexivity.
Qed.

Lemma package_without_descriptor_witness :
  analyzePackage Sample.flatFs Sample.rejectingParsers "/flat"
  = Ok {| PackageInfo.name := "flat";
          PackageInfo.version := "Unknown";
          PackageInfo.path := "/flat";
          PackageInfo.description := Some "STM32 Package: flat" |}.
Proof.
  refine (package_without_descriptor Sample.flatFs Sample.rejectingParsers
            "/flat" _ _).
  - intros n [<-|[<-|[<-|[<-|[]]]]]; reflexivity.
  - intros f [<-|[]]. reflexivity.
Defined.

(** X6.  With a descriptor whose name ends in .json, [analyzePackage]
    reads name, version and description off the parsed object, with
    "Unknown Package" and "1.0.0" for a name or version that is absent or
    empty, and takes the descriptor's directory as the package path; a
    content that does not parse, or parses to [null], makes it fail with
    the error wrapped as "Failed to analyze package". *)
Theorem json_descriptor_is_read
    (fs : FileSystem) (parsers : Parsers) (packagePath file content : string) :
  findPackageDescriptor fs packagePath = Ok (Some file) ->
  Js.endsWith file ".json" = true ->
  readFile fs file = Ok content ->
  match JSONparse parsers content with
  | Err error =>
      analyzePackage fs parsers packagePath
      = Err ("Error: Failed to analyze package: " ++ error)
  | Ok None =>
      exists error,
        analyzePackage fs parsers packagePath
        = Err ("Error: Failed to analyze package: " ++ error)
  | Ok (Some json) =>
      analyzePackage fs parsers packagePath
      = Ok {| PackageInfo.name := Js.orElse (jsonName json) "Unknown Package";
              PackageInfo.version := Js.orElse (jsonVersion json) "1.0.0";
              PackageInfo.path := path.dirname file;
              PackageInfo.description := jsonDescription json |}
  end.
Proof.
  intros Hfind Hjson Hread. unfold analyzePackage. rewrite Hfind. cbn [bind].
  unfold parsePackageDescriptor. rewrite Hread. cbn [bind]. rewrite Hjson.
  destruct (JSONparse parsers content) as [[json|]|error]; cbn [bind tryCatch].
  - reflexivity.
  - eexists. reflexivity.
  - reflexivity.
Qed.

Lemma json_descriptor_is_read_witness :
  analyzePackage Kit.fs Kit.parsers "/kit"
  = Ok {| PackageInfo.name := "Kit";
          PackageInfo.version := "1.0.0";
          PackageInfo.path := "/kit";
          PackageInfo.description := None |}.
Proof.
  exact (json_descriptor_is_read Kit.fs Kit.parsers "/kit" "/kit/package.json"
           "{}" eq_refl eq_refl eq_refl).
Defined.

(** X7.  Whatever [findPackageDescriptor] returns ends in .xml, .pdsc or
    .json, provided the names of the root's listing hold no separator:
    the descriptor is always parsed as JSON or as XML. *)
Theorem descriptor_has_known_extension
    (fs : FileSystem) (packagePath file : string) :
  (forall files f, readdirNames fs packagePath = Ok files -> In f files ->
                   Js.includes f "/" = false) ->
  findPackageDescriptor fs packagePath = Ok (Some file) ->
  Js.endsWith file ".json" || Js.endsWith file ".pdsc" || Js.endsWith file ".xml"
  = true.
Proof.
  intros Hplain. unfold findPackageDescriptor.
  rewrite findDescriptorByName_find.
  destruct (find _ possibleFiles) as [n|] eqn:F; cbn [option_map].
  - intros H. injection H as <-. apply find_some in F. destruct F as [Hn _].
    assert (P : plainName n /\
                (Js.endsWith n ".json" || Js.endsWith n ".pdsc"
                 || Js.endsWith n ".xml" = true)).
    { cbn in Hn. destruct Hn as [<-|[<-|[<-|[<-|[]]]]];
        (split; [repeat split; (discriminate || reflexivity)|reflexivity]). }
    destruct P as [P E].
    pose proof (join_plain_endsWith packagePath n P) as J.
    apply orb_true_iff in E. destruct E as [E|E];
      [apply orb_true_iff in E; destruct E as [E|E]|].
    + rewrite (endsWith_trans _ _ _ J E). reflexivity.
    + rewrite (endsWith_trans _ _ _ J E). apply orb_true_iff. left. apply orb_true_r.
    + rewrite (endsWith_trans _ _ _ J E). apply orb_true_r.
  - destruct (readdirNames fs packagePath) as [files|error] eqn:R;
      cbn [bind]; [|discriminate].
    intros H. injection H as H. apply findPdscInRoot_from in H.
    destruct H as [f [H1 [H2 ->]]].
    pose proof (pdsc_name_is_plain f H2 (Hplain files f eq_refl H1)) as P.
    pose proof (join_plain_endsWith packagePath f P) as J.
    rewrite (endsWith_trans _ _ _ J H2). apply orb_true_iff. left. apply orb_true_r.
Qed.

Lemma descriptor_has_known_extension_witness :
  Js.endsWith "/kit/package.json" ".json"
  || Js.endsWith "/kit/package.json" ".pdsc"
  || Js.endsWith "/kit/package.json" ".xml" = true.
Proof.
  apply (descriptor_has_known_extension Kit.fs "/kit" "/kit/package.json").
  - intros files f H. vm_compute in H. injection H as <-.
    intros [<-|[<-|[]]]; reflexivity.
  - reflexivity.
Defined.

(** ** What an import leaves behind *)

(** X8.  An import that returns a path has asked the file system for
    exactly one copy, which succeeded: from one of the three probed
    paths, which exists, to the returned path, which is the picked
    folder joined with the project name. *)
Theorem import_success_means_copied
    (fs : FileSystem) (dialog : option string)
    (packagePath boardId projectName target : string) :
  returned (importProject fs dialog packagePath boardId projectName) = Ok target ->
  exists folder source,
    dialog = Some folder
    /\ target = path.join [folder; projectName]
    /\ copyRequested (importProject fs dialog packagePath boardId projectName)
       = Some (source, target)
    /\ In source (possiblePaths packagePath boardId projectName)
    /\ pathExists fs source = true
    /\ copy fs source target = Ok tt.
Proof.
  destruct dialog as [folder|]; [|cbn; discriminate].
  rewrite importProject_prepared.
  destruct (find (pathExists fs) (possiblePaths packagePath boardId projectName))
    as [source|] eqn:F; cbn [returned copyRequested]; [|discriminate].
  cbv zeta. destruct (copy fs source (path.join [folder; projectName])) as [[]|e] eqn:C;
    [|discriminate].
  intros H. injection H as <-. apply find_some in F. destruct F as [F1 F2].
  exists folder, source. repeat split; assumption.
Qed.

Lemma import_success_means_copied_witness :
  exists folder source,
    Some "/work" = Some folder
    /\ "/work/Examples/Foo" = path.join [folder; "Examples/Foo"]
    /\ copyRequested
         (importProject Sample.stm32Fs (Some "/work") "/pkg" "NUCLEO-U575ZI-Q"
            "Examples/Foo")
       = Some (source, "/work/Examples/Foo")
    /\ In source (possiblePaths "/pkg" "NUCLEO-U575ZI-Q" "Examples/Foo")
    /\ pathExists Sample.stm32Fs source = true
    /\ copy Sample.stm32Fs source "/work/Examples/Foo" = Ok tt.
Proof.
  apply (import_success_means_copied Sample.stm32Fs (Some "/work") "/pkg"
           "NUCLEO-U575ZI-Q" "Examples/Foo" "/work/Examples/Foo").
  reflexivity.
Defined.

(** X9.  Every error [importProject] throws reads "Failed to import
    project: <cause>".  Either nothing was copied (no folder picked, or
    no source found), or the one copy asked for failed and its error is
    the cause; with no folder picked the cause is "No import location
    selected". *)
Theorem import_failure_is_wrapped
    (fs : FileSystem) (dialog : option string)
    (packagePath boardId projectName error : string) :
  returned (importProject fs dialog packagePath boardId projectName) = Err error ->
  exists cause,
    error = "Error: Failed to import project: " ++ cause
    /\ match copyRequested (importProject fs dialog packagePath boardId projectName) with
       | None =>
           (dialog = None -> cause = "Error: No import location selected")
       | Some (source, target) => copy fs source target = Err cause
       end.
Proof.
  destruct dialog as [folder|].
  - rewrite importProject_prepared.
    destruct (find (pathExists fs) (possiblePaths packagePath boardId projectName))
      as [source|]; cbn [returned copyRequested]; cbv zeta.
    + destruct (copy fs source (path.join [folder; projectName])) as [[]|e] eqn:C;
        [discriminate|].
      intros H. injection H as <-. exists e. split; [reflexivity|first [exact C|reflexivity]].
    + intros H. injection H as <-. eexists. split; [reflexivity|discriminate].
  - cbn. intros H. injection H as <-. eexists. split; reflexivity.
Qed.

Lemma import_failure_is_wrapped_witness :
  exists cause,
    "Error: Failed to import project: Error: No import location selected"
    = "Error: Failed to import project: " ++ cause
    /\ (@None string = None -> cause = "Error: No import location selected").
Proof.
  exact (import_failure_is_wrapped Sample.stm32Fs None "/pkg" "NUCLEO-U575ZI-Q"
           "Examples/Foo"
           "Error: Failed to import project: Error: No import location selected"
           eq_refl).
Defined.

(** ** Formatted names *)

Section FormattedNames.

Lemma formatProjectName_rule name :
  formatProjectName name
  = Applied.capitalizeWords false (Rule.hyphensToSpaces name).
Proof.
  unfold formatProjectName, RegExp.replaceAll.
  change (fun _ : string => " ")
    with (fun _ : string => String " "%char EmptyString).
  rewrite (replace_class_map dashOrUnderscore " " None).
  apply (replace_capitalize None).
Qed.

Lemma isWord_upperChar c : Js.isWord (Js.upperChar c) = Js.isWord c.
Proof. destruct c as [[] [] [] [] [] [] [] []]; reflexivity. Qed.

Lemma upperChar_upperChar c : Js.upperChar (Js.upperChar c) = Js.upperChar c.
Proof. destruct c as [[] [] [] [] [] [] [] []]; reflexivity. Qed.

Lemma dash_upperChar c : dashOrUnderscore (Js.upperChar c) = dashOrUnderscore c.
Proof. destruct c as [[] [] [] [] [] [] [] []]; reflexivity. Qed.

Lemma capitalizeWords_idempotent b s :
  Applied.capitalizeWords b (Applied.capitalizeWords b s) = Applied.capitalizeWords b s.
Proof.
  revert b. induction s as [|c r IH]; intros b; [reflexivity|].
  cbn [Applied.capitalizeWords].
  destruct (Js.isWord c && negb b) eqn:E.
  - rewrite isWord_upperChar, E, upperChar_upperChar, IH. reflexivity.
  - rewrite E, IH. reflexivity.
Qed.

Lemma capitalizeWords_length b s :
  String.length (Applied.capitalizeWords b s) = String.length s.
Proof.
  revert b. induction s as [|c r IH]; intros b; [reflexivity|].
  cbn. rewrite IH. reflexivity.
Qed.

Lemma map_length f s : String.length (Js.map f s) = String.length s.
Proof. induction s as [|c r IH]; cbn; [|rewrite IH]; reflexivity. Qed.

Lemma hyphensToSpaces_clean s :
  Js.all (fun c => negb (dashOrUnderscore c)) (Rule.hyphensToSpaces s) = true.
Proof.
  induction s as [|c r IH]; [reflexivity|].
  cbn [Rule.hyphensToSpaces Js.map Js.all].
  fold (Rule.hyphensToSpaces r). rewrite IH, andb_true_r.
  destruct (dashOrUnderscore c) eqn:D; [reflexivity|rewrite D; reflexivity].
Qed.

Lemma capitalizeWords_clean b s :
  Js.all (fun c => negb (dashOrUnderscore c)) s = true ->
  Js.all (fun c => negb (dashOrUnderscore c)) (Applied.capitalizeWords b s) = true.
Proof.
  revert b. induction s as [|c r IH]; intros b; [reflexivity|].
  cbn [Js.all Applied.capitalizeWords]. rewrite andb_true_iff. intros [H1 H2].
  rewrite (IH _ H2), andb_true_r.
  destruct (Js.isWord c && negb b); [rewrite dash_upperChar|]; exact H1.
Qed.

Lemma hyphensToSpaces_of_clean s :
  Js.all (fun c => negb (dashOrUnderscore c)) s = true ->
  Rule.hyphensToSpaces s = s.
Proof.
  induction s as [|c r IH]; [reflexivity|].
  cbn [Js.all Rule.hyphensToSpaces Js.map]. rewrite andb_true_iff. intros [H1 H2].
  fold (Rule.hyphensToSpaces r). rewrite (IH H2).
  destruct (dashOrUnderscore c); [discriminate|reflexivity].
Qed.

Lemma hyphensToSpaces_idempotent s :
  Rule.hyphensToSpaces (Rule.hyphensToSpaces s) = Rule.hyphensToSpaces s.
Proof. apply hyphensToSpaces_of_clean, hyphensToSpaces_clean. Qed.

Lemma formatBoardName_after_hyphens name :
  formatBoardName (Rule.hyphensToSpaces name) = formatBoardName name.
Proof.
  unfold formatBoardName, RegExp.replaceAll.
  change (fun _ : string => " ")
    with (fun _ : string => String " "%char EmptyString).
  rewrite !(replace_class_map dashOrUnderscore " " None).
  fold Rule.hyphensToSpaces. rewrite hyphensToSpaces_idempotent. reflexivity.
Qed.

End FormattedNames.

(** X10.  [formatProjectName] keeps the length of the name, leaves no
    hyphen or underscore in it, and formatting a formatted name changes
    nothing. *)
Theorem formatProjectName_is_stable (name : string) :
  String.length (formatProjectName name) = String.length name
  /\ Js.all (fun c => negb (dashOrUnderscore c)) (formatProjectName name) = true
  /\ formatProjectName (formatProjectName name) = formatProjectName name.
Proof.
  rewrite !formatProjectName_rule.
  split; [rewrite capitalizeWords_length; apply map_length|].
  assert (C : Js.all (fun c => negb (dashOrUnderscore c))
                (Applied.capitalizeWords false (Rule.hyphensToSpaces name)) = true)
    by (apply capitalizeWords_clean, hyphensToSpaces_clean).
  split; [exact C|].
  rewrite (hyphensToSpaces_of_clean _ C). apply capitalizeWords_idempotent.
Qed.

(** X11.  The display name of a board does not tell a hyphen, an
    underscore and a space apart: names that agree once these are
    replaced by spaces have the same display name. *)
Theorem display_name_ignores_separators (a b : string) :
  Rule.hyphensToSpaces a = Rule.hyphensToSpaces b ->
  formatBoardName a = formatBoardName b.
Proof.
  intros H. rewrite <- (formatBoardName_after_hyphens a),
    <- (formatBoardName_after_hyphens b), H. reflexivity.
Qed.

Lemma display_name_ignores_separators_witness :
  formatBoardName "NUCLEO-U575ZI-Q" = formatBoardName "NUCLEO_U575ZI Q".
Proof.
  apply (display_name_ignores_separators "NUCLEO-U575ZI-Q" "NUCLEO_U575ZI Q").
  reflexivity.
Defined.

(** X13.  Project names are no keys: two subdirectories of a category
    folder whose names agree once hyphens and underscores are replaced by
    spaces are both returned by [getProjectsForBoard], under the same
    name, each with its own directory as path. *)
Theorem sibling_projects_share_a_name
    (fs : FileSystem) (packagePath boardId category : string)
    (entries : list Dirent.t) (e1 e2 : Dirent.t) :
  let categoryPath :=
    path.join [boardPathOf packagePath boardId; category] in
  pathExists fs (boardPathOf packagePath boardId) = true ->
  In category categoryNames ->
  pathExists fs categoryPath = true ->
  readdir fs categoryPath = Ok entries ->
  In e1 entries -> Dirent.isDirectory e1 = true ->
  In e2 entries -> Dirent.isDirectory e2 = true ->
  Rule.hyphensToSpaces (Dirent.name e1) = Rule.hyphensToSpaces (Dirent.name e2) ->
  exists projects p1 p2,
    getProjectsForBoard fs packagePath boardId = Ok projects
    /\ In p1 projects /\ In p2 projects
    /\ ProjectInfo.name p1 = ProjectInfo.name p2
    /\ ProjectInfo.path p1 = path.join [categoryPath; Dirent.name e1]
    /\ ProjectInfo.path p2 = path.join [categoryPath; Dirent.name e2].
Proof.
  cbv zeta. intros Hb Hc Hp Hr H1 D1 H2 D2 Hn.
  unfold getProjectsForBoard. cbv zeta. rewrite Hb.
  eexists.
  exists (addCategoryPrefix category
            (Applied.projectOf fs
               (path.join [boardPathOf packagePath boardId; category]) e1)),
         (addCategoryPrefix category
            (Applied.projectOf fs
               (path.join [boardPathOf packagePath boardId; category]) e2)).
  split; [reflexivity|].
  split; [apply getProjectsForBoardLoop_In; exists category, entries, e1; auto 8|].
  split; [apply getProjectsForBoardLoop_In; exists category, entries, e2; auto 8|].
  cbn [addCategoryPrefix Applied.projectOf ProjectInfo.name ProjectInfo.path].
  rewrite !formatProjectName_rule, Hn. auto.
Qed.

Lemma sibling_projects_share_a_name_witness :
  exists projects p1 p2,
    getProjectsForBoard Kit.fs "/kit" "STM32F4-DISCO" = Ok projects
    /\ In p1 projects /\ In p2 projects
    /\ ProjectInfo.name p1 = ProjectInfo.name p2
    /\ ProjectInfo.path p1 = "/kit/Projects/STM32F4-DISCO/Examples/GPIO_EXTI"
    /\ ProjectInfo.path p2 = "/kit/Projects/STM32F4-DISCO/Examples/GPIO-EXTI".
Proof.
  apply (sibling_projects_share_a_name Kit.fs "/kit" "STM32F4-DISCO" "Examples"
           [Dirent.mk "GPIO_EXTI" true; Dirent.mk "GPIO-EXTI" true]
           (Dirent.mk "GPIO_EXTI" true) (Dirent.mk "GPIO-EXTI" true));
    try reflexivity; cbn; tauto.
Defined.

(** ** The white space of a display name *)

Section Tidy.

Lemma collapse_looselySpaced b s :
  looselySpaced b (Applied.collapseSpaces b s) = true.
Proof.
  revert b. induction s as [|c r IH]; intros b; [reflexivity|].
  cbn [Applied.collapseSpaces]. destruct (Js.isSpace c) eqn:S.
  - destruct b; [apply IH|]. cbn [looselySpaced].
    change (Js.isSpace " ") with true. cbn. apply IH.
  - cbn [looselySpaced]. rewrite S. apply IH.
Qed.

Lemma trimStart_looselySpaced b b' s :
  looselySpaced b s = true -> looselySpaced b' (Js.trimStart s) = true.
Proof.
  revert b. induction s as [|c r IH]; intros b; [reflexivity|].
  cbn [looselySpaced Js.trimStart]. destruct (Js.isSpace c) eqn:S.
  - rewrite !andb_true_iff. intros [_ H]. apply (IH true). exact H.
  - intros H. cbn [looselySpaced]. rewrite S. exact H.
Qed.

Lemma trimEnd_spaced b s :
  looselySpaced b s = true ->
  Js.trimEnd s = "" \/ spaced b (Js.trimEnd s) = true.
Proof.
  revert b. induction s as [|c r IH]; intros b; [left; reflexivity|].
  cbn [looselySpaced Js.trimEnd]. destruct (Js.isSpace c) eqn:S.
  - rewrite !andb_true_iff. intros [[H1 H2] H3].
    destruct (IH true H3) as [E|E].
    + rewrite E. left. reflexivity.
    + destruct (Js.trimEnd r) as [|x t]; [cbn in E; discriminate|].
      right. cbn [spaced] in *. rewrite S, H1, H2. exact E.
  - intros H. right. destruct (IH false H) as [E|E].
    + rewrite E. cbn [spaced]. rewrite S. reflexivity.
    + destruct (Js.trimEnd r) as [|x t]; cbn [spaced] in *; rewrite S;
        [reflexivity|exact E].
Qed.

Lemma trim_collapse_tidy s :
  tidy (Js.trim (Applied.collapseSpaces false s)) = true.
Proof.
  unfold Js.trim, tidy.
  pose proof (trimStart_looselySpaced false true _ (collapse_looselySpaced false s)) as L.
  destruct (trimEnd_spaced true _ L) as [E|E].
  - rewrite E. reflexivity.
  - destruct (Js.trimEnd _); [reflexivity|exact E].
Qed.

Lemma spaced_word b w z :
  w <> "" -> Js.all (fun c => negb (Js.isSpace c)) w = true ->
  spaced b (w ++ z) = spaced false z.
Proof.
  revert b. induction w as [|c w IH]; intros b N; [congruence|].
  cbn [Js.all append spaced]. rewrite andb_true_iff. intros [H1 H2].
  apply negb_true_iff in H1. rewrite H1.
  destruct w as [|d w]; [reflexivity|]. apply IH; [discriminate|exact H2].
Qed.

Lemma spaced_more z extra :
  Js.all (fun c => negb (Js.isSpace c)) extra = true ->
  spaced false (extra ++ z) = spaced false z.
Proof.
  intros H. destruct extra as [|c w]; [reflexivity|].
  apply spaced_word; [discriminate|exact H].
Qed.

Lemma spaced_insert b a pat extra rest :
  pat <> "" ->
  Js.all (fun c => negb (Js.isSpace c)) pat = true ->
  Js.all (fun c => negb (Js.isSpace c)) extra = true ->
  spaced b (a ++ pat ++ rest) = true ->
  spaced b (a ++ (pat ++ extra) ++ rest) = true.
Proof.
  intros N P E. revert b. induction a as [|c a IH]; intros b.
  - cbn [append]. rewrite append_assoc, !spaced_word by assumption.
    rewrite spaced_more by assumption. auto.
  - cbn [append spaced]. destruct (Js.isSpace c).
    + rewrite !andb_true_iff. intros [H1 H2]. split; [exact H1|apply IH; exact H2].
    + apply IH.
Qed.

Lemma drop_append a b : Js.drop (String.length a) (a ++ b) = b.
Proof. induction a as [|c a IH]; [destruct b; reflexivity|exact IH]. Qed.

Lemma replaceFirst_cases s pat rep :
  Js.replaceFirst s pat rep = s
  \/ exists a b, s = a ++ pat ++ b /\ Js.replaceFirst s pat rep = a ++ rep ++ b.
Proof.
  induction s as [|c r IH]; cbn [Js.replaceFirst].
  - destruct pat as [|p pat]; [|left; reflexivity].
    right. exists "", "". split; reflexivity.
  - destruct (Js.startsWith (String c r) pat) eqn:E.
    + apply startsWith_iff in E. destruct E as [b E]. right. exists "", b.
      split; [exact E|]. rewrite E. rewrite drop_append. reflexivity.
    + destruct IH as [IH|[a [b [H1 H2]]]].
      * left. rewrite IH. reflexivity.
      * right. exists (String c a), b. cbn [append]. rewrite <- H1, H2. auto.
Qed.

Lemma substitute_tidy pat extra s :
  pat <> "" ->
  Js.all (fun c => negb (Js.isSpace c)) pat = true ->
  Js.all (fun c => negb (Js.isSpace c)) extra = true ->
  tidy s = true -> tidy (Applied.substitute pat (pat ++ extra) s) = true.
Proof.
  intros N P E T. unfold Applied.substitute.
  destruct (replaceFirst_cases s pat (pat ++ extra)) as [->|[a [b [H1 ->]]]];
    [exact T|].
  subst s. unfold tidy in *.
  destruct (a ++ pat ++ b) as [|x t] eqn:Q.
  { destruct a; [destruct pat; [congruence|discriminate]|discriminate]. }
  rewrite <- Q in T. apply (spaced_insert true a pat extra b N P E) in T.
  destruct (a ++ (pat ++ extra) ++ b); [reflexivity|exact T].
Qed.

End Tidy.

(** X12.  The display name [formatBoardName] gives has white space only
    as single plain spaces between other characters: none at the start,
    none at the end, no two in a row, and no tab or line break. *)
Theorem display_name_is_tidy (name : string) :
  tidy (formatBoardName name) = true.
Proof.
  rewrite formatBoardName_applied. unfold Applied.displayName.
  apply (substitute_tidy "EVAL" "UATION"); try reflexivity; [discriminate|].
  apply (substitute_tidy "DISCO" "VERY"); try reflexivity; [discriminate|].
  apply (substitute_tidy "NUCLEO" "-"); try reflexivity; [discriminate|].
  apply trim_collapse_tidy.
Qed.
(** ** The import panel *)

Section PanelFacts.

Variable fs : FileSystem.
Variable parsers : Parsers.

Lemma analyzePackage_error packagePath error :
  analyzePackage fs parsers packagePath = Err error ->
  exists cause, error = "Error: Failed to analyze package: " ++ cause.
Proof.
  unfold analyzePackage, tryCatch.
  match goal with |- context [match ?b with Ok _ => _ | Err _ => _ end] =>
    destruct b as [info|e] end; [discriminate|].
  intros H. injection H as <-. exists e. reflexivity.
Qed.

Lemma importProject_outcome dialog packagePath boardId projectName :
  match returned (importProject fs dialog packagePath boardId projectName) with
  | Ok target =>
      exists source,
        copyRequested (importProject fs dialog packagePath boardId projectName)
        = Some (source, target)
        /\ copy fs source target = Ok tt
  | Err error =>
      exists cause, error = "Error: Failed to import project: " ++ cause
  end.
Proof.
  destruct dialog as [folder|].
  - rewrite importProject_prepared.
    destruct (find (pathExists fs) (possiblePaths packagePath boardId projectName))
      as [source|]; cbn [returned copyRequested]; cbv zeta.
    + destruct (copy fs source (path.join [folder; projectName])) as [[]|e] eqn:C.
      * exists source. split; [reflexivity|exact C].
      * exists e. reflexivity.
    + eexists. reflexivity.
  - cbn. eexists. reflexivity.
Qed.

Lemma existsb_app_false {A : Type} (f : A -> bool) (l1 l2 : list A) :
  existsb f l1 = false -> existsb f l2 = false -> existsb f (l1 ++ l2)%list = false.
Proof. intros H1 H2. rewrite existsb_app, H1, H2. reflexivity. Qed.

End PanelFacts.

(** X14.  Every [importProject] message is answered by exactly one
    message to the webview, posted last: an [importComplete].  It reports
    success only with the text "Import finished" and after a copy that
    succeeded; it reports failure with the error text, after an error
    notification that shows the same text. *)
Theorem import_request_is_answered_once
    (fs : FileSystem) (parsers : Parsers) (dialog openProject : option string)
    (openFolder : string -> result unit)
    (packagePath boardId projectName : string)
    (location targetName projectPath : option string) :
  exists before success text,
    Panel._handleMessage fs parsers dialog openProject openFolder
      (Panel.ImportProject packagePath boardId projectName
         location targetName projectPath)
    = (before ++ [Panel.Post (Panel.ImportComplete success text)])%list
    /\ existsb Panel.isPost before = false
    /\ if success
       then text = "Import finished"
            /\ exists source target,
                 In (Panel.CopyTree source target) before
                 /\ copy fs source target = Ok tt
       else In (Panel.ShowErrorMessage ("Failed to import project: " ++ text))
               before.
Proof.
  cbn [Panel._handleMessage]. unfold Panel._importProject, importProjectCall.
  pose proof (importProject_outcome fs dialog packagePath boardId projectName) as O.
  destruct (returned (importProject fs dialog packagePath boardId projectName))
    as [target|error].
  - destruct O as [source [O1 O2]]. rewrite O1.
    set (wants := match openProject with
                  | Some choice => String.eqb choice "Open Project"
                  | None => false
                  end).
    destruct wants.
    + destruct (openFolder target) as [[]|error].
      * eexists [_; _; _; _], true, _. split; [reflexivity|].
        split; [reflexivity|]. split; [reflexivity|].
        exists source, target. split; [left; reflexivity|exact O2].
      * eexists [_; _; _; _], false, _. split; [reflexivity|].
        split; [reflexivity|]. right; right; right; left. reflexivity.
    + eexists [_; _; _], true, _. split; [reflexivity|].
      split; [reflexivity|]. split; [reflexivity|].
      exists source, target. split; [left; reflexivity|exact O2].
  - destruct (copyRequested (importProject fs dialog packagePath boardId projectName))
      as [[source target]|].
    + eexists [_; _], false, _. split; [reflexivity|].
      split; [reflexivity|]. right; left. reflexivity.
    + eexists [_], false, _. split; [reflexivity|].
      split; [reflexivity|]. left. reflexivity.
Qed.

(** X15.  When [importProject] fails, the error notification of the panel
    carries the prefix twice: "Failed to import project: Error: Failed
    to import project: <cause>"; the webview is sent the text from
    "Error:" on, and no open-folder question is asked. *)
Theorem failed_import_repeats_the_prefix
    (fs : FileSystem) (parsers : Parsers) (dialog openProject : option string)
    (openFolder : string -> result unit)
    (packagePath boardId projectName error : string)
    (location targetName projectPath : option string) :
  returned (importProject fs dialog packagePath boardId projectName) = Err error ->
  exists cause copies,
    Panel._handleMessage fs parsers dialog openProject openFolder
      (Panel.ImportProject packagePath boardId projectName
         location targetName projectPath)
    = (copies
       ++ [ Panel.ShowErrorMessage
              ("Failed to import project: Error: Failed to import project: "
               ++ cause);
            Panel.Post
              (Panel.ImportComplete false
                 ("Error: Failed to import project: " ++ cause)) ])%list
    /\ (copies = []
        \/ exists source target,
             copies = [Panel.CopyTree source target]
             /\ copy fs source target = Err cause).
Proof.
  intros R. cbn [Panel._handleMessage].
  unfold Panel._importProject, importProjectCall. rewrite R.
  revert R. destruct dialog as [folder|].
  - rewrite importProject_prepared.
    destruct (find (pathExists fs) (possiblePaths packagePath boardId projectName))
      as [source|]; cbn [returned copyRequested]; cbv zeta.
    + destruct (copy fs source (path.join [folder; projectName])) as [[]|e] eqn:C;
        [discriminate|].
      intros H. injection H as <-. exists e, [Panel.CopyTree source (path.join [folder; projectName])].
      split; [reflexivity|]. right. eexists _, _. split; [reflexivity|exact C].
    + intros H. injection H as <-. eexists _, []. split; [reflexivity|left; reflexivity].
  - cbn. intros H. injection H as <-. eexists _, []. split; [reflexivity|left; reflexivity].
Qed.

Lemma failed_import_repeats_the_prefix_witness :
  exists cause copies,
    Panel._handleMessage Sample.stm32Fs Sample.rejectingParsers None None
      (fun _ => Ok tt)
      (Panel.ImportProject "/pkg" "NUCLEO-U575ZI-Q" "Examples/Foo"
         (Some "/work") (Some "Foo") None)
    = (copies
       ++ [ Panel.ShowErrorMessage
              ("Failed to import project: Error: Failed to import project: "
               ++ cause);
            Panel.Post
              (Panel.ImportComplete false
                 ("Error: Failed to import project: " ++ cause)) ])%list
    /\ (copies = []
        \/ exists source target,
             copies = [Panel.CopyTree source target]
             /\ copy Sample.stm32Fs source target = Err cause).
Proof.
  exact (failed_import_repeats_the_prefix Sample.stm32Fs Sample.rejectingParsers
           None None (fun _ => Ok tt) "/pkg" "NUCLEO-U575ZI-Q" "Examples/Foo"
           "Error: Failed to import project: Error: No import location selected"
           (Some "/work") (Some "Foo") None eq_refl).
Defined.

(** X16.  A package folder whose analysis fails is answered by one error
    notification, "Failed to analyze package: Error: Failed to analyze
    package: <cause>", and by nothing else: no message reaches the
    webview and no board is scanned for. *)
Theorem failed_analysis_posts_nothing
    (fs : FileSystem) (parsers : Parsers) (folder error : string)
    (openProject : option string) (openFolder : string -> result unit) :
  analyzePackage fs parsers folder = Err error ->
  exists cause,
    Panel._handleMessage fs parsers (Some folder) openProject openFolder
      Panel.SelectPackage
    = [ Panel.ShowErrorMessage
          ("Failed to analyze package: Error: Failed to analyze package: "
           ++ cause) ].
Proof.
  intros A. destruct (analyzePackage_error fs parsers folder error A) as [cause ->].
  exists cause. cbn [Panel._handleMessage]. unfold Panel._selectPackage.
  rewrite A. reflexivity.
Qed.

Lemma failed_analysis_posts_nothing_witness :
  exists cause,
    Panel._handleMessage Sample.stm32Fs Sample.rejectingParsers (Some "/pkg") None
      (fun _ => Ok tt) Panel.SelectPackage
    = [ Panel.ShowErrorMessage
          ("Failed to analyze package: Error: Failed to analyze package: "
           ++ cause) ].
Proof.
  exact (failed_analysis_posts_nothing Sample.stm32Fs Sample.rejectingParsers
           "/pkg"
           "Error: Failed to analyze package: Error: Unclosed root tag"
           None (fun _ => Ok tt) eq_refl).
Defined.
(** ** The import form *)

Section Form.

Import Webview.

Lemma run_posted s events message :
  In message (snd (run s events)) ->
  exists s' e, In e events /\ In message (snd (step s' e)).
Proof.
  revert s. induction events as [|e events IH]; intros s; cbn [run].
  - intros [].
  - destruct (step s e) as [s1 posted1] eqn:S.
    destruct (run s1 events) as [s2 posted2] eqn:R. cbn [snd].
    rewrite in_app_iff. intros [H|H].
    + exists s, e. split; [left; reflexivity|]. rewrite S. exact H.
    + specialize (IH s1). rewrite R in IH. destruct (IH H) as [s' [e' [I1 I2]]].
      exists s', e'. split; [right; exact I1|exact I2].
Qed.

Lemma canImport_true s :
  canImport s = true ->
  exists packageInfo board project,
    currentPackageInfo s = Some packageInfo
    /\ selectedBoard s = Some board
    /\ selectedProject s = Some project
    /\ Js.trim (projectNameValue s) <> ""
    /\ Js.trim (locationValue s) <> ""
    /\ locationValue s <> "Select location".
Proof.
  unfold canImport.
  destruct (currentPackageInfo s) as [packageInfo|]; [|discriminate].
  destruct (selectedBoard s) as [board|]; [|discriminate].
  destruct (selectedProject s) as [project|]; [|discriminate].
  rewrite !andb_true_iff, !negb_true_iff, !String.eqb_neq.
  intros [H1 [[H2 H3] H4]]. exists packageInfo, board, project. auto 10.
Qed.

Lemma canImport_false s :
  currentPackageInfo s = None -> canImport s = false.
Proof. unfold canImport. intros ->. reflexivity. Qed.

Lemma step_import s e packagePath boardId projectName location targetName projectPath :
  In (Panel.ImportProject packagePath boardId projectName
        location targetName projectPath) (snd (step s e)) ->
  canImport s = true
  /\ location = Some (locationValue s)
  /\ targetName = Some (Js.trim (projectNameValue s))
  /\ exists packageInfo board project,
       currentPackageInfo s = Some packageInfo
       /\ selectedBoard s = Some board
       /\ selectedProject s = Some project
       /\ packagePath = PackageInfo.path packageInfo
       /\ boardId = BoardInfo.id board
       /\ projectName = ProjectInfo.name project
       /\ projectPath = Some (ProjectInfo.path project).
Proof.
  destruct e as [v|v|v|v|v| | | |[info|boards|projects|success text|p]];
    cbn [step snd]; try (intros []; fail);
    try (intros [H|[]]; discriminate).
  - unfold onRepositoryChange. destruct v; [intros []|].
    destruct (currentPackageInfo s); cbn [snd]; [|intros []].
    intros [H|[]]; discriminate.
  - unfold onBoardChange.
    destruct (find _ (currentBoards s)); [|intros []].
    destruct (currentPackageInfo s); cbn [snd]; [|intros []].
    intros [H|[]]; discriminate.
  - unfold onImportClick. destruct (canImport s) eqn:C; [|intros []].
    destruct (currentPackageInfo s) as [packageInfo|] eqn:E1; [|intros []].
    destruct (selectedBoard s) as [board|] eqn:E2; [|intros []].
    destruct (selectedProject s) as [project|] eqn:E3; [|intros []].
    cbn [snd]. intros [H|[]]. injection H as <- <- <- <- <- <-.
    repeat split. exists packageInfo, board, project. auto 10.
Qed.

Lemma step_without_package s e :
  currentPackageInfo s = None ->
  (forall info, e <> Received (Panel.PackageSelected info)) ->
  currentPackageInfo (fst (step s e)) = None
  /\ forall message, In message (snd (step s e)) ->
       message = Panel.SelectPackage \/ message = Panel.BrowseLocation.
Proof.
  intros N P.
  destruct e as [v|v|v|v|v| | | |[info|boards|projects|success text|p]];
    cbn [step fst snd].
  - unfold onRepositoryChange. rewrite N.
    destruct v; (split; [reflexivity|intros message []]).
  - unfold onBoardChange. rewrite N.
    destruct (find _ (currentBoards s)); (split; [reflexivity|intros message []]).
  - split; [exact N|intros message []].
  - split; [exact N|intros message []].
  - split; [exact N|intros message []].
  - split; [exact N|]. intros message [<-|[]]. left; reflexivity.
  - split; [exact N|]. intros message [<-|[]]. right; reflexivity.
  - unfold onImportClick. rewrite (canImport_false s N).
    split; [exact N|intros message []].
  - exfalso. exact (P info eq_refl).
  - split; [exact N|intros message []].
  - split; [exact N|intros message []].
  - split; [|intros message []]. unfold handleImportComplete.
    destruct success; [reflexivity|exact N].
  - split; [|intros message []]. unfold handleLocationSelected.
    destruct p; exact N.
Qed.

Lemma includes_head c s :
  Js.includes (String c s) (String c "") = true.
Proof. apply includes_iff. exists "", s. reflexivity. Qed.

Lemma splitOn_plain f :
  Js.includes f "/" = false -> Js.includes f "\" = false ->
  splitOn isSeparator f = [f].
Proof.
  induction f as [|c f IH]; [reflexivity|]. intros H1 H2. cbn [splitOn].
  assert (S : isSeparator c = false).
  { unfold isSeparator. apply orb_false_iff. split; apply Ascii.eqb_neq; intros ->.
    - rewrite includes_head in H1. discriminate.
    - rewrite includes_head in H2. discriminate. }
  rewrite S, IH; [reflexivity| |].
  - exact (includes_cons_false _ _ _ H1).
  - exact (includes_cons_false _ _ _ H2).
Qed.

Lemma splitOn_nonempty sep s : splitOn sep s <> [].
Proof.
  destruct s as [|c s]; cbn [splitOn]; [discriminate|].
  destruct (sep c); [discriminate|]. destruct (splitOn sep s); discriminate.
Qed.

Lemma last_cons_nonempty (x : string) l d : l <> [] -> last (x :: l) d = last l d.
Proof. destruct l; [congruence|reflexivity]. Qed.

Lemma splitOn_two pre f :
  (2 <= List.length (splitOn isSeparator (pre ++ String "/" f)))%nat.
Proof.
  induction pre as [|c pre IH]; cbn [append splitOn].
  - change (isSeparator "/") with true. cbn [List.length].
    pose proof (splitOn_nonempty isSeparator f) as N.
    destruct (splitOn isSeparator f); [congruence|cbn [List.length]; lia].
  - destruct (isSeparator c); [cbn [List.length]; lia|].
    destruct (splitOn isSeparator (pre ++ String "/" f));
      cbn [List.length] in *; lia.
Qed.

Lemma splitOn_last pre f :
  Js.includes f "/" = false -> Js.includes f "\" = false ->
  pop (splitOn isSeparator (pre ++ String "/" f)) = f.
Proof.
  intros H1 H2. unfold pop. induction pre as [|c pre IH]; cbn [append splitOn].
  - change (isSeparator "/") with true.
    rewrite (splitOn_plain f H1 H2). reflexivity.
  - pose proof (splitOn_two pre f) as T.
    destruct (isSeparator c).
    + rewrite last_cons_nonempty; [exact IH|apply splitOn_nonempty].
    + destruct (splitOn isSeparator (pre ++ String "/" f)) as [|h [|h' t]];
        cbn [List.length] in T; [lia|lia|exact IH].
Qed.

Lemma canImport_transfer s s' :
  canImport s = true ->
  currentPackageInfo s' <> None ->
  selectedBoard s' <> None ->
  selectedProject s' <> None ->
  projectNameValue s' = projectNameValue s ->
  locationValue s' = locationValue s ->
  canImport s' = true.
Proof.
  unfold canImport. intros C P B Q -> ->.
  destruct (currentPackageInfo s); [|discriminate].
  destruct (selectedBoard s); [|discriminate].
  destruct (selectedProject s); [|discriminate].
  destruct (currentPackageInfo s'); [|congruence].
  destruct (selectedBoard s'); [|congruence].
  destruct (selectedProject s'); [|congruence].
  exact C.
Qed.

Lemma boardChange_found s packageInfo board boardId :
  currentPackageInfo s = Some packageInfo ->
  find (fun b => String.eqb (BoardInfo.id b) boardId) (currentBoards s)
  = Some board ->
  exists s1,
    step s (BoardChange boardId)
    = (s1, [Panel.SelectProject (PackageInfo.path packageInfo) boardId])
    /\ currentPackageInfo s1 = Some packageInfo
    /\ selectedBoard s1 = Some board
    /\ selectedProject s1 = selectedProject s
    /\ projectNameValue s1 = projectNameValue s
    /\ locationValue s1 = locationValue s.
Proof.
  intros P F. cbn [step]. unfold onBoardChange. rewrite F, P.
  eexists. split; [reflexivity|]. cbn. auto 10.
Qed.

Lemma projectsLoaded_keeps s projects :
  exists s1,
    step s (Received (Panel.ProjectsLoaded projects)) = (s1, [])
    /\ currentPackageInfo s1 = currentPackageInfo s
    /\ selectedBoard s1 = selectedBoard s
    /\ selectedProject s1 = selectedProject s
    /\ projectNameValue s1 = projectNameValue s
    /\ locationValue s1 = locationValue s
    /\ importDisabled s1 = negb (canImport s).
Proof.
  eexists. split; [reflexivity|]. destruct s. cbn. auto 10.
Qed.

Lemma importClick_posts s packageInfo board project :
  canImport s = true ->
  currentPackageInfo s = Some packageInfo ->
  selectedBoard s = Some board ->
  selectedProject s = Some project ->
  snd (step s ImportClick)
  = [ Panel.ImportProject (PackageInfo.path packageInfo) (BoardInfo.id board)
        (ProjectInfo.name project)
        (Some (locationValue s)) (Some (Js.trim (projectNameValue s)))
        (Some (ProjectInfo.path project)) ].
Proof.
  intros C P B Q. cbn [step]. unfold onImportClick. rewrite C, P, B, Q.
  reflexivity.
Qed.

End Form.

(** X17.  Without a package (when the script has loaded, and after a
    successful import) the form asks the extension for nothing but the two
    folder dialogs: whatever the user does and whatever arrives, as long
    as no [packageSelected] arrives, no [selectBoard], [selectProject] or
    [importProject] is posted, and the form stays without a package. *)
Theorem no_package_no_requests
    (s : Webview.State) (events : list Webview.Event) :
  Webview.currentPackageInfo s = None ->
  (forall info, ~ In (Webview.Received (Panel.PackageSelected info)) events) ->
  Webview.currentPackageInfo (fst (Webview.run s events)) = None
  /\ forall message, In message (snd (Webview.run s events)) ->
       message = Panel.SelectPackage \/ message = Panel.BrowseLocation.
Proof.
  revert s. induction events as [|e events IH]; intros s N P; cbn [Webview.run].
  - split; [exact N|intros message []].
  - assert (Pe : forall info, e <> Webview.Received (Panel.PackageSelected info)).
    { intros info ->. apply (P info). left. reflexivity. }
    destruct (step_without_package s e N Pe) as [N1 M1].
    destruct (Webview.step s e) as [s1 posted1]. cbn [fst snd] in N1, M1.
    assert (P' : forall info,
               ~ In (Webview.Received (Panel.PackageSelected info)) events).
    { intros info H. apply (P info). right. exact H. }
    destruct (IH s1 N1 P') as [N2 M2].
    destruct (Webview.run s1 events) as [s2 posted2]. cbn [fst snd] in *.
    split; [exact N2|]. intros message H. apply in_app_iff in H.
    destruct H as [H|H]; [exact (M1 message H)|exact (M2 message H)].
Qed.

Lemma no_package_no_requests_witness :
  Webview.currentPackageInfo
    (fst (Webview.run Webview.initial
            [ Webview.Received
                (Panel.BoardsLoaded (getAvailableBoards Kit.fs "/kit"));
              Webview.BoardChange "STM32F4-DISCO";
              Webview.Received (Panel.ProjectsLoaded KitForm.projects);
              Webview.TemplateChange "Examples/GPIO EXTI";
              Webview.Received (Panel.LocationSelected "/work");
              Webview.BrowseLocationClick;
              Webview.ImportClick ])) = None
  /\ forall message,
       In message
         (snd (Webview.run Webview.initial
            [ Webview.Received
                (Panel.BoardsLoaded (getAvailableBoards Kit.fs "/kit"));
              Webview.BoardChange "STM32F4-DISCO";
              Webview.Received (Panel.ProjectsLoaded KitForm.projects);
              Webview.TemplateChange "Examples/GPIO EXTI";
              Webview.Received (Panel.LocationSelected "/work");
              Webview.BrowseLocationClick;
              Webview.ImportClick ])) ->
       message = Panel.SelectPackage \/ message = Panel.BrowseLocation.
Proof.
  apply (no_package_no_requests Webview.initial).
  - reflexivity.
  - intros info H. cbn [In] in H.
    repeat (destruct H as [H|H]; [discriminate|]). exact H.
Defined.

(** X18.  Every [importProject] message the form posts, in any run from
    any state, carries a target name that is not empty, a location that
    is neither blank nor the placeholder "Select location", and a
    project path. *)
Theorem import_requests_are_complete
    (s : Webview.State) (events : list Webview.Event)
    (packagePath boardId projectName : string)
    (location targetName projectPath : option string) :
  In (Panel.ImportProject packagePath boardId projectName
        location targetName projectPath) (snd (Webview.run s events)) ->
  exists name folder source,
    targetName = Some name /\ name <> ""
    /\ location = Some folder
    /\ Js.trim folder <> "" /\ folder <> "Select location"
    /\ projectPath = Some source.
Proof.
  intros H. apply run_posted in H. destruct H as [s' [e [_ H]]].
  apply step_import in H.
  destruct H as [C [-> [-> [packageInfo [board [project H]]]]]].
  destruct H as [_ [_ [_ [_ [_ [_ ->]]]]]].
  apply canImport_true in C.
  destruct C as [p [b [q [_ [_ [_ [C1 [C2 C3]]]]]]]].
  eexists _, _, _. repeat split; assumption.
Qed.

Lemma import_requests_are_complete_witness :
  exists name folder source,
    Some "GPIO_EXTI" = Some name /\ name <> ""
    /\ Some "/work" = Some folder
    /\ Js.trim folder <> "" /\ folder <> "Select location"
    /\ Some "/kit/Projects/STM32F4-DISCO/Examples/GPIO_EXTI" = Some source.
Proof.
  apply (import_requests_are_complete Webview.initial
           (KitForm.events ++ [Webview.ImportClick])%list
           "/kit" "STM32F4-DISCO" "Examples/GPIO EXTI").
  vm_compute. right. left. reflexivity.
Defined.

(** X19.  A change of board does not clear the selected project, and
    neither does the project list that arrives for the new board: the
    import button stays enabled, and a click asks for the project chosen
    before, now with the new board. *)
Theorem board_change_keeps_project
    (s : Webview.State) (packageInfo : PackageInfo.t) (board : BoardInfo.t)
    (project : ProjectInfo.t) (boardId : string) (projects : list ProjectInfo.t) :
  Webview.currentPackageInfo s = Some packageInfo ->
  Webview.selectedProject s = Some project ->
  find (fun b => String.eqb (BoardInfo.id b) boardId) (Webview.currentBoards s)
  = Some board ->
  Webview.canImport s = true ->
  Webview.importDisabled
    (fst (Webview.run s [ Webview.BoardChange boardId;
                          Webview.Received (Panel.ProjectsLoaded projects) ]))
  = false
  /\ snd (Webview.run s [ Webview.BoardChange boardId;
                          Webview.Received (Panel.ProjectsLoaded projects);
                          Webview.ImportClick ])
     = [ Panel.SelectProject (PackageInfo.path packageInfo) boardId;
         Panel.ImportProject (PackageInfo.path packageInfo) boardId
           (ProjectInfo.name project)
           (Some (Webview.locationValue s))
           (Some (Js.trim (Webview.projectNameValue s)))
           (Some (ProjectInfo.path project)) ].
Proof.
  intros P Q F C.
  destruct (boardChange_found s packageInfo board boardId P F)
    as [s1 [S1 [P1 [B1 [Q1 [N1 L1]]]]]].
  destruct (projectsLoaded_keeps s1 projects)
    as [s2 [S2 [P2 [B2 [Q2 [N2 [L2 D2]]]]]]].
  assert (I : BoardInfo.id board = boardId).
  { apply find_some in F. destruct F as [_ F]. apply String.eqb_eq in F. exact F. }
  assert (C1 : Webview.canImport s1 = true).
  { apply (canImport_transfer s); congruence. }
  assert (C2 : Webview.canImport s2 = true).
  { apply (canImport_transfer s1); congruence. }
  pose proof (importClick_posts s2 packageInfo board project C2) as K.
  rewrite P2, B2, Q2, N2, L2, N1, L1, I in K.
  specialize (K P1 B1 (eq_trans Q1 Q)).
  cbn [Webview.run]. rewrite S1, S2.
  destruct (Webview.step s2 Webview.ImportClick) as [s3 posted].
  cbn [snd fst app] in *. rewrite D2, C1, K. split; reflexivity.
Qed.

Lemma board_change_keeps_project_witness :
  Webview.importDisabled
    (fst (Webview.run KitForm.filled
            [ Webview.BoardChange "STM32F4-DISCO";
              Webview.Received (Panel.ProjectsLoaded []) ]))
  = false
  /\ snd (Webview.run KitForm.filled
            [ Webview.BoardChange "STM32F4-DISCO";
              Webview.Received (Panel.ProjectsLoaded []);
              Webview.ImportClick ])
     = [ Panel.SelectProject "/kit" "STM32F4-DISCO";
         Panel.ImportProject "/kit" "STM32F4-DISCO" "Examples/GPIO EXTI"
           (Some "/work") (Some "GPIO_EXTI")
           (Some "/kit/Projects/STM32F4-DISCO/Examples/GPIO_EXTI") ].
Proof.
  pose proof (board_change_keeps_project KitForm.filled KitForm.packageInfo
                {| BoardInfo.id := "STM32F4-DISCO";
                   BoardInfo.name := "STM32F4 DISCOVERY";
                   BoardInfo.description :=
                     "STM32 Development Board: STM32F4 DISCOVERY (STM32F407)";
                   BoardInfo.imagePath :=
                     Some "/kit/Projects/STM32F4-DISCO/Board_Photo.PNG";
                   BoardInfo.mcu := "STM32F407" |}
                {| ProjectInfo.name := "Examples/GPIO EXTI";
                   ProjectInfo.description := "Examples: STM32 Project: GPIO EXTI";
                   ProjectInfo.path :=
                     "/kit/Projects/STM32F4-DISCO/Examples/GPIO_EXTI";
                   ProjectInfo.toolchain := ["Generic"] |}
                "STM32F4-DISCO" []) as W.
  vm_compute in W. vm_compute. apply W; reflexivity.
Defined.

(** X20.  A successful import puts the form back into the state it has
    when the script has loaded, whatever it held: package, lists,
    selections, name, location and check box are cleared and the
    controls disabled again.  (The reset does not touch the repository
    error line, which is taken to be hidden.) *)
Theorem successful_import_resets_form
    (s : Webview.State) (message : string) :
  Webview.repositoryErrorShown s = false ->
  fst (Webview.step s (Webview.Received (Panel.ImportComplete true message)))
  = Webview.initial.
Proof.
  intros E. cbn [Webview.step fst]. unfold Webview.handleImportComplete,
    Webview.resetForm, Webview.resetBoardSelection, Webview.updateImportButton,
    Webview.setImport, Webview.initial. cbn. rewrite E. reflexivity.
Qed.

Lemma successful_import_resets_form_witness :
  fst (Webview.step KitForm.filled
         (Webview.Received (Panel.ImportComplete true "Import finished")))
  = Webview.initial.
Proof.
  apply (successful_import_resets_form KitForm.filled "Import finished").
  reflexivity.
Defined.

(** X21.  The folder name the form proposes for a listed project is the
    name of the project's directory, not its display name: for a
    directory entry whose name holds no slash or backslash, the last
    segment of the path [scanForProjects] gives the project. *)
Theorem suggested_name_is_directory_name
    (fs : FileSystem) (categoryPath category name : string)
    (project : ProjectInfo.t) :
  plainName name ->
  Js.includes name "\" = false ->
  analyzeProjectDirectory fs (path.join [categoryPath; name]) name = Some project ->
  Webview.suggestedName (addCategoryPrefix category project) = name.
Proof.
  intros P B A. unfold analyzeProjectDirectory in A. injection A as <-.
  unfold Webview.suggestedName, addCategoryPrefix. cbn [ProjectInfo.path].
  assert (S : Js.includes name "/" = false) by (destruct P as [_ [_ [_ P]]]; exact P).
  assert (N : name <> "") by (destruct P as [P _]; exact P).
  destruct (join_plain categoryPath name P) as [->|[pre ->]].
  - destruct name as [|c name]; [congruence|].
    rewrite (splitOn_plain _ S B). reflexivity.
  - destruct (pre ++ String "/" name) as [|c r] eqn:E.
    + destruct pre; discriminate.
    + rewrite <- E. apply splitOn_last; assumption.
Qed.

Lemma suggested_name_is_directory_name_witness :
  Webview.suggestedName
    (addCategoryPrefix "Examples"
       {| ProjectInfo.name := "GPIO EXTI";
          ProjectInfo.description := "STM32 Project: GPIO EXTI";
          ProjectInfo.path := "/kit/Projects/STM32F4-DISCO/Examples/GPIO_EXTI";
          ProjectInfo.toolchain := ["Generic"] |})
  = "GPIO_EXTI".
Proof.
  apply (suggested_name_is_directory_name Kit.fs
           "/kit/Projects/STM32F4-DISCO/Examples" "Examples" "GPIO_EXTI").
  - repeat split; try discriminate; reflexivity.
  - reflexivity.
  - reflexivity.
Defined.

(** X24.  Of the listed projects that share a display name only the
    first can be selected: the template handler looks the project up by
    name, so choosing the entry of a later one selects the first. *)
Theorem shadowed_project_cannot_be_selected
    (s : Webview.State) (before rest : list ProjectInfo.t)
    (p1 p2 : ProjectInfo.t) (value : string) :
  Webview.currentProjects s = (before ++ p1 :: rest)%list ->
  ProjectInfo.name p1 = ProjectInfo.name p2 ->
  ~ In p2 before ->
  p1 <> p2 ->
  Webview.selectedProject (fst (Webview.step s (Webview.TemplateChange value)))
  <> Some p2.
Proof.
  intros L N B D. cbn [Webview.step fst]. unfold Webview.onTemplateChange.
  cbn [Webview.updateImportButton Webview.setImport Webview.selectedProject].
  rewrite L. clear L. induction before as [|q before IH]; cbn [app find].
  - destruct (String.eqb (ProjectInfo.name p1) value) eqn:E.
    + intros H. injection H as H. exact (D H).
    + intros H. apply find_some in H. destruct H as [_ H].
      rewrite <- N, E in H. discriminate H.
  - destruct (String.eqb (ProjectInfo.name q) value).
    + intros H. injection H as H. apply B. left. exact H.
    + apply IH. intros H. apply B. right. exact H.
Qed.

Lemma shadowed_project_cannot_be_selected_witness :
  Webview.selectedProject
    (fst (Webview.step KitForm.filled
            (Webview.TemplateChange "Examples/GPIO EXTI")))
  <> Some {| ProjectInfo.name := "Examples/GPIO EXTI";
             ProjectInfo.description := "Examples: STM32 Project: GPIO EXTI";
             ProjectInfo.path := "/kit/Projects/STM32F4-DISCO/Examples/GPIO-EXTI";
             ProjectInfo.toolchain := ["GCC"] |}.
Proof.
  apply (shadowed_project_cannot_be_selected KitForm.filled []
           [ {| ProjectInfo.name := "Examples/GPIO EXTI";
                ProjectInfo.description := "Examples: STM32 Project: GPIO EXTI";
                ProjectInfo.path :=
                  "/kit/Projects/STM32F4-DISCO/Examples/GPIO-EXTI";
                ProjectInfo.toolchain := ["GCC"] |} ]
           {| ProjectInfo.name := "Examples/GPIO EXTI";
              ProjectInfo.description := "Examples: STM32 Project: GPIO EXTI";
              ProjectInfo.path := "/kit/Projects/STM32F4-DISCO/Examples/GPIO_EXTI";
              ProjectInfo.toolchain := ["Generic"] |}).
  - vm_compute. reflexivity.
  - reflexivity.
  - intros [].
  - discriminate.
Defined.
(** ** From the project list to the import *)

Section ListedProjects.

Lemma formatChar_dot b c :
  (if Js.isWord (if dashOrUnderscore c then " "%char else c) && b
   then Js.upperChar (if dashOrUnderscore c then " "%char else c)
   else (if dashOrUnderscore c then " "%char else c)) = "."%char ->
  c = "."%char.
Proof.
  destruct b; destruct c as [[] [] [] [] [] [] [] []]; cbn;
    intros H; first [reflexivity|discriminate H].
Qed.

Lemma formatChar_slash b c :
  (if Js.isWord (if dashOrUnderscore c then " "%char else c) && b
   then Js.upperChar (if dashOrUnderscore c then " "%char else c)
   else (if dashOrUnderscore c then " "%char else c)) = "/"%char ->
  c = "/"%char.
Proof.
  destruct b; destruct c as [[] [] [] [] [] [] [] []]; cbn;
    intros H; first [reflexivity|discriminate H].
Qed.

Lemma includes_slash_cons c s :
  Js.includes (String c s) "/" = Ascii.eqb c "/" || Js.includes s "/".
Proof.
  cbn [Js.includes Js.startsWith]. rewrite andb_true_r. reflexivity.
Qed.

Lemma format_no_slash b s :
  Js.includes s "/" = false ->
  Js.includes (Applied.capitalizeWords b (Rule.hyphensToSpaces s)) "/" = false.
Proof.
  revert b. induction s as [|c s IH]; intros b H; [reflexivity|].
  rewrite includes_slash_cons in H. apply orb_false_iff in H. destruct H as [H1 H2].
  cbn [Rule.hyphensToSpaces Js.map Applied.capitalizeWords].
  fold (Rule.hyphensToSpaces s).
  rewrite includes_slash_cons, (IH _ H2), orb_false_r.
  apply Ascii.eqb_neq. intros E. apply formatChar_slash in E.
  apply Ascii.eqb_neq in H1. exact (H1 E).
Qed.

Lemma formatProjectName_length name :
  String.length (formatProjectName name) = String.length name.
Proof.
  rewrite formatProjectName_rule, capitalizeWords_length.
  apply map_length.
Qed.

Lemma formatProjectName_plain name :
  plainName name -> plainName (formatProjectName name).
Proof.
  intros [N1 [N2 [N3 N4]]].
  pose proof (formatProjectName_length name) as L.
  rewrite formatProjectName_rule in *.
  repeat split.
  - intros E. rewrite E in L. destruct name; [congruence|discriminate L].
  - intros E. rewrite E in L.
    destruct name as [|c [|c' r]]; try discriminate L.
    cbn [Rule.hyphensToSpaces Js.map Applied.capitalizeWords] in E.
    injection E as E. apply formatChar_dot in E. congruence.
  - intros E. rewrite E in L.
    destruct name as [|c [|c' [|c2 r]]]; try discriminate L.
    cbn [Rule.hyphensToSpaces Js.map Applied.capitalizeWords] in E.
    injection E as E1 E2. apply formatChar_dot in E1, E2. congruence.
  - apply format_no_slash. exact N4.
Qed.

Lemma suffix_same_length a b x y :
  a ++ x = b ++ y -> String.length x = String.length y -> x = y.
Proof.
  revert b. induction a as [|c a IH]; intros b E L.
  - destruct b as [|d b]; [exact E|]. cbn [append] in E. rewrite E in L.
    cbn [String.length] in L. rewrite length_append in L. lia.
  - destruct b as [|d b].
    + cbn [append] in E. rewrite <- E in L.
      cbn [String.length] in L. rewrite length_append in L. lia.
    + cbn [append] in E. injection E as _ E. exact (IH b E L).
Qed.

(** The last segment of a joined path is the last segment of its last
    argument, when that is a plain name. *)
Lemma join_last_plain parts c f :
  plainName f ->
  path.join (parts ++ [(c ++ String "/" f)%string])%list = f
  \/ exists pre, path.join (parts ++ [(c ++ String "/" f)%string])%list = pre ++ String "/" f.
Proof.
  intros Hf. unfold path.join. rewrite filter_app. cbn [filter].
  assert (N : String.eqb (c ++ String "/" f) "" = false).
  { apply String.eqb_neq. destruct c; discriminate. }
  rewrite N. cbn [negb].
  set (kept := filter (fun a => negb (String.eqb a "")) parts).
  destruct (kept ++ [(c ++ String "/" f)%string])%list as [|x t] eqn:K.
  { destruct kept; discriminate. }
  rewrite <- K. rewrite concatWith_last.
  destruct kept as [|k kept'].
  - replace (c ++ String "/" f) with ((c ++ "/") ++ f)
      by (rewrite append_assoc; reflexivity).
    apply (normalize_plain_tail (c ++ "/") f Hf). right. eauto.
  - set (body := path.concatWith "/" (k :: kept')).
    replace (body ++ "/" ++ c ++ String "/" f)
      with (((body ++ "/" ++ c) ++ "/") ++ f)
      by (rewrite !append_assoc; reflexivity).
    apply (normalize_plain_tail _ f Hf). right. eauto.
Qed.

Lemma possiblePaths_tail packagePath boardId category f source :
  plainName f ->
  In source (possiblePaths packagePath boardId (category ++ String "/" f)) ->
  exists pre, source = pre ++ f.
Proof.
  intros Hf H. unfold possiblePaths in H.
  assert (J : forall root,
             exists pre,
               path.join [packagePath; root; boardId; category ++ String "/" f]
               = pre ++ f).
  { intros root.
    destruct (join_last_plain [packagePath; root; boardId] category f Hf)
      as [E|[pre E]]; cbn [app] in E; rewrite E.
    - exists "". reflexivity.
    - exists (pre ++ "/"). rewrite append_assoc. reflexivity. }
  destruct H as [<-|[<-|[<-|[]]]]; apply J.
Qed.

End ListedProjects.

(** X22.  For a listed project whose directory name is changed by
    [formatProjectName] (it holds a hyphen or an underscore, or a word of
    it starts with a small letter), the three paths [importProject]
    probes for its listed name all end in the display name, and none of
    them is the path stored for the project.  The import copies only
    from a probed path that the file system reports as existing; when it
    reports none, nothing is copied and the import fails with "project
    not found". *)
Theorem renamed_project_is_not_probed
    (fs : FileSystem)
    (folder packagePath boardId categoryPath category name : string)
    (project : ProjectInfo.t) :
  plainName name ->
  formatProjectName name <> name ->
  analyzeProjectDirectory fs (path.join [categoryPath; name]) name = Some project ->
  let listed := ProjectInfo.name (addCategoryPrefix category project) in
  let outcome := importProject fs (Some folder) packagePath boardId listed in
  (forall probe,
      In probe (possiblePaths packagePath boardId listed) ->
      probe <> ProjectInfo.path project
      /\ exists pre, probe = pre ++ formatProjectName name)
  /\ match copyRequested outcome with
     | Some (source, _) =>
         In source (possiblePaths packagePath boardId listed)
         /\ pathExists fs source = true
     | None =>
         (forall probe,
             In probe (possiblePaths packagePath boardId listed) ->
             pathExists fs probe = false)
         /\ returned outcome
            = Err ("Error: Failed to import project: Error: Project "
                   ++ listed ++ " not found for board " ++ boardId)
     end.
Proof.
  intros P D A. unfold analyzeProjectDirectory in A. injection A as <-.
  cbn [addCategoryPrefix ProjectInfo.name ProjectInfo.path]. cbv zeta.
  change (category ++ "/" ++ formatProjectName name)
    with (category ++ String "/" (formatProjectName name)).
  split.
  - intros probe F.
    apply possiblePaths_tail in F; [|apply formatProjectName_plain; exact P].
    destruct F as [pre F]. split; [|exists pre; exact F].
    intros E.
    assert (T : exists pre', path.join [categoryPath; name] = pre' ++ name).
    { destruct (join_plain categoryPath name P) as [J|[q J]]; rewrite J.
      - exists "". reflexivity.
      - exists (q ++ "/"). rewrite append_assoc. reflexivity. }
    destruct T as [pre' T]. rewrite T, F in E.
    apply D. apply (suffix_same_length pre pre'); [exact E|].
    apply formatProjectName_length.
  - rewrite importProject_prepared.
    destruct (find (pathExists fs)
                (possiblePaths packagePath boardId
                   (category ++ String "/" (formatProjectName name))))
      as [source|] eqn:F; cbn [copyRequested returned].
    + apply find_some in F. exact F.
    + split; [|reflexivity]. intros probe H.
      exact (find_none _ _ F probe H).
Qed.

Lemma renamed_project_is_not_probed_witness :
  (forall probe,
      In probe (possiblePaths "/kit" "STM32F4-DISCO" "Examples/GPIO EXTI") ->
      probe <> "/kit/Projects/STM32F4-DISCO/Examples/GPIO_EXTI"
      /\ exists pre, probe = pre ++ "GPIO EXTI")
  /\ match
       copyRequested
         (importProject Kit.fs (Some "/work") "/kit" "STM32F4-DISCO"
            "Examples/GPIO EXTI")
     with
     | Some (source, _) =>
         In source (possiblePaths "/kit" "STM32F4-DISCO" "Examples/GPIO EXTI")
         /\ pathExists Kit.fs source = true
     | None =>
         (forall probe,
             In probe (possiblePaths "/kit" "STM32F4-DISCO" "Examples/GPIO EXTI") ->
             pathExists Kit.fs probe = false)
         /\ returned
              (importProject Kit.fs (Some "/work") "/kit" "STM32F4-DISCO"
                 "Examples/GPIO EXTI")
            = Err ("Error: Failed to import project: Error: Project "
                   ++ "Examples/GPIO EXTI" ++ " not found for board "
                   ++ "STM32F4-DISCO")
     end.
Proof.
  apply (renamed_project_is_not_probed Kit.fs "/work" "/kit" "STM32F4-DISCO"
           "/kit/Projects/STM32F4-DISCO/Examples" "Examples" "GPIO_EXTI"
           {| ProjectInfo.name := "GPIO EXTI";
              ProjectInfo.description := "STM32 Project: GPIO EXTI";
              ProjectInfo.path := "/kit/Projects/STM32F4-DISCO/Examples/GPIO_EXTI";
              ProjectInfo.toolchain := ["Generic"] |}).
  - repeat split; try discriminate; reflexivity.
  - vm_compute. discriminate.
  - reflexivity.
Defined.

(** ** Joining joined paths *)

Section Normalize.

Lemma normalizeSegments_app allow stack l1 l2 :
  path.normalizeSegments allow stack (l1 ++ l2)
  = path.normalizeSegments allow
      (rev (path.normalizeSegments allow stack l1)) l2.
Proof.
  revert stack. induction l1 as [|seg l1 IH]; intros stack.
  - cbn [app path.normalizeSegments]. rewrite rev_involutive. reflexivity.
  - cbn [app path.normalizeSegments].
    destruct (String.eqb seg "" || String.eqb seg "."); [apply IH|].
    destruct (String.eqb seg ".."); [|apply IH].
    destruct stack as [|top below]; [apply IH|].
    destruct (String.eqb top ".."); apply IH.
Qed.

Lemma proper_step seg :
  properSegment seg = true ->
  String.eqb seg "" || String.eqb seg "." = false /\ String.eqb seg ".." = false.
Proof.
  unfold properSegment. rewrite negb_true_iff, !orb_false_iff. tauto.
Qed.

Lemma improper_step seg :
  String.eqb seg "" || String.eqb seg "." = false -> String.eqb seg ".." = false ->
  properSegment seg = true.
Proof.
  unfold properSegment. intros H1 H2. apply orb_false_iff in H1.
  destruct H1 as [H1 H3]. rewrite H1, H2, H3. reflexivity.
Qed.

Lemma normalStack_nil allow : normalStack allow [].
Proof. exists [], 0%nat. split; [reflexivity|]. split; [constructor|reflexivity]. Qed.

Lemma normalizeSegments_normal allow l stack :
  normalStack allow stack ->
  normalStack allow (rev (path.normalizeSegments allow stack l)).
Proof.
  revert stack. induction l as [|seg l IH]; intros stack N.
  - cbn [path.normalizeSegments]. rewrite rev_involutive. exact N.
  - cbn [path.normalizeSegments].
    destruct (String.eqb seg "" || String.eqb seg ".") eqn:E1; [apply IH, N|].
    destruct (String.eqb seg "..") eqn:E2.
    + apply String.eqb_eq in E2. subst seg.
      destruct N as [names [k [Hs [F A]]]].
      destruct stack as [|top below].
      * apply IH. destruct allow.
        -- exists [], 1%nat. split; [reflexivity|].
           split; [constructor|discriminate].
        -- apply normalStack_nil.
      * destruct (String.eqb top "..") eqn:T.
        -- apply String.eqb_eq in T. subst top. apply IH.
           destruct names as [|n names].
           ++ cbn [app] in Hs. destruct allow.
              ** exists [], (S k). split; [rewrite Hs; reflexivity|].
                 split; [constructor|discriminate].
              ** exists [], k. split; [exact Hs|]. split; [constructor|exact A].
           ++ exfalso. cbn [app] in Hs. injection Hs as Hs _. subst n.
              apply Forall_inv in F. discriminate F.
        -- apply IH. destruct names as [|n names].
           ++ exfalso. cbn [app] in Hs. destruct k as [|k]; [discriminate Hs|].
              cbn [repeat] in Hs. injection Hs as Hs _. subst top. discriminate T.
           ++ cbn [app] in Hs. injection Hs as _ Hs.
              exists names, k. split; [exact Hs|].
              split; [exact (Forall_inv_tail F)|exact A].
    + apply IH. destruct N as [names [k [Hs [F A]]]].
      exists (seg :: names), k. split; [rewrite Hs; reflexivity|].
      split; [|exact A]. constructor; [|exact F].
      apply improper_step; assumption.
Qed.

Lemma normalizeSegments_dots stack_dots k rest :
  path.normalizeSegments true (repeat ".." stack_dots) (repeat ".." k ++ rest)
  = path.normalizeSegments true (repeat ".." (k + stack_dots)) rest.
Proof.
  revert stack_dots. induction k as [|k IH]; intros j; [reflexivity|].
  cbn [repeat app path.normalizeSegments String.eqb Ascii.eqb orb].
  change (String.eqb ".." "" || String.eqb ".." ".") with false.
  change (String.eqb ".." "..") with true. cbv iota.
  replace (S k + j)%nat with (k + S j)%nat by lia.
  destruct j as [|j].
  - cbn [repeat]. apply (IH 1%nat).
  - cbn [repeat]. change (String.eqb ".." "..") with true. cbv iota.
    apply (IH (S (S j))).
Qed.

Lemma normalizeSegments_names allow stack names rest :
  Forall (fun seg => properSegment seg = true) names ->
  path.normalizeSegments allow stack (names ++ rest)
  = path.normalizeSegments allow (rev names ++ stack) rest.
Proof.
  revert stack. induction names as [|n names IH]; intros stack F; [reflexivity|].
  cbn [app path.normalizeSegments].
  destruct (proper_step n (Forall_inv F)) as [E1 E2]. rewrite E1, E2.
  rewrite (IH _ (Forall_inv_tail F)). cbn [rev]. rewrite <- app_assoc.
  reflexivity.
Qed.

(** A normal stack read from the bottom is a fixed point. *)
Lemma normalizeSegments_fixed allow stack :
  normalStack allow stack ->
  path.normalizeSegments allow [] (rev stack) = rev stack.
Proof.
  intros [names [k [-> [F A]]]]. rewrite rev_app_distr, rev_repeat.
  assert (D : path.normalizeSegments allow [] (repeat ".." k ++ rev names)
              = path.normalizeSegments allow (repeat ".." k) (rev names)).
  { destruct allow.
    - rewrite (normalizeSegments_dots 0 k). rewrite Nat.add_0_r. reflexivity.
    - rewrite (A eq_refl). reflexivity. }
  rewrite D. rewrite <- (app_nil_r (rev names)) at 1.
  rewrite normalizeSegments_names by (apply Forall_rev; exact F).
  cbn [path.normalizeSegments]. rewrite rev_app_distr, !rev_involutive, rev_repeat.
  reflexivity.
Qed.

Lemma normalizeSegments_In allow l stack seg :
  In seg (path.normalizeSegments allow stack l) -> In seg stack \/ In seg l.
Proof.
  revert stack. induction l as [|s l IH]; intros stack; cbn [path.normalizeSegments].
  - intros H. left. apply in_rev. exact H.
  - assert (G : forall stack',
               (forall x, In x stack' -> In x stack \/ x = s) ->
               In seg (path.normalizeSegments allow stack' l) ->
               In seg stack \/ In seg (s :: l)).
    { intros stack' Sub H. destruct (IH _ H) as [H1|H1].
      - destruct (Sub _ H1) as [H2|H2]; [left; exact H2|right; left; auto].
      - right. right. exact H1. }
    destruct (String.eqb s "" || String.eqb s ".");
      [apply G; intros x Hx; left; exact Hx|].
    destruct (String.eqb s "..").
    + destruct stack as [|top below].
      * destruct allow; apply G; intros x Hx;
          [destruct Hx as [<-|[]]; right; reflexivity|destruct Hx].
      * destruct (String.eqb top "..").
        -- destruct allow; apply G; intros x Hx.
           ++ destruct Hx as [<-|Hx]; [right; reflexivity|left; exact Hx].
           ++ left; exact Hx.
        -- apply G. intros x Hx. left. right. exact Hx.
    + apply G. intros x [<-|Hx]; [right; reflexivity|left; exact Hx].
Qed.

Lemma split_elements s seg :
  In seg (path.split s) -> Js.includes seg "/" = false.
Proof.
  revert seg. induction s as [|c s IH]; intros seg; cbn [path.split].
  - intros [<-|[]]. reflexivity.
  - destruct (Ascii.eqb c "/") eqn:E.
    + intros [<-|H]; [reflexivity|exact (IH _ H)].
    + pose proof (split_nonempty s) as N.
      destruct (path.split s) as [|h t]; [congruence|].
      intros [<-|H].
      * rewrite includes_slash_cons, E. apply IH. left. reflexivity.
      * apply IH. right. exact H.
Qed.

Lemma split_concatWith l :
  l <> [] ->
  (forall seg, In seg l -> Js.includes seg "/" = false) ->
  path.split (path.concatWith "/" l) = l.
Proof.
  induction l as [|x l IH]; [congruence|]. intros _ H.
  destruct l as [|y l].
  - cbn [path.concatWith]. apply split_no_slash. apply H. left. reflexivity.
  - change (path.concatWith "/" (x :: y :: l))
      with (x ++ String "/" (path.concatWith "/" (y :: l))).
    rewrite split_slash, IH; [|discriminate|intros seg Hs; apply H; right; exact Hs].
    rewrite split_no_slash by (apply H; left; reflexivity). reflexivity.
Qed.

Lemma concatWith_empty l :
  (forall seg, In seg l -> seg <> "") ->
  path.concatWith "/" l = "" -> l = [].
Proof.
  destruct l as [|x [|y l]]; intros H E; [reflexivity| |].
  - cbn in E. exfalso. apply (H x); [left; reflexivity|exact E].
  - exfalso. change (path.concatWith "/" (x :: y :: l))
      with (x ++ String "/" (path.concatWith "/" (y :: l))) in E.
    destruct x; discriminate E.
Qed.

Lemma startsWith_slash_append a b :
  a <> "" -> Js.startsWith (a ++ b) "/" = Js.startsWith a "/".
Proof. destruct a as [|c a]; [congruence|]. intros _. reflexivity. Qed.

Lemma endsWith_slash_append a z :
  z <> "" -> Js.endsWith (a ++ z) "/" = Js.endsWith z "/".
Proof.
  intros N. induction a as [|c a IH]; [reflexivity|].
  cbn [append Js.endsWith]. rewrite IH.
  replace (String.eqb (String c (a ++ z)) "/") with false; [reflexivity|].
  symmetry. apply String.eqb_neq. intros E. injection E as _ E.
  destruct a; [cbn in E; congruence|discriminate E].
Qed.

(** The segments of a normalized path are the normalized segments of the
    path; it is absolute when the path is, and never empty. *)
Lemma normalize_segments x :
  x <> "" ->
  path.normalizeSegments (negb (Js.startsWith x "/")) []
    (path.split (path.normalize x))
  = path.normalizeSegments (negb (Js.startsWith x "/")) [] (path.split x)
  /\ Js.startsWith (path.normalize x) "/" = Js.startsWith x "/"
  /\ path.normalize x <> "".
Proof.
  intros N. rewrite (normalize_nonempty x N). cbv zeta.
  set (allow := negb (Js.startsWith x "/")).
  set (segs := path.normalizeSegments allow [] (path.split x)).
  assert (NS : normalStack allow (rev segs)).
  { apply normalizeSegments_normal, normalStack_nil. }
  assert (FX : path.normalizeSegments allow [] segs = segs).
  { rewrite <- (rev_involutive segs). apply normalizeSegments_fixed. exact NS. }
  assert (SL : forall seg, In seg segs -> Js.includes seg "/" = false).
  { intros seg H. apply normalizeSegments_In in H. destruct H as [[]|H].
    exact (split_elements _ _ H). }
  assert (NE : forall seg, In seg segs -> seg <> "").
  { intros seg H E. subst seg. destruct NS as [names [k [Hs [F A]]]].
    apply in_rev in H. rewrite Hs in H. apply in_app_iff in H. destruct H as [H|H].
    - rewrite Forall_forall in F. specialize (F _ H). discriminate F.
    - apply repeat_spec in H. discriminate H. }
  destruct (path.concatWith "/" segs) as [|c body] eqn:B.
  - apply concatWith_empty in B; [|exact NE]. rewrite B.
    destruct (Js.startsWith x "/") eqn:A; [repeat split; discriminate|].
    destruct (Js.endsWith x "/"); repeat split; discriminate.
  - rewrite <- B.
    assert (NN : segs <> []) by (intros E; rewrite E in B; discriminate B).
    assert (SP : path.split (path.concatWith "/" segs) = segs)
      by (apply split_concatWith; assumption).
    assert (SP' : path.split (path.concatWith "/" segs ++ "/") = (segs ++ [""])%list).
    { change (path.concatWith "/" segs ++ "/")
        with (path.concatWith "/" segs ++ String "/" "").
      rewrite split_slash, SP. reflexivity. }
    assert (FX' : path.normalizeSegments allow [] (segs ++ [""])%list = segs).
    { rewrite normalizeSegments_app, FX. cbn [path.normalizeSegments String.eqb orb].
      apply rev_involutive. }
    assert (ST : Js.startsWith (path.concatWith "/" segs) "/" = false).
    { destruct segs as [|s1 rest]; [congruence|].
      assert (I : Js.includes s1 "/" = false) by (apply SL; left; reflexivity).
      assert (E : s1 <> "") by (apply NE; left; reflexivity).
      destruct s1 as [|c1 s1]; [congruence|].
      rewrite includes_slash_cons in I. apply orb_false_iff in I.
      destruct rest; cbn [path.concatWith append Js.startsWith];
        rewrite andb_true_r; tauto. }
    destruct (Js.startsWith x "/") eqn:A; destruct (Js.endsWith x "/").
    + split; [|split; [reflexivity|discriminate]].
      change ("/" ++ path.concatWith "/" segs ++ "/")
        with ("" ++ String "/" (path.concatWith "/" segs ++ "/")).
      rewrite split_slash, SP'. exact FX'.
    + split; [|split; [reflexivity|discriminate]].
      change ("/" ++ path.concatWith "/" segs)
        with ("" ++ String "/" (path.concatWith "/" segs)).
      rewrite split_slash, SP. exact FX.
    + rewrite SP'. split; [exact FX'|].
      rewrite startsWith_slash_append by (rewrite B; discriminate).
      split; [exact ST|]. rewrite B. discriminate.
    + rewrite SP. split; [exact FX|]. split; [exact ST|]. rewrite B. discriminate.
Qed.

(** [path.join(path.normalize(x), y)] is [path.normalize(x + "/" + y)]. *)
Lemma normalize_join x y :
  x <> "" -> y <> "" ->
  path.normalize (path.normalize x ++ String "/" y)
  = path.normalize (x ++ String "/" y).
Proof.
  intros Nx Ny. destruct (normalize_segments x Nx) as [Hs [A NE]].
  set (n := path.normalize x) in *.
  rewrite (normalize_nonempty (n ++ String "/" y))
    by (destruct n; [congruence|discriminate]).
  rewrite (normalize_nonempty (x ++ String "/" y))
    by (destruct x; [congruence|discriminate]).
  cbv zeta.
  rewrite !startsWith_slash_append by assumption. rewrite A.
  rewrite !split_slash.
  rewrite (normalizeSegments_app _ [] (path.split n)), Hs.
  rewrite <- normalizeSegments_app.
  rewrite !(endsWith_slash_append _ (String "/" y)) by discriminate.
  reflexivity.
Qed.

Lemma join_nonempty parts :
  filter (fun a => negb (String.eqb a "")) parts <> [] ->
  path.join parts
  = path.normalize
      (path.concatWith "/" (filter (fun a => negb (String.eqb a "")) parts))
  /\ path.concatWith "/" (filter (fun a => negb (String.eqb a "")) parts) <> "".
Proof.
  unfold path.join. intros N.
  destruct (filter (fun a => negb (String.eqb a "")) parts) as [|p rest] eqn:F;
    [congruence|].
  split; [reflexivity|].
  assert (P : p <> "").
  { assert (I : In p (filter (fun a => negb (String.eqb a "")) parts))
      by (rewrite F; left; reflexivity).
    apply filter_In in I. destruct I as [_ I]. apply negb_true_iff in I.
    apply String.eqb_neq. exact I. }
  destruct rest as [|q rest]; [exact P|].
  change (path.concatWith "/" (p :: q :: rest))
    with (p ++ String "/" (path.concatWith "/" (q :: rest))).
  destruct p; [congruence|discriminate].
Qed.

(** Joining in steps is joining at once. *)
Lemma join_join parts y :
  filter (fun a => negb (String.eqb a "")) parts <> [] -> y <> "" ->
  path.join [path.join parts; y] = path.join (parts ++ [y])%list.
Proof.
  intros N Ny. destruct (join_nonempty parts N) as [J C].
  set (x := path.concatWith "/" (filter (fun a => negb (String.eqb a "")) parts)) in *.
  destruct (normalize_segments x C) as [_ [_ NE]].
  unfold path.join at 1. cbn [filter]. rewrite J.
  apply String.eqb_neq in NE, Ny. rewrite NE, Ny. cbn [negb path.concatWith].
  change (path.normalize x ++ "/" ++ y) with (path.normalize x ++ String "/" y).
  apply String.eqb_neq in Ny.
  rewrite (normalize_join x y C Ny).
  unfold path.join. rewrite filter_app. cbn [filter].
  apply String.eqb_neq in Ny. rewrite Ny. cbn [negb].
  fold x.
  destruct (filter (fun a => negb (String.eqb a "")) parts) as [|p rest] eqn:F;
    [congruence|].
  destruct ((p :: rest) ++ [y])%list as [|a b] eqn:K; [discriminate K|].
  rewrite <- K. rewrite concatWith_last. reflexivity.
Qed.

End Normalize.

Section RoundTrip.

Lemma filter_last parts y :
  y <> "" ->
  filter (fun a => negb (String.eqb a "")) (parts ++ [y])
  = (filter (fun a => negb (String.eqb a "")) parts ++ [y])%list.
Proof.
  intros N. rewrite filter_app. cbn [filter].
  apply String.eqb_neq in N. rewrite N. reflexivity.
Qed.

Lemma join_last parts y :
  filter (fun a => negb (String.eqb a "")) parts <> [] -> y <> "" ->
  path.join (parts ++ [y])
  = path.normalize
      (path.concatWith "/" (filter (fun a => negb (String.eqb a "")) parts)
       ++ "/" ++ y).
Proof.
  intros F N. unfold path.join. rewrite (filter_last parts y N).
  destruct (filter (fun a => negb (String.eqb a "")) parts) as [|k kept];
    [congruence|].
  destruct ((k :: kept) ++ [y])%list as [|a1 b1] eqn:K; [discriminate K|].
  rewrite <- K, concatWith_last. reflexivity.
Qed.

Lemma join_category packagePath boardId category name :
  category <> "" -> name <> "" ->
  path.join [path.join [boardPathOf packagePath boardId; category]; name]
  = path.join [packagePath; "Projects"; boardId; category ++ "/" ++ name].
Proof.
  intros Nc Nn. unfold boardPathOf.
  assert (F : filter (fun a => negb (String.eqb a ""))
                [packagePath; "Projects"; boardId] <> []).
  { cbn [filter]. destruct (negb (String.eqb packagePath ""));
      change (negb (String.eqb "Projects" "")) with true; cbv iota; discriminate. }
  rewrite (join_join [packagePath; "Projects"; boardId] category F Nc).
  assert (F' : filter (fun a => negb (String.eqb a ""))
                 ([packagePath; "Projects"; boardId] ++ [category]) <> []).
  { rewrite filter_app. intros E. apply app_eq_nil in E. tauto. }
  rewrite (join_join _ name F' Nn).
  assert (Nx : category ++ "/" ++ name <> "") by (destruct category; discriminate).
  rewrite (join_last _ name F' Nn).
  change [packagePath; "Projects"; boardId; category ++ "/" ++ name]
    with ([packagePath; "Projects"; boardId]
          ++ [(category ++ "/" ++ name)%string])%list.
  rewrite (join_last _ _ F Nx).
  rewrite (filter_last _ category Nc).
  destruct (filter (fun a => negb (String.eqb a ""))
              [packagePath; "Projects"; boardId]) as [|k kept]; [congruence|].
  destruct ((k :: kept) ++ [category])%list as [|a1 b1] eqn:K; [discriminate K|].
  rewrite <- K, concatWith_last. rewrite !append_assoc. reflexivity.
Qed.

End RoundTrip.

(** X23.  A listed project whose directory name [formatProjectName]
    leaves as it is can be imported by its listed name: when its
    directory exists, [importProject] asks for the copy of exactly that
    directory into the picked folder joined with the listed name. *)
Theorem unchanged_project_is_copied
    (fs : FileSystem) (folder packagePath boardId category name : string)
    (project : ProjectInfo.t) :
  category <> "" ->
  name <> "" ->
  formatProjectName name = name ->
  analyzeProjectDirectory fs
    (path.join [path.join [boardPathOf packagePath boardId; category]; name])
    name = Some project ->
  pathExists fs (ProjectInfo.path project) = true ->
  copyRequested
    (importProject fs (Some folder) packagePath boardId
       (ProjectInfo.name (addCategoryPrefix category project)))
  = Some (ProjectInfo.path project,
          path.join [folder; ProjectInfo.name (addCategoryPrefix category project)]).
Proof.
  intros Nc Nn U A E. unfold analyzeProjectDirectory in A. injection A as <-.
  cbn [addCategoryPrefix ProjectInfo.name ProjectInfo.path] in *.
  rewrite U. rewrite importProject_prepared.
  rewrite (join_category packagePath boardId category name Nc Nn) in *.
  unfold possiblePaths. cbn [find]. rewrite E. reflexivity.
Qed.

Lemma unchanged_project_is_copied_witness :
  copyRequested
    (importProject Sample.stm32Fs (Some "/work") "/pkg" "NUCLEO-U575ZI-Q"
       "Examples/Foo")
  = Some ("/pkg/Projects/NUCLEO-U575ZI-Q/Examples/Foo", "/work/Examples/Foo").
Proof.
  apply (unchanged_project_is_copied Sample.stm32Fs "/work" "/pkg"
           "NUCLEO-U575ZI-Q" "Examples" "Foo"
           {| ProjectInfo.name := "Foo";
              ProjectInfo.description := "STM32 Project: Foo";
              ProjectInfo.path := "/pkg/Projects/NUCLEO-U575ZI-Q/Examples/Foo";
              ProjectInfo.toolchain := ["Generic"] |}).
  - discriminate.
  - discriminate.
  - reflexivity.
  - reflexivity.
  - reflexivity.
Defined.
